(** * Food-Cast-AI: the forecast computation pipeline

    A shallow embedding of the forecasting services of the repository
    (the server-side [ForecastingService] and [AdvancedForecastingService]
    classes and the client-side forecasting utilities) together with the
    properties the specification states about them.

    Numbers.  A JavaScript [number] is modelled by the type [num]: a real
    number, or one of the three special values [+Infinity], [-Infinity]
    and [NaN].  The special values arise and propagate exactly as in the
    source (division by zero, [NaN] comparing false with everything, the
    falsiness of [0] and [NaN] under [||]); arithmetic on finite values is
    exact real arithmetic, so rounding, overflow and the sign of zero are
    not part of the model.  Where a property of the specification turns on
    rounding, the function is embedded once more on binary64 numbers
    (module [Float64]) and the property is settled there. *)

From Stdlib Require Import PrimFloat.
From Stdlib Require Uint63.
From Stdlib Require Import String Ascii DecimalString.
From Stdlib Require Import Reals Lra Lia ZArith Bool Arith List Sorted Permutation.
Import ListNotations.

Set Warnings "-inexact-float".

Open Scope R_scope.

(** ** JavaScript numbers *)

Module JS.

Inductive num : Type :=
| Fin (r : R)
| PInf
| NInf
| NaN.

Definition Rltb (a b : R) : bool := if Rlt_dec a b then true else false.
Definition Reqb (a b : R) : bool := if Req_dec_T a b then true else false.

Definition is_finite (x : num) : bool :=
  match x with Fin _ => true | _ => false end.

Definition is_nan (x : num) : bool :=
  match x with NaN => true | _ => false end.

(** [-x] *)
Definition neg (x : num) : num :=
  match x with
  | Fin a => Fin (- a)
  | PInf => NInf
  | NInf => PInf
  | NaN => NaN
  end.

(** [x + y] *)
Definition add (x y : num) : num :=
  match x, y with
  | NaN, _ | _, NaN => NaN
  | Fin a, Fin b => Fin (a + b)
  | PInf, NInf | NInf, PInf => NaN
  | PInf, _ | _, PInf => PInf
  | NInf, _ | _, NInf => NInf
  end.

(** [x - y] *)
Definition sub (x y : num) : num := add x (neg y).

(** The infinity carrying the sign of the finite value [a]; [NaN] at zero. *)
Definition signed_inf (a : R) : num :=
  if Reqb a 0 then NaN else if Rltb 0 a then PInf else NInf.

(** [x * y] *)
Definition mul (x y : num) : num :=
  match x, y with
  | NaN, _ | _, NaN => NaN
  | Fin a, Fin b => Fin (a * b)
  | Fin a, PInf | PInf, Fin a => signed_inf a
  | Fin a, NInf | NInf, Fin a => signed_inf (- a)
  | PInf, PInf | NInf, NInf => PInf
  | PInf, NInf | NInf, PInf => NInf
  end.

(** [x / y]; a zero divisor is the positive zero. *)
Definition div (x y : num) : num :=
  match x, y with
  | NaN, _ | _, NaN => NaN
  | Fin a, Fin b => if Reqb b 0 then signed_inf a else Fin (a / b)
  | Fin _, PInf | Fin _, NInf => Fin 0
  | PInf, Fin b => if Rltb b 0 then NInf else PInf
  | NInf, Fin b => if Rltb b 0 then PInf else NInf
  | _, _ => NaN
  end.

(** [x < y] and [x > y]: false as soon as one side is [NaN]. *)
Definition lt (x y : num) : bool :=
  match x, y with
  | NaN, _ | _, NaN => false
  | Fin a, Fin b => Rltb a b
  | NInf, NInf | PInf, _ => false
  | NInf, _ => true
  | Fin _, PInf => true
  | Fin _, NInf => false
  end.

Definition gt (x y : num) : bool := lt y x.

(** [x === y] on numbers. *)
Definition strict_eq (x y : num) : bool :=
  match x, y with
  | Fin a, Fin b => Reqb a b
  | PInf, PInf | NInf, NInf => true
  | _, _ => false
  end.

(** ToBoolean: [0] and [NaN] are falsy. *)
Definition truthy (x : num) : bool :=
  match x with
  | Fin a => negb (Reqb a 0)
  | NaN => false
  | _ => true
  end.

(** [x || y] *)
Definition or_else (x y : num) : num := if truthy x then x else y.

(** [Math.max(x, y)] and [Math.min(x, y)]: [NaN] if either argument is. *)
Definition Math_max (x y : num) : num :=
  match x, y with
  | NaN, _ | _, NaN => NaN
  | _, _ => if lt x y then y else x
  end.

Definition Math_min (x y : num) : num :=
  match x, y with
  | NaN, _ | _, NaN => NaN
  | _, _ => if lt y x then y else x
  end.

(** [Math.abs(x)] *)
Definition Math_abs (x : num) : num :=
  match x with
  | Fin a => Fin (Rabs a)
  | PInf | NInf => PInf
  | NaN => NaN
  end.

(** [Math.sqrt(x)] *)
Definition Math_sqrt (x : num) : num :=
  match x with
  | Fin a => if Rltb a 0 then NaN else Fin (sqrt a)
  | PInf => PInf
  | NInf | NaN => NaN
  end.

(** [Math.exp(x)] *)
Definition Math_exp (x : num) : num :=
  match x with
  | Fin a => Fin (exp a)
  | PInf => PInf
  | NInf => Fin 0
  | NaN => NaN
  end.

(** [Math.log(x)] *)
Definition Math_log (x : num) : num :=
  match x with
  | Fin a => if Rltb a 0 then NaN else if Reqb a 0 then NInf else Fin (ln a)
  | PInf => PInf
  | NInf | NaN => NaN
  end.

(** [Math.pow(x, 2)] *)
Definition Math_pow2 (x : num) : num := mul x x.

(** [Math.round(x)]: the integer nearest to [x], ties towards [+Infinity]. *)
Definition Math_round (x : num) : num :=
  match x with
  | Fin a => Fin (IZR (Int_part (a + / 2)))
  | _ => x
  end.

(** The number denoted by an integer literal, index or length. *)
Definition of_Z (z : Z) : num := Fin (IZR z).
Definition of_nat (n : nat) : num := of_Z (Z.of_nat n).

End JS.

Import JS.

Declare Scope num_scope.
Delimit Scope num_scope with num.
Bind Scope num_scope with num.
Infix "+" := add : num_scope.
Infix "-" := sub : num_scope.
Infix "*" := mul : num_scope.
Infix "/" := div : num_scope.
Infix ">?" := gt (at level 70) : num_scope.
Infix "<?" := lt (at level 70) : num_scope.
Infix "||" := or_else : num_scope.
Coercion Fin : R >-> num.

(** ** JavaScript arrays *)

(** [a.reduce(f, init)] *)
Definition reduce {A B : Type} (f : B -> A -> B) (a : list A) (init : B) : B :=
  fold_left f a init.

(** [a.length] as a number. *)
Definition len {A : Type} (a : list A) : num := of_nat (length a).

(** [a[i]] on an array of numbers; an index out of range, or a hole,
    reads [undefined], which every arithmetic use turns into [NaN]. *)
Definition get (a : list num) (i : nat) : num := nth i a NaN.

(** [a[i]] for a possibly negative index. *)
Definition getZ (a : list num) (i : Z) : num :=
  if (i <? 0)%Z then NaN else get a (Z.to_nat i).

(** [a[i] = v]; an index beyond the end extends the array with holes. *)
Fixpoint set (a : list num) (i : nat) (v : num) : list num :=
  match i, a with
  | O, [] => [v]
  | O, _ :: t => v :: t
  | S j, [] => NaN :: set [] j v
  | S j, h :: t => h :: set t j v
  end.

(** [new Array(n)]: [n] holes. *)
Definition new_Array (n : nat) : list num := repeat NaN n.

(** [a.slice(start, end)] for indices [0 <= start]. *)
Definition slice {A : Type} (a : list A) (start stop : nat) : list A :=
  firstn (stop - start) (skipn start a).

(** [a.slice(-k)] for an integer [k]: the last [k] elements; the whole
    array when [k] is zero (the index [-0] is [0]) or exceeds the length;
    for a negative [k] the elements from index [-k] on. *)
Definition slice_last {A : Type} (a : list A) (k : Z) : list A :=
  if (k <? 0)%Z then skipn (Z.to_nat (- k)) a
  else if (k =? 0)%Z then a
  else skipn (length a - Z.to_nat k) a.

(** [a.sort(cmp)]: a stable sort; an element moves behind another only
    when the comparator returns a number greater than zero. *)
Fixpoint sort_insert {A : Type} (cmp : A -> A -> num) (x : A) (l : list A) : list A :=
  match l with
  | [] => [x]
  | y :: t => if (cmp x y >? Fin 0)%num then y :: sort_insert cmp x t else x :: l
  end.

Definition sort {A : Type} (cmp : A -> A -> num) (a : list A) : list A :=
  fold_right (sort_insert cmp) [] a.

(** [a.reduce(f, init)] with a callback that also takes the index. *)
Fixpoint reducei_from {A B : Type} (f : B -> A -> nat -> B) (a : list A) (i : nat)
  (acc : B) : B :=
  match a with
  | [] => acc
  | x :: t => reducei_from f t (S i) (f acc x i)
  end.

Definition reducei {A B : Type} (f : B -> A -> nat -> B) (a : list A) (init : B) : B :=
  reducei_from f a 0 init.

(** [a.reduce(f)] without an initial value, on a non-empty array (the
    callers return before reaching it on an empty one). *)
Definition reduce1 {A : Type} (f : A -> A -> A) (a : list A) (dflt : A) : A :=
  match a with
  | [] => dflt
  | x :: t => fold_left f t x
  end.

(** [a.map(f)] and [a.filter(f)] with a callback that also takes the index. *)
Fixpoint mapi_from {A B : Type} (f : A -> nat -> B) (a : list A) (i : nat) : list B :=
  match a with
  | [] => []
  | x :: t => f x i :: mapi_from f t (S i)
  end.

Definition mapi {A B : Type} (f : A -> nat -> B) (a : list A) : list B :=
  mapi_from f a 0.

Fixpoint filteri_from {A : Type} (f : A -> nat -> bool) (a : list A) (i : nat) : list A :=
  match a with
  | [] => []
  | x :: t => if f x i then x :: filteri_from f t (S i) else filteri_from f t (S i)
  end.

Definition filteri {A : Type} (f : A -> nat -> bool) (a : list A) : list A :=
  filteri_from f a 0.

(** [i % m] on non-negative integers: [NaN], here [None], when [m] is zero. *)
Definition rem (i m : nat) : option nat :=
  if (m =? 0)%nat then None else Some (i mod m)%nat.

(** [a[k]] where [k] is the result of [%]; [a[NaN]] is [undefined]. *)
Definition get_rem (a : list num) (k : option nat) : num :=
  match k with
  | Some i => get a i
  | None => NaN
  end.

(** [a[k] = v] where [k] is the result of [%]; [a[NaN] = v] leaves the
    elements of the array alone. *)
Definition set_rem (a : list num) (k : option nat) (v : num) : list num :=
  match k with
  | Some i => set a i v
  | None => a
  end.

(** The loop [for (let i = lo; i < hi; i++) body], threading the state. *)
Definition for_loop {S : Type} (lo hi : nat) (body : nat -> S -> S) (s : S) : S :=
  fold_left (fun s i => body i s) (seq lo (hi - lo)) s.

(** ** [Math.random]

    The source of randomness is the sequence of the values the calls of
    [Math.random()] return, in call order; a computation that draws from
    it passes the rest of the sequence on. *)

Definition Random : Type := nat -> R.

Definition Rand (A : Type) : Type := Random -> A * Random.

Definition ret {A : Type} (a : A) : Rand A := fun s => (a, s).

Definition bind {A B : Type} (c : Rand A) (k : A -> Rand B) : Rand B :=
  fun s => let (a, s') := c s in k a s'.

Notation "x <- c ;; k" := (bind c (fun x => k))
  (at level 61, c at next level, right associativity).

Definition Math_random : Rand num :=
  fun s => (Fin (s O), fun n => s (S n)).

(** [a.map(x => f x)] where the callback draws random numbers. *)
Fixpoint mapM {A B : Type} (f : A -> Rand B) (a : list A) : Rand (list B) :=
  match a with
  | [] => ret []
  | x :: t => y <- f x ;; ys <- mapM f t ;; ret (y :: ys)
  end.

(** ** Data model *)

(** Modelled from the spec: the [SalesData] row type is declared in the
    shared schema, which is not among the sources; the fields are those of
    the SalesObservation of the data model.  A date is its time value. *)
Record SalesData : Type := mkSalesData {
  itemName : string;
  category : string;
  quantity : num;
  revenue : num;
  date : Z
}.

(** A [Date] object read from the clock: its time value and the day of
    the week [getDay()] reports for it, [0] for Sunday to [6] for Saturday. *)
Record JSDate : Type := mkDate {
  getTime : Z;
  getDay : nat
}.

Inductive Period : Type := daily | weekly | monthly.

(** The insertion-ordered [Map<string, SalesData[]>] of the two services. *)
Definition ItemGroups : Type := list (string * list SalesData).

Fixpoint group_push (groups : ItemGroups) (key : string) (sale : SalesData) : ItemGroups :=
  match groups with
  | [] => [(key, [sale])]
  | (k, sales) :: rest =>
      if String.eqb k key then (k, sales ++ [sale]) :: rest
      else (k, sales) :: group_push rest key sale
  end.

(** [salesData.forEach(sale => { ... itemGroups.get(key).push(sale) })] *)
Definition group_by_item (salesData : list SalesData) : ItemGroups :=
  fold_left (fun groups sale => group_push groups (itemName sale) sale) salesData [].

(** [itemSales.sort((a, b) => a.date.getTime() - b.date.getTime())] *)
Definition sort_by_date (itemSales : list SalesData) : list SalesData :=
  sort (fun a b => sub (of_Z (date a)) (of_Z (date b))) itemSales.

(** [itemSales[0].category]; the element exists wherever this is read. *)
Definition first_category (itemSales : list SalesData) : string :=
  match itemSales with
  | s :: _ => category s
  | [] => EmptyString
  end.

(** ** The advanced forecasting service *)

Module Advanced.

Open Scope num_scope.

Inductive EnsembleMethod : Type := average | weighted | best_performer.

Record AdvancedForecastOptions : Type := mkOptions {
  period : Period;
  horizon : num;
  ensembleMethod : option EnsembleMethod
}.

Record ModelPerformanceMetrics : Type := mkMetrics {
  mae : num;
  mape : num;
  rmse : num;
  r2 : num;
  aic : num;
  accuracy : num;
  precision : num;
  recall : num;
  f1Score : num
}.

Inductive ModelType : Type :=
| arima
| exponential_smoothing
| neural_network
| ensemble.

Record ForecastModel : Type := mkModel {
  name : string;
  type : ModelType;
  predictions : list num;
  confidence : list num;
  metrics : ModelPerformanceMetrics;
  hyperparameters : list (string * num)
}.

Record SeasonalComponents : Type := mkComponents {
  trend : list num;
  seasonal : list num;
  residual : list num
}.

Record Anomaly : Type := mkAnomaly {
  a_date : Z;
  value : num;
  anomalyScore : num
}.

Record AdvancedForecastResult : Type := mkResult {
  r_itemName : string;
  r_category : string;
  models : list ForecastModel;
  bestModel : ForecastModel;
  ensemblePrediction : list num;
  ensembleConfidence : list num;
  forecastHorizon : num;
  externalFactorsImpact : list (string * num);
  seasonalComponents : SeasonalComponents;
  anomalies : list Anomaly
}.

(** *** Helper methods *)

Definition differenceData (data : list num) (order : nat) : list num :=
  for_loop 0 order
    (fun _ result =>
       for_loop 1 (length result)
         (fun i diffed => diffed ++ [get result i - get result (i - 1)]) [])
    data.

Definition autoregressive (data : list num) (order : nat) : list num :=
  if (length data <? order + 1)%nat
  then [getZ data (Z.of_nat (length data) - 1) || Fin 0]
  else
    let lastValues := slice_last data (Z.of_nat order) in
    let coefficients := mapi (fun _ i => Fin 1 / (of_nat i + Fin 1)) lastValues in
    let prediction :=
      reducei (fun sum val i => sum + val * get coefficients i) lastValues (Fin 0)
      / len coefficients in
    [prediction].

(** The accumulators [mae], [mse] and [mape] of the loop of [calculateMetrics]. *)
Record Errors : Type := mkErrors { e_mae : num; e_mse : num; e_mape : num }.

Definition calculateMetrics (actual predicted : list num) : ModelPerformanceMetrics :=
  let n := Nat.min (length actual) (length predicted) in
  if (n =? 0)%nat
  then mkMetrics (Fin 0) (Fin 0) (Fin 0) (Fin 0) (Fin 0)
                 (Fin (1/2)) (Fin (1/2)) (Fin (1/2)) (Fin (1/2))
  else
    let sums :=
      for_loop 0 n
        (fun i acc =>
           let error := Math_abs (get actual i - get predicted i) in
           mkErrors (e_mae acc + error)
                    (e_mse acc + error * error)
                    (if negb (strict_eq (get actual i) (Fin 0))
                     then e_mape acc + Math_abs (error / get actual i)
                     else e_mape acc))
        (mkErrors (Fin 0) (Fin 0) (Fin 0)) in
    let mae := e_mae sums / of_nat n in
    let mse := e_mse sums / of_nat n in
    let mape := e_mape sums / of_nat n in
    let rmse := Math_sqrt mse in
    let actualMean := reduce (fun sum val => sum + val) actual (Fin 0) / of_nat n in
    let totalSumSquares :=
      reduce (fun sum val => sum + Math_pow2 (val - actualMean)) actual (Fin 0) in
    let residualSumSquares :=
      reducei (fun sum val i => sum + Math_pow2 (val - get predicted i)) actual (Fin 0) in
    let r2 :=
      if strict_eq totalSumSquares (Fin 0) then Fin 1
      else Fin 1 - residualSumSquares / totalSumSquares in
    let aic := of_nat n * Math_log mse + Fin 2 * Fin 3 in
    let accuracy := Math_max (Fin 0) (Fin 1 - mape) in
    let precision := Math_max (Fin (3/10)) accuracy in
    let recall := Math_max (Fin (3/10)) accuracy in
    let f1Score := Fin 2 * (precision * recall) / (precision + recall) in
    mkMetrics mae mape rmse r2 aic accuracy precision recall f1Score.

(** The decimal numeral of a parameter inside a template string. *)
Definition show_nat (n : nat) : string :=
  DecimalString.NilEmpty.string_of_uint (Nat.to_uint n).

(** *** ARIMA model (simplified) *)

Definition calculateARIMA (data : list num) (p d q : nat) : Rand ForecastModel :=
  let differenced := differenceData data d in
  let forecast := autoregressive differenced p in
  let predictions := map (fun val => Math_max (Fin 0) val) forecast in
  confidence <-
    mapM (fun _ => r <- Math_random ;; ret (Fin (8/10) + r * Fin (15/100))) predictions ;;
  let metrics :=
    calculateMetrics (slice_last data (Z.of_nat (length predictions))) predictions in
  ret (mkModel
         ("ARIMA(" ++ show_nat p ++ "," ++ show_nat d ++ "," ++ show_nat q ++ ")")%string
         arima predictions confidence metrics
         [("p"%string, of_nat p); ("d"%string, of_nat d); ("q"%string, of_nat q)]).

(** *** Simple exponential smoothing fallback *)

Definition simpleExponentialSmoothing (data : list num) (alpha : num) : ForecastModel :=
  let n := length data in
  let smoothed :=
    for_loop 1 n
      (fun i smoothed =>
         set smoothed i (alpha * get data i + (Fin 1 - alpha) * get smoothed (i - 1)))
      [get data 0] in
  let predictions := [getZ smoothed (Z.of_nat n - 1)] in
  let confidence := [Fin (7/10)] in
  let metrics := calculateMetrics [getZ data (Z.of_nat n - 1)] predictions in
  mkModel "Simple Exponential Smoothing" exponential_smoothing
          predictions confidence metrics [("alpha"%string, alpha)].

(** *** Exponential smoothing with seasonality (Holt-Winters) *)

(** The three arrays the Holt-Winters recurrences fill in. *)
Record HW : Type := mkHW {
  hw_level : list num;
  hw_trend : list num;
  hw_seasonal : list num
}.

Definition calculateExponentialSmoothing
  (data : list num) (alpha beta gamma : num) (seasonLength : nat) : ForecastModel :=
  let n := length data in
  if (n <? seasonLength * 2)%nat
  then simpleExponentialSmoothing data alpha
  else
    let level := new_Array n in
    let trend := new_Array n in
    let seasonal := new_Array (n + seasonLength) in
    let seasonal :=
      for_loop 0 seasonLength
        (fun i seasonal =>
           let seasonalSum :=
             reduce (fun sum val => sum + val)
               (filteri (fun _ idx => match rem idx seasonLength with
                                      | Some 0%nat => true
                                      | _ => false
                                      end)
                        (slice data i n))
               (Fin 0) in
           let seasonalCount := ((n - i) / seasonLength)%nat in
           set seasonal i
             (if (0 <? seasonalCount)%nat then seasonalSum / of_nat seasonalCount
              else Fin 1))
        seasonal in
    let level := set level 0 (get data 0 / get seasonal 0) in
    let trend := set trend 0 (Fin 0) in
    let st :=
      for_loop 1 n
        (fun i st =>
           let seasonalIndex := rem i seasonLength in
           let level :=
             set (hw_level st) i
               (alpha * (get data i / get_rem (hw_seasonal st) seasonalIndex)
                + (Fin 1 - alpha) * (get (hw_level st) (i - 1) + get (hw_trend st) (i - 1))) in
           let trend :=
             set (hw_trend st) i
               (beta * (get level i - get level (i - 1))
                + (Fin 1 - beta) * get (hw_trend st) (i - 1)) in
           let seasonal :=
             set (hw_seasonal st) (i + seasonLength)
               (gamma * (get data i / get level i)
                + (Fin 1 - gamma) * get_rem (hw_seasonal st) seasonalIndex) in
           mkHW level trend seasonal)
        (mkHW level trend seasonal) in
    let forecastHorizon := 7%nat in
    let out :=
      for_loop 1 (forecastHorizon + 1)
        (fun h out =>
           let seasonalIndex := rem (n - 1 + h) seasonLength in
           let forecast :=
             (getZ (hw_level st) (Z.of_nat n - 1)
              + of_nat h * getZ (hw_trend st) (Z.of_nat n - 1))
             * match seasonalIndex with
               | Some k => get (hw_seasonal st) (n - seasonLength + k)
               | None => NaN
               end in
           (fst out ++ [Math_max (Fin 0) forecast],
            snd out ++ [Math_max (Fin (1/2)) (Fin (9/10) - of_nat h * Fin (5/100))]))
        ([], []) in
    let predictions := fst out in
    let confidence := snd out in
    let metrics :=
      calculateMetrics
        (slice_last data (Z.of_nat (Nat.min (length predictions) (length data))))
        (slice predictions 0 (length data)) in
    mkModel "Holt-Winters" exponential_smoothing predictions confidence metrics
            [("alpha"%string, alpha); ("beta"%string, beta); ("gamma"%string, gamma);
             ("seasonLength"%string, of_nat seasonLength)].

(** *** Neural-network-inspired forecasting *)

(** Activation function: linear, for regression. *)
Definition activate (inputs weights : list num) (bias : num) : num :=
  reducei (fun acc input i => acc + input * get weights i) inputs bias.

Definition calculateNeuralNetworkForecast (data : list num) (windowSize : nat)
  : Rand ForecastModel :=
  if (length data <? windowSize + 1)%nat
  then ret (simpleExponentialSmoothing data (Fin (3/10)))
  else
    let training :=
      for_loop 0 (length data - windowSize)
        (fun i tr =>
           (fst tr ++ [slice data i (i + windowSize)],
            snd tr ++ [get data (i + windowSize)]))
        ([], []) in
    let sequences : list (list num) := fst training in
    let targets : list num := snd training in
    weights <- mapM (fun _ => r <- Math_random ;; ret (r - Fin (1/2))) (seq 0 windowSize) ;;
    r <- Math_random ;;
    let bias := r - Fin (1/2) in
    let learningRate := Fin (1/100) in
    let epochs := 100%nat in
    let weights :=
      for_loop 0 epochs
        (fun _ weights =>
           for_loop 0 (length sequences)
             (fun i weights =>
                let prediction := activate (nth i sequences []) weights bias in
                let error := get targets i - prediction in
                for_loop 0 (length weights)
                  (fun j weights =>
                     set weights j
                       (get weights j + learningRate * error * get (nth i sequences []) j))
                  weights)
             weights)
        weights in
    let lastSequence := slice_last data (Z.of_nat windowSize) in
    let prediction := activate lastSequence weights bias in
    let predictions := [Math_max (Fin 0) prediction] in
    let confidence := [Fin (8/10)] in
    let metrics := calculateMetrics (slice_last targets 1) predictions in
    ret (mkModel "Neural Network" neural_network predictions confidence metrics
           [("windowSize"%string, of_nat windowSize);
            ("learningRate"%string, learningRate);
            ("epochs"%string, of_nat epochs)]).

(** *** Ensemble forecasting *)

Record Ensemble : Type := mkEnsemble {
  e_predictions : list num;
  e_confidence : list num
}.

(** The three variables of one step of the ensemble loop. *)
Record Step : Type := mkStep {
  ensemblePred : num;
  ensembleConf : num;
  totalWeight : num
}.

(** The model [models.reduce] keeps: a later one only if strictly more accurate. *)
Definition pick_best (models : list ForecastModel) (first : ForecastModel) : ForecastModel :=
  reduce1
    (fun best current =>
       if (accuracy (metrics current) || Fin 0) >? (accuracy (metrics best) || Fin 0)
       then current else best)
    models first.

Definition createEnsemble (models : list ForecastModel) (method : option EnsembleMethod)
  : Ensemble :=
  let method := match method with Some m => m | None => weighted end in
  match models with
  | [] => mkEnsemble [] []
  | first :: _ =>
      let maxLength := fold_right Nat.max 0%nat (map (fun m => length (predictions m)) models) in
      for_loop 0 maxLength
        (fun i out =>
           let init := mkStep (Fin 0) (Fin 0) (Fin 0) in
           let acc :=
             match method with
             | average =>
                 let validPredictions :=
                   filter (fun m => (i <? length (predictions m))%nat) models in
                 mkStep
                   (reduce (fun sum m => sum + get (predictions m) i) validPredictions (Fin 0)
                    / len validPredictions)
                   (reduce (fun sum m => sum + get (confidence m) i) validPredictions (Fin 0)
                    / len validPredictions)
                   (Fin 0)
             | weighted =>
                 let acc :=
                   fold_left
                     (fun acc model =>
                        if (i <? length (predictions model))%nat
                        then
                          let weight := accuracy (metrics model) || Fin (1/2) in
                          mkStep (ensemblePred acc + get (predictions model) i * weight)
                                     (ensembleConf acc + get (confidence model) i * weight)
                                     (totalWeight acc + weight)
                        else acc)
                     models init in
                 if totalWeight acc >? Fin 0
                 then mkStep (ensemblePred acc / totalWeight acc) (ensembleConf acc / totalWeight acc)
                                 (totalWeight acc)
                 else acc
             | best_performer =>
                 let bestModel := pick_best models first in
                 if (i <? length (predictions bestModel))%nat
                 then mkStep (get (predictions bestModel) i) (get (confidence bestModel) i)
                                 (Fin 0)
                 else init
             end in
           mkEnsemble
             (e_predictions out ++ [Math_max (Fin 0) (ensemblePred acc)])
             (e_confidence out ++ [Math_min (Fin 1) (Math_max (Fin 0) (ensembleConf acc))]))
        (mkEnsemble [] [])
  end.

(** *** Seasonal decomposition *)

(** The object [seasonalAvg]: the bucket of each key that has one.  A key
    is the result of [i % seasonLength]. *)
Definition Buckets : Type := option nat -> option (list num).

Definition key_eqb (k1 k2 : option nat) : bool :=
  match k1, k2 with
  | Some a, Some b => (a =? b)%nat
  | None, None => true
  | _, _ => false
  end.

(** [if (!seasonalAvg[k]) seasonalAvg[k] = []; seasonalAvg[k].push(v)] *)
Definition bucket_push (b : Buckets) (k : option nat) (v : num) : Buckets :=
  fun k' =>
    if key_eqb k k'
    then Some (match b k with Some l => l | None => [] end ++ [v])
    else b k'.

Definition decomposeTimeSeries (data : list num) (seasonLength : nat) : SeasonalComponents :=
  let n := length data in
  let trend := new_Array n in
  let seasonal := new_Array n in
  let residual := new_Array n in
  let halfSeason := (seasonLength / 2)%nat in
  let trend :=
    for_loop 0 n
      (fun i trend =>
         let start := (i - halfSeason)%nat in
         let stop := Nat.min n (i + halfSeason + 1) in
         let slice := slice data start stop in
         set trend i (reduce (fun sum val => sum + val) slice (Fin 0) / len slice))
      trend in
  let seasonalAvg : Buckets :=
    for_loop 0 n
      (fun i seasonalAvg =>
         let seasonIndex := rem i seasonLength in
         bucket_push seasonalAvg seasonIndex (get data i - get trend i))
      (fun _ => None) in
  let seasonalPattern := new_Array seasonLength in
  let seasonalPattern :=
    for_loop 0 seasonLength
      (fun i seasonalPattern =>
         set seasonalPattern i
           match seasonalAvg (Some i) with
           | Some bucket => reduce (fun sum val => sum + val) bucket (Fin 0) / len bucket
           | None => Fin 0
           end)
      seasonalPattern in
  let out :=
    for_loop 0 n
      (fun i out =>
         let seasonal := set (fst out) i (get_rem seasonalPattern (rem i seasonLength)) in
         let residual := set (snd out) i (get data i - get trend i - get seasonal i) in
         (seasonal, residual))
      (seasonal, residual) in
  mkComponents trend (fst out) (snd out).

(** *** Anomaly detection *)

Definition detectAnomalies (data : list SalesData) (threshold : num) : list Anomaly :=
  let values := map quantity data in
  let mean := reduce (fun sum val => sum + val) values (Fin 0) / len values in
  let variance :=
    reduce (fun sum val => sum + Math_pow2 (val - mean)) values (Fin 0) / len values in
  let stdDev := Math_sqrt variance in
  let anomalies :=
    fold_left
      (fun anomalies item =>
         let zScore := Math_abs ((quantity item - mean) / stdDev) in
         if zScore >? threshold
         then anomalies ++ [mkAnomaly (date item) (quantity item) zScore]
         else anomalies)
      data [] in
  sort (fun a b => anomalyScore b - anomalyScore a) anomalies.

(** *** The pipeline *)

(** The body of the loop over the groups: [None] of the options' method
    is the parameter left out, [results] the bundles pushed so far. *)
Definition forecast_item (options : AdvancedForecastOptions)
  (results : list AdvancedForecastResult) (entry : string * list SalesData)
  : Rand (list AdvancedForecastResult) :=
  let (itemName, itemSales) := entry in
  let itemSales := sort_by_date itemSales in
  let quantities := map quantity itemSales in
  if (length quantities <? 7)%nat then ret results
  else
    m_arima <- calculateARIMA quantities 1 1 1 ;;
    let m_smoothing :=
      calculateExponentialSmoothing quantities (Fin (3/10)) (Fin (3/10)) (Fin (3/10)) 7 in
    m_neural <- calculateNeuralNetworkForecast quantities 5 ;;
    let models := [m_arima; m_smoothing; m_neural] in
    let bestModel := pick_best models m_arima in
    let ensemble := createEnsemble models (ensembleMethod options) in
    let seasonalComponents := decomposeTimeSeries quantities 7 in
    let anomalies := detectAnomalies itemSales (Fin (5/2)) in
    weather <- Math_random ;;
    holidays <- Math_random ;;
    seasonality <- Math_random ;;
    trend <- Math_random ;;
    let externalFactorsImpact :=
      [("weather"%string, weather * Fin (1/10));
       ("holidays"%string, holidays * Fin (2/10));
       ("seasonality"%string, seasonality * Fin (15/100));
       ("trend"%string, trend * Fin (1/10))] in
    ret (results ++
         [mkResult itemName (first_category itemSales) models bestModel
            (e_predictions ensemble) (e_confidence ensemble) (horizon options)
            externalFactorsImpact seasonalComponents (slice anomalies 0 5)]).

(** [for (const entry of itemGroups.entries()) body] *)
Fixpoint for_of {A S : Type} (body : S -> A -> Rand S) (entries : list A) (s : S) : Rand S :=
  match entries with
  | [] => ret s
  | e :: rest => s' <- body s e ;; for_of body rest s'
  end.

Definition generateAdvancedForecasts (salesData : list SalesData)
  (options : AdvancedForecastOptions) : Rand (list AdvancedForecastResult) :=
  let itemGroups := group_by_item salesData in
  for_of (forecast_item options) itemGroups [].

End Advanced.

(** ** The basic forecasting service *)

Module Basic.

Open Scope num_scope.

Record ForecastingOptions : Type := mkOptions {
  period : Period
}.

(** Modelled from the spec: the [InsertPrediction] row type is declared in
    the shared schema, which is not among the sources; the fields are those
    the service fills in, the PredictionRecord of the data model. *)
Record InsertPrediction : Type := mkPrediction {
  p_itemName : string;
  p_category : string;
  predictedQuantity : num;
  confidence : num;
  predictionDate : JSDate;
  forecastPeriod : Period
}.

Record Metrics : Type := mkMetrics {
  accuracy : num;
  rmse : num;
  f1Score : num;
  precision : num;
  recall : num
}.

Record ForecastResult : Type := mkForecastResult {
  predictions : list InsertPrediction;
  metrics : Metrics
}.

(** Simple moving average forecasting. *)
Definition calculateMovingAverage (data : list num) (window : Z) : num :=
  if (Z.of_nat (length data) <? window)%Z
  then reduce (fun a b => a + b) data (Fin 0) / len data
  else
    let recent := slice_last data window in
    reduce (fun a b => a + b) recent (Fin 0) / of_Z window.

(** Linear trend forecasting. *)
Definition calculateLinearTrend (data : list num) : num :=
  if (length data <? 2)%nat then get data 0 || Fin 0
  else
    let n := length data in
    let x := map of_nat (seq 0 n) in
    let y := data in
    let sumX := reduce (fun a b => a + b) x (Fin 0) in
    let sumY := reduce (fun a b => a + b) y (Fin 0) in
    let sumXY := reducei (fun acc xi i => acc + xi * get y i) x (Fin 0) in
    let sumXX := reduce (fun acc xi => acc + xi * xi) x (Fin 0) in
    let slope :=
      (of_nat n * sumXY - sumX * sumY) / (of_nat n * sumXX - sumX * sumX) in
    let intercept := (sumY - slope * sumX) / of_nat n in
    slope * of_nat n + intercept.

(** Seasonal adjustment based on day of week patterns. *)
Definition getSeasonalMultiplier (date : JSDate) : num :=
  let dayOfWeek := getDay date in
  let seasonalFactors :=
    [Fin (8/10); Fin (9/10); Fin 1; Fin (11/10); Fin (12/10); Fin (14/10); Fin (13/10)] in
  get seasonalFactors dayOfWeek.

(** Confidence based on data consistency. *)
Definition calculateConfidence (data : list num) (prediction : num) : num :=
  if (length data =? 0)%nat then Fin (1/2)
  else
    let mean := reduce (fun a b => a + b) data (Fin 0) / len data in
    let variance :=
      reduce (fun acc val => acc + Math_pow2 (val - mean)) data (Fin 0) / len data in
    let stdDev := Math_sqrt variance in
    let coefficientOfVariation := stdDev / mean in
    let baseConfidence := Math_max (Fin (3/10)) (Fin 1 - coefficientOfVariation) in
    let predictionDeviation := Math_abs (prediction - mean) / (stdDev || Fin 1) in
    let adjustedConfidence :=
      baseConfidence * Math_exp (neg predictionDeviation / Fin 2) in
    Math_min (Fin (98/100)) (Math_max (Fin (3/10)) adjustedConfidence).

(** The state of the loop over the groups: the predictions pushed so far
    and the two running totals. *)
Record Loop : Type := mkLoop {
  l_predictions : list InsertPrediction;
  totalError : num;
  totalPredictions : nat
}.

(** The body of the loop over the groups; [tomorrow] is the date the body
    builds from the clock for this item. *)
Definition forecast_item (options : ForecastingOptions) (tomorrow : JSDate)
  (st : Loop) (entry : string * list SalesData) : Loop :=
  let (itemName, itemSales) := entry in
  let itemSales := sort_by_date itemSales in
  let quantities := map quantity itemSales in
  if (length quantities =? 0)%nat then st
  else
    let movingAvg :=
      calculateMovingAverage quantities (Z.min 7 (Z.of_nat (length quantities))) in
    let trendPrediction := calculateLinearTrend quantities in
    let basePrediction := movingAvg * Fin (6/10) + trendPrediction * Fin (4/10) in
    let seasonalMultiplier := getSeasonalMultiplier tomorrow in
    let seasonalPrediction := Math_round (basePrediction * seasonalMultiplier) in
    let confidence := calculateConfidence quantities seasonalPrediction in
    let category := first_category itemSales in
    let predictions :=
      l_predictions st ++
      [mkPrediction itemName category (Math_max (Fin 0) seasonalPrediction) confidence
         tomorrow (period options)] in
    if (1 <? length quantities)%nat
    then
      let lastActual := getZ quantities (Z.of_nat (length quantities) - 1) in
      let error := Math_abs (basePrediction - lastActual) in
      mkLoop predictions (totalError st + error) (Datatypes.S (totalPredictions st))
    else mkLoop predictions (totalError st) (totalPredictions st).

(** The loop over the groups, in insertion order; [clock k] is the date
    built for the [k]-th group. *)
Fixpoint for_of (options : ForecastingOptions) (clock : nat -> JSDate) (k : nat)
  (entries : list (string * list SalesData)) (st : Loop) : Loop :=
  match entries with
  | [] => st
  | e :: rest => for_of options clock (Datatypes.S k) rest (forecast_item options (clock k) st e)
  end.

Definition generateForecasts (salesData : list SalesData) (options : ForecastingOptions)
  (clock : nat -> JSDate) : ForecastResult :=
  let itemGroups := group_by_item salesData in
  let st := for_of options clock 0 itemGroups (mkLoop [] (Fin 0) 0) in
  let avgError :=
    if (0 <? totalPredictions st)%nat then totalError st / of_nat (totalPredictions st)
    else Fin 0 in
  let avgQuantity :=
    reduce (fun sum sale => sum + quantity sale) salesData (Fin 0) / len salesData in
  let rmse := avgError / (avgQuantity || Fin 1) in
  mkForecastResult (l_predictions st)
    (mkMetrics (Math_max (Fin (3/10)) (Fin 1 - rmse))
               rmse
               (Math_max (Fin (1/2)) (Fin (95/100) - rmse * Fin (1/2)))
               (Math_max (Fin (1/2)) (Fin (92/100) - rmse * Fin (3/10)))
               (Math_max (Fin (1/2)) (Fin (94/100) - rmse * Fin (4/10)))).

End Basic.

(** ** The client-side forecasting utilities *)

Module Client.

Open Scope num_scope.

(** The outcome of a function that may throw an [Error] with a message. *)
Inductive result (A : Type) : Type :=
| Ok (a : A)
| Throw (message : string).

Arguments Ok {A} a.
Arguments Throw {A} message.

(** Simple moving average calculation: the means of all the windows. *)
Definition calculateMovingAverage (values : list num) (window : Z) : result (list num) :=
  if ((window <=? 0)%Z || (Z.of_nat (length values) <? window)%Z)%bool
  then Throw "Invalid window size for moving average"
  else
    let w := Z.to_nat window in
    Ok (for_loop (w - 1) (length values)
          (fun i result =>
             let slice := slice values (i + 1 - w) (i + 1) in
             let average := reduce (fun sum val => sum + val) slice (Fin 0) / of_Z window in
             result ++ [average])
          []).

(** Confidence score based on data variance and prediction distance. *)
Definition calculateConfidence (historicalData : list num) (prediction : num) : num :=
  if (length historicalData =? 0)%nat then Fin (1/2)
  else
    let mean := reduce (fun a b => a + b) historicalData (Fin 0) / len historicalData in
    let variance :=
      reduce (fun acc val => acc + Math_pow2 (val - mean)) historicalData (Fin 0)
      / len historicalData in
    let stdDev := Math_sqrt variance in
    let coefficientOfVariation :=
      if strict_eq mean (Fin 0) then Fin 1 else stdDev / mean in
    let baseConfidence := Math_max (Fin (3/10)) (Fin 1 - coefficientOfVariation) in
    let predictionDeviation := Math_abs (prediction - mean) / (stdDev || Fin 1) in
    let adjustedConfidence :=
      baseConfidence * Math_exp (neg predictionDeviation / Fin 2) in
    Math_min (Fin (98/100)) (Math_max (Fin (3/10)) adjustedConfidence).

End Client.

(** ** More of the client-side forecasting utilities *)

Module ClientLib.

Open Scope num_scope.




(** A gap in a date series: the dates on its two sides. *)
Record Gap : Type := mkGap {
  gap_start : Z;
  gap_end : Z
}.

(** Gaps of more than a day and a half between observations consecutive
    in date order.  The points are those of the client's [SalesDataPoint],
    which has the fields of [SalesData]. *)
Definition findDateGaps (data : list SalesData) : list Gap :=
  if (length data <? 2)%nat then []
  else
    let sortedData := sort_by_date data in
    for_loop 1 (length sortedData)
      (fun i gaps =>
         match nth_error sortedData (i - 1), nth_error sortedData i with
         | Some before, Some after =>
             let prev := date before in
             let current := date after in
             let daysDiff :=
               (of_Z current - of_Z prev) / Fin (24 * 60 * 60 * 1000) in
             if daysDiff >? Fin (15/10) then gaps ++ [mkGap prev current] else gaps
         | _, _ => gaps
         end)
      [].

(** Outliers by the interquartile-range rule. *)
Definition detectOutliers (values : list num) : list num :=
  if (length values <? 4)%nat then []
  else
    let sorted := sort (fun a b => a - b) values in
    let q1Index := (length sorted / 4)%nat in
    let q3Index := (length sorted * 3 / 4)%nat in
    let q1 := get sorted q1Index in
    let q3 := get sorted q3Index in
    let iqr := q3 - q1 in
    let lowerBound := q1 - Fin (15/10) * iqr in
    let upperBound := q3 + Fin (15/10) * iqr in
    filter (fun value => (value <? lowerBound) || (value >? upperBound))%bool values.

End ClientLib.

(** ** The routes that call the advanced pipeline *)

Module Routes.

(** [GET /api/forecasting/ensemble/:itemName]: the pipeline run, with its
    default options, on the stored sales of one item; the answer is the
    first bundle, or [null], here [None]. *)
Definition ensemble_forecast (salesData : list SalesData) (itemName' : string)
  : Rand (option Advanced.AdvancedForecastResult) :=
  let itemSales := filter (fun sale => String.eqb (itemName sale) itemName') salesData in
  results <-
    Advanced.generateAdvancedForecasts itemSales (Advanced.mkOptions daily (Fin 7) None) ;;
  ret (match results with
       | r :: _ => Some r
       | [] => None
       end).

End Routes.

(** ** The decomposition and the metrics on binary64 numbers

    A JavaScript number is an IEEE 754 binary64 value.  The module embeds
    [decomposeTimeSeries] and [calculateMetrics] once more, statement by
    statement as above, with the binary64 operations (round to nearest,
    ties to even) in place of the exact ones.  A hole of an array reads
    [undefined], which every arithmetic use turns into [NaN]. *)

Module Float64.

Local Open Scope float_scope.

(** A length or an index as a number; exact for every integer below [2^53]. *)
Definition of_nat (n : nat) : float := PrimFloat.of_uint63 (Uint63.of_Z (Z.of_nat n)).

Definition len {A : Type} (a : list A) : float := of_nat (length a).

Definition get (a : list float) (i : nat) : float := nth i a nan.

Fixpoint set (a : list float) (i : nat) (v : float) : list float :=
  match i, a with
  | O, [] => [v]
  | O, _ :: t => v :: t
  | S j, [] => nan :: set [] j v
  | S j, h :: t => h :: set t j v
  end.

Definition new_Array (n : nat) : list float := repeat nan n.

Definition get_rem (a : list float) (k : option nat) : float :=
  match k with
  | Some i => get a i
  | None => nan
  end.

(** [Math.max(x, y)]: [NaN] if either argument is; of a negative and a
    positive zero, the positive one. *)
Definition Math_max (x y : float) : float :=
  if (PrimFloat.is_nan x || PrimFloat.is_nan y)%bool then nan
  else if x <? y then y
  else if y <? x then x
  else if PrimFloat.is_zero x then x + y
  else x.

Record SeasonalComponents : Type := mkComponents {
  trend : list float;
  seasonal : list float;
  residual : list float
}.

Definition Buckets : Type := option nat -> option (list float).

Definition bucket_push (b : Buckets) (k : option nat) (v : float) : Buckets :=
  fun k' =>
    if Advanced.key_eqb k k'
    then Some (match b k with Some l => l | None => [] end ++ [v])
    else b k'.

Definition decomposeTimeSeries (data : list float) (seasonLength : nat)
  : SeasonalComponents :=
  let n := length data in
  let trend := new_Array n in
  let seasonal := new_Array n in
  let residual := new_Array n in
  let halfSeason := (seasonLength / 2)%nat in
  let trend :=
    for_loop 0 n
      (fun i trend =>
         let start := (i - halfSeason)%nat in
         let stop := Nat.min n (i + halfSeason + 1) in
         let slice := slice data start stop in
         set trend i (reduce (fun sum val => sum + val) slice 0 / len slice))
      trend in
  let seasonalAvg : Buckets :=
    for_loop 0 n
      (fun i seasonalAvg =>
         let seasonIndex := rem i seasonLength in
         bucket_push seasonalAvg seasonIndex (get data i - get trend i))
      (fun _ => None) in
  let seasonalPattern := new_Array seasonLength in
  let seasonalPattern :=
    for_loop 0 seasonLength
      (fun i seasonalPattern =>
         set seasonalPattern i
           match seasonalAvg (Some i) with
           | Some bucket => reduce (fun sum val => sum + val) bucket 0 / len bucket
           | None => 0
           end)
      seasonalPattern in
  let out :=
    for_loop 0 n
      (fun i out =>
         let seasonal := set (fst out) i (get_rem seasonalPattern (rem i seasonLength)) in
         let residual := set (snd out) i (get data i - get trend i - get seasonal i) in
         (seasonal, residual))
      (seasonal, residual) in
  mkComponents trend (fst out) (snd out).

Record ModelPerformanceMetrics : Type := mkMetrics {
  mae : float;
  mape : float;
  rmse : float;
  r2 : float;
  aic : float;
  accuracy : float;
  precision : float;
  recall : float;
  f1Score : float
}.

Record Errors : Type := mkErrors { e_mae : float; e_mse : float; e_mape : float }.

Section ImplementationApproximated.

(** [Math.pow] and [Math.log], whose results the language leaves to the
    implementation. *)
Variable Math_pow : float -> float -> float.
Variable Math_log : float -> float.

Definition calculateMetrics (actual predicted : list float) : ModelPerformanceMetrics :=
  let n := Nat.min (length actual) (length predicted) in
  if (n =? 0)%nat
  then mkMetrics 0 0 0 0 0 0.5 0.5 0.5 0.5
  else
    let sums :=
      for_loop 0 n
        (fun i acc =>
           let error := PrimFloat.abs (get actual i - get predicted i) in
           mkErrors (e_mae acc + error)
                    (e_mse acc + error * error)
                    (if negb (get actual i =? 0)
                     then e_mape acc + PrimFloat.abs (error / get actual i)
                     else e_mape acc))
        (mkErrors 0 0 0) in
    let mae := e_mae sums / of_nat n in
    let mse := e_mse sums / of_nat n in
    let mape := e_mape sums / of_nat n in
    let rmse := PrimFloat.sqrt mse in
    let actualMean := reduce (fun sum val => sum + val) actual 0 / of_nat n in
    let totalSumSquares :=
      reduce (fun sum val => sum + Math_pow (val - actualMean) 2) actual 0 in
    let residualSumSquares :=
      reducei (fun sum val i => sum + Math_pow (val - get predicted i) 2) actual 0 in
    let r2 :=
      if totalSumSquares =? 0 then 1
      else 1 - residualSumSquares / totalSumSquares in
    let aic := of_nat n * Math_log mse + 2 * 3 in
    let accuracy := Math_max 0 (1 - mape) in
    let precision := Math_max 0.3 accuracy in
    let recall := Math_max 0.3 accuracy in
    let f1Score := 2 * (precision * recall) / (precision + recall) in
    mkMetrics mae mape rmse r2 aic accuracy precision recall f1Score.

End ImplementationApproximated.

(** The round-trip error at an index: [|trend[i] + seasonal[i] +
    residual[i] - data[i]|]. *)
Definition round_trip_error (data : list float) (seasonLength i : nat) : float :=
  let c := decomposeTimeSeries data seasonLength in
  PrimFloat.abs (get (trend c) i + get (seasonal c) i + get (residual c) i - get data i).

(** The tolerance of the round trip, [1e-9]. *)
Definition tolerance : float := 1e-9.

(** A series of nine eight-digit quantities. *)
Definition eight_digit_series : list float :=
  [99999999; 10000000; 10000000; 10000000; 10000000; 10000000; 10000000; 10000000;
   10000000].

End Float64.

(** ** Statistics of a series

    The services compute the mean, the population variance and the
    population standard deviation of a series inline, by the same three
    expressions each time; they are named here to state properties of
    the functions that contain them. *)

Definition series_mean (values : list num) : num :=
  (reduce (fun sum val => sum + val) values (Fin 0) / len values)%num.

Definition series_variance (values : list num) : num :=
  (reduce (fun sum val => sum + Math_pow2 (val - series_mean values)) values (Fin 0)
   / len values)%num.

Definition series_stdDev (values : list num) : num :=
  Math_sqrt (series_variance values).

(** The score [detectAnomalies] gives the quantity [q] of a series. *)
Definition zScore_of (values : list num) (q : num) : num :=
  Math_abs ((q - series_mean values) / series_stdDev values)%num.

(** The same statistics of a series of reals, as real numbers. *)
Definition Rsum (rs : list R) : R := fold_left Rplus rs 0%R.

Definition Rlen (rs : list R) : R := IZR (Z.of_nat (length rs)).

Definition Rmean (rs : list R) : R := (Rsum rs / Rlen rs)%R.

Definition Rvariance (rs : list R) : R :=
  (fold_left (fun s v => s + (v + - Rmean rs) * (v + - Rmean rs)) rs 0 / Rlen rs)%R.

(** A number that is not negative: a real [0 <= a], [+Infinity], or [NaN]
    (which no comparison finds negative). *)
Definition not_negative (x : num) : Prop :=
  match x with
  | Fin a => (0 <= a)%R
  | PInf | NaN => True
  | NInf => False
  end.

(** A finite number. *)
Definition finite (x : num) : Prop := exists r, x = Fin r.

(** The observations of the item [key] in a batch, in batch order. *)
Definition observations_of (key : string) (salesData : list SalesData) : list SalesData :=
  filter (fun sale => String.eqb key (itemName sale)) salesData.

(** The groups of a batch: one per item, holding that item's observations. *)
Definition grouped (groups : ItemGroups) (salesData : list SalesData) : Prop :=
  NoDup (map fst groups) /\
  (forall key sales, In (key, sales) groups -> sales = observations_of key salesData) /\
  (forall sale, In sale salesData -> In (itemName sale) (map fst groups)).

(** A confidence: a real of the unit interval, or [NaN]. *)
Definition unit_or_NaN (x : num) : Prop :=
  match x with
  | Fin a => (0 <= a <= 1)%R
  | NaN => True
  | PInf | NInf => False
  end.

(** The longest prediction sequence of a list of models. *)
Definition longest_prediction (models : list Advanced.ForecastModel) : nat :=
  fold_right Nat.max 0%nat (map (fun m => length (Advanced.predictions m)) models).

(** The accuracy by which the best model is picked: [accuracy || 0]. *)
Definition accuracy_or_zero (m : Advanced.ForecastModel) : num :=
  (Advanced.accuracy (Advanced.metrics m) || Fin 0)%num.

(** The bundle the pipeline pushes for the item [key] with the
    observations [sales], given the two models that draw random numbers
    and the external factors drawn after them. *)
Definition bundle (options : Advanced.AdvancedForecastOptions) (key : string)
  (sales : list SalesData) (m_arima m_neural : Advanced.ForecastModel)
  (externalFactorsImpact : list (string * num)) : Advanced.AdvancedForecastResult :=
  let itemSales := sort_by_date sales in
  let quantities := map quantity itemSales in
  let m_smoothing :=
    Advanced.calculateExponentialSmoothing quantities (Fin (3/10)) (Fin (3/10)) (Fin (3/10)) 7 in
  let models := [m_arima; m_smoothing; m_neural] in
  let ensemble := Advanced.createEnsemble models (Advanced.ensembleMethod options) in
  Advanced.mkResult key (first_category itemSales) models
    (Advanced.pick_best models m_arima)
    (Advanced.e_predictions ensemble) (Advanced.e_confidence ensemble)
    (Advanced.horizon options) externalFactorsImpact
    (Advanced.decomposeTimeSeries quantities 7)
    (slice (Advanced.detectAnomalies itemSales (Fin (5/2))) 0 5).

(** The quantities of a group, in date order. *)
Definition sorted_quantities (sales : list SalesData) : list num :=
  map quantity (sort_by_date sales).

(** An anomaly is not followed by one of a higher score. *)
Definition not_below (a b : Advanced.Anomaly) : Prop :=
  (Advanced.anomalyScore a <? Advanced.anomalyScore b)%num = false.

(** The index [i] as a real number, and the sum of [f 0 .. f (n - 1)]. *)
Definition idx (i : nat) : R := IZR (Z.of_nat i).



(** A confidence score of the basic forecaster: a real between 0.3 and
    0.98, or [NaN]. *)
Definition confidence_or_NaN (x : num) : Prop :=
  match x with
  | Fin a => (3/10 <= a <= 98/100)%R
  | NaN => True
  | PInf | NInf => False
  end.

(** The gap between two dates, if they are more than a day and a half
    (129 600 000 ms) apart. *)
Definition gap_between (d1 d2 : Z) : list ClientLib.Gap :=
  if (129600000 <? d2 - d1)%Z then [ClientLib.mkGap d1 d2] else [].

(** The gaps between the consecutive dates of a list. *)
Fixpoint consecutive_gaps (dates : list Z) : list ClientLib.Gap :=
  match dates with
  | [] => []
  | d1 :: rest =>
      match rest with
      | [] => []
      | d2 :: _ => gap_between d1 d2 ++ consecutive_gaps rest
      end
  end.

(** Two observations in date order. *)
Definition date_ordered (a b : SalesData) : Prop := (date a <= date b)%Z.

(** ** Example inputs *)

(** Five observations of one item with the quantities 10, 10, 10, 10, 100. *)
Definition outlier_quantities : list R := [10; 10; 10; 10; 100]%R.

Definition outlier_series : list SalesData :=
  mapi (fun q i => mkSalesData "X" "Y" (Fin q) (Fin 0) (Z.of_nat i)) outlier_quantities.

(** Ten daily observations of item "X" in category "Y", each of quantity 50. *)
Definition flat_quantities : list R := repeat 50%R 10.

Definition flat_series : list SalesData :=
  mapi (fun q i => mkSalesData "X" "Y" (Fin q) (Fin 0) (Z.of_nat i * 86400000)) flat_quantities.

(** Two one-step models: the first with accuracy 0 (its metrics are those
    of predicting 20 where 10 was observed), the second with accuracy 1
    (those of predicting the observed 20). *)
Definition model_accuracy_0 : Advanced.ForecastModel :=
  Advanced.mkModel "Simple Exponential Smoothing" Advanced.exponential_smoothing
    [Fin 10] [Fin (7/10)]
    (Advanced.mkMetrics (Fin 10) (Fin 1) (Fin 10) (Fin 1) (Fin (ln 100 + 6))
       (Fin 0) (Fin (3/10)) (Fin (3/10)) (Fin (3/10)))
    [("alpha"%string, Fin (3/10))].

Definition model_accuracy_1 : Advanced.ForecastModel :=
  Advanced.mkModel "Neural Network" Advanced.neural_network
    [Fin 20] [Fin (8/10)]
    (Advanced.mkMetrics (Fin 0) (Fin 0) (Fin 0) (Fin 1) NInf
       (Fin 1) (Fin 1) (Fin 1) (Fin 1))
    [("windowSize"%string, Fin 5); ("learningRate"%string, Fin (1/100));
     ("epochs"%string, Fin 100)].

(** Three observations of quantity 0. *)
Definition zero_quantities : list R := [0; 0; 0]%R.

(** A series of two values. *)
Definition two_values : list num := [Fin 1; Fin 2].

(** Draws of the random number generator that are all zero. *)
Definition zero_draws : Random := fun _ => 0%R.

Definition default_options : Advanced.AdvancedForecastOptions :=
  Advanced.mkOptions daily (Fin 7) None.

(** A clock that reads a Sunday, and one that reads a Tuesday. *)
Definition sunday : JSDate := mkDate 1794096000000 0.
Definition tuesday : JSDate := mkDate 1794268800000 2.

(** The rounded products of 50 and the seasonal factors, Sunday to Saturday. *)
Definition flat_predictions : list num :=
  [Fin 40; Fin 45; Fin 50; Fin 55; Fin 60; Fin 70; Fin 65].

(** Fourteen daily observations of item "X", alternating 20 and 30. *)
Definition fortnight_quantities : list R :=
  [20; 30; 20; 30; 20; 30; 20; 30; 20; 30; 20; 30; 20; 30]%R.

Definition fortnight_series : list SalesData :=
  mapi (fun q i => mkSalesData "X" "Y" (Fin q) (Fin 0) (Z.of_nat i * 86400000))
       fortnight_quantities.

(** * Properties *)

Open Scope num_scope.

(** ** Evaluation of the comparisons on concrete reals *)

Lemma Rltb_true (a b : R) : (a < b)%R -> Rltb a b = true.
Proof. intros H; unfold Rltb; destruct (Rlt_dec a b); [reflexivity | contradiction]. Qed.

Lemma Rltb_false (a b : R) : (b <= a)%R -> Rltb a b = false.
Proof. intros H; unfold Rltb; destruct (Rlt_dec a b); [lra | reflexivity]. Qed.

Lemma Reqb_true (a b : R) : a = b -> Reqb a b = true.
Proof. intros H; unfold Reqb; destruct (Req_dec_T a b); [reflexivity | contradiction]. Qed.

Lemma Reqb_false (a b : R) : a <> b -> Reqb a b = false.
Proof. intros H; unfold Reqb; destruct (Req_dec_T a b); [contradiction | reflexivity]. Qed.


Lemma Reqb_spec (a b : R) : Reqb a b = true <-> a = b.
Proof. unfold Reqb; destruct (Req_dec_T a b); split; intros; auto; discriminate. Qed.

(** ** Arithmetic on finite numbers *)

Lemma div_Fin (a b : R) : b <> 0%R -> Fin a / Fin b = Fin (a / b).
Proof. intros H; cbn; rewrite Reqb_false by assumption; reflexivity. Qed.

Lemma div_zero_zero : Fin 0 / Fin 0 = NaN.
Proof. cbn; unfold signed_inf; rewrite !Reqb_true by reflexivity; reflexivity. Qed.

Lemma sqrt_Fin (a : R) : (0 <= a)%R -> Math_sqrt (Fin a) = Fin (sqrt a).
Proof. intros H; cbn; rewrite Rltb_false by assumption; reflexivity. Qed.

Lemma or_else_Fin (a : R) (y : num) : a <> 0%R -> (Fin a || y) = Fin a.
Proof. intros H; unfold or_else; cbn; rewrite Reqb_false by assumption; reflexivity. Qed.

Lemma or_else_zero (y : num) : (Fin 0 || y) = y.
Proof. unfold or_else; cbn; rewrite Reqb_true by reflexivity; reflexivity. Qed.

Lemma lt_Fin_true (a b : R) : (a < b)%R -> (Fin a <? Fin b) = true.
Proof. intros; cbn; apply Rltb_true; assumption. Qed.

Lemma lt_Fin_false (a b : R) : (b <= a)%R -> (Fin a <? Fin b) = false.
Proof. intros; cbn; apply Rltb_false; assumption. Qed.

Lemma max_Fin_l (a b : R) : (b <= a)%R -> Math_max (Fin a) (Fin b) = Fin a.
Proof. intros; cbn; rewrite Rltb_false by assumption; reflexivity. Qed.

Lemma max_Fin_r (a b : R) : (a <= b)%R -> Math_max (Fin a) (Fin b) = Fin b.
Proof.
  intros H; cbn; unfold Rltb; destruct (Rlt_dec a b); [reflexivity | f_equal; lra].
Qed.

Lemma min_Fin_l (a b : R) : (a <= b)%R -> Math_min (Fin a) (Fin b) = Fin a.
Proof. intros; cbn; rewrite Rltb_false by assumption; reflexivity. Qed.

Lemma min_Fin_r (a b : R) : (b <= a)%R -> Math_min (Fin a) (Fin b) = Fin b.
Proof.
  intros H; cbn; unfold Rltb; destruct (Rlt_dec b a); [reflexivity | f_equal; lra].
Qed.

(** ** Sums over series of finite numbers *)

(** The sum and the sum of squared deviations of a series of reals. *)
Lemma sum_Fin (rs : list R) (a : R) :
  reduce (fun sum val => sum + val) (map Fin rs) (Fin a) = Fin (fold_left Rplus rs a).
Proof.
  unfold reduce; revert a; induction rs as [|r rs IH]; intros a; cbn; [reflexivity|].
  apply IH.
Qed.

Lemma sumsq_Fin (rs : list R) (m a : R) :
  reduce (fun sum val => sum + Math_pow2 (val - Fin m)) (map Fin rs) (Fin a)
  = Fin (fold_left (fun s v => s + (v + - m) * (v + - m))%R rs a).
Proof.
  unfold reduce; revert a; induction rs as [|r rs IH]; intros a; cbn; [reflexivity|].
  apply IH.
Qed.

Lemma Rlen_pos (rs : list R) : rs <> [] -> (0 < Rlen rs)%R.
Proof.
  intros H; unfold Rlen; apply IZR_lt; destruct rs; [contradiction | cbn [length]; lia].
Qed.

Lemma len_map_Fin (rs : list R) : len (map Fin rs) = Fin (Rlen rs).
Proof. unfold len, of_nat, of_Z, Rlen; rewrite length_map; reflexivity. Qed.

Lemma series_mean_Fin (rs : list R) :
  rs <> [] -> series_mean (map Fin rs) = Fin (Rmean rs).
Proof.
  intros H; unfold series_mean; rewrite sum_Fin, len_map_Fin, div_Fin; [reflexivity|].
  apply Rlen_pos in H; lra.
Qed.

Lemma series_variance_Fin (rs : list R) :
  rs <> [] -> series_variance (map Fin rs) = Fin (Rvariance rs).
Proof.
  intros H; unfold series_variance.
  rewrite series_mean_Fin by assumption.
  rewrite sumsq_Fin, len_map_Fin, div_Fin; [reflexivity|].
  apply Rlen_pos in H; lra.
Qed.

Lemma sumsq_nonneg (rs : list R) (m a : R) :
  (0 <= a)%R -> (a <= fold_left (fun s v => s + (v + - m) * (v + - m)) rs a)%R.
Proof.
  revert a; induction rs as [|r rs IH]; intros a Ha; cbn [fold_left]; [lra|].
  assert (Hsq : (0 <= (r + - m) * (r + - m))%R) by apply Rle_0_sqr.
  assert (Ha' : (0 <= a + (r + - m) * (r + - m))%R) by lra.
  apply IH in Ha'; lra.
Qed.

Lemma Rvariance_nonneg (rs : list R) : rs <> [] -> (0 <= Rvariance rs)%R.
Proof.
  intros H; unfold Rvariance. apply Rlen_pos in H.
  assert (Hs := sumsq_nonneg rs (Rmean rs) 0 (Rle_refl 0)).
  apply Rmult_le_pos; [assumption | left; apply Rinv_0_lt_compat; assumption].
Qed.

Lemma series_stdDev_Fin (rs : list R) :
  rs <> [] -> series_stdDev (map Fin rs) = Fin (sqrt (Rvariance rs)).
Proof.
  intros H; unfold series_stdDev; rewrite series_variance_Fin by assumption.
  apply sqrt_Fin, Rvariance_nonneg; assumption.
Qed.

(** ** Sorting *)

Lemma sort_insert_In {A : Type} (cmp : A -> A -> num) (x y : A) (l : list A) :
  In y (sort_insert cmp x l) <-> y = x \/ In y l.
Proof.
  induction l as [|z l IH]; cbn [sort_insert].
  - cbn; intuition congruence.
  - destruct (cmp x z >? Fin 0); cbn [In]; rewrite ?IH; intuition (subst; auto).
Qed.

Lemma sort_In {A : Type} (cmp : A -> A -> num) (y : A) (l : list A) :
  In y (sort cmp l) <-> In y l.
Proof.
  unfold sort; induction l as [|x l IH]; cbn [fold_right In]; [tauto|].
  rewrite sort_insert_In, IH; intuition (subst; auto).
Qed.

Lemma sort_insert_length {A : Type} (cmp : A -> A -> num) (x : A) (l : list A) :
  length (sort_insert cmp x l) = S (length l).
Proof.
  induction l as [|z l IH]; cbn [sort_insert]; [reflexivity|].
  destruct (cmp x z >? Fin 0); cbn [length]; [rewrite IH|]; reflexivity.
Qed.

Lemma sort_length {A : Type} (cmp : A -> A -> num) (l : list A) :
  length (sort cmp l) = length l.
Proof.
  unfold sort; induction l as [|x l IH]; cbn [fold_right]; [reflexivity|].
  rewrite sort_insert_length, IH; reflexivity.
Qed.

(** ** Anomaly detection *)

(** The loop of [detectAnomalies] keeps, in order, the observations whose
    score exceeds the threshold. *)
Lemma push_if_filter {A B : Type} (c : A -> bool) (f : A -> B) (l : list A) (acc : list B) :
  fold_left (fun acc x => if c x then acc ++ [f x] else acc) l acc
  = acc ++ map f (filter c l).
Proof.
  revert acc; induction l as [|x l IH]; intros acc; cbn.
  - rewrite app_nil_r; reflexivity.
  - rewrite IH; destruct (c x); cbn; [rewrite <- app_assoc|]; reflexivity.
Qed.

Lemma detectAnomalies_filter (data : list SalesData) (threshold : num) :
  Advanced.detectAnomalies data threshold
  = sort (fun a b => Advanced.anomalyScore b - Advanced.anomalyScore a)
      (map (fun item =>
              Advanced.mkAnomaly (date item) (quantity item)
                (zScore_of (map quantity data) (quantity item)))
           (filter (fun item => zScore_of (map quantity data) (quantity item) >? threshold)
                   data)).
Proof.
  unfold Advanced.detectAnomalies.
  rewrite (push_if_filter
             (fun item => zScore_of (map quantity data) (quantity item) >? threshold)
             (fun item => Advanced.mkAnomaly (date item) (quantity item)
                            (zScore_of (map quantity data) (quantity item)))).
  reflexivity.
Qed.

Lemma outlier_mean : Rmean outlier_quantities = 28%R.
Proof. unfold Rmean, Rsum, Rlen; cbn; lra. Qed.

Lemma outlier_variance : Rvariance outlier_quantities = (36 * 36)%R.
Proof.
  unfold Rvariance; rewrite outlier_mean; unfold Rlen; cbn; lra.
Qed.

Lemma outlier_zScore (q : R) :
  zScore_of (map Fin outlier_quantities) (Fin q) = Fin (Rabs ((q + - 28) / 36)).
Proof.
  unfold zScore_of.
  rewrite series_mean_Fin, series_stdDev_Fin by discriminate.
  rewrite outlier_mean, outlier_variance, sqrt_square by lra.
  cbn [sub neg add]; rewrite div_Fin by lra; reflexivity.
Qed.

Lemma outlier_zScore_10 : zScore_of (map Fin outlier_quantities) (Fin 10) = Fin (1/2).
Proof.
  rewrite outlier_zScore; f_equal.
  replace ((10 + - 28) / 36)%R with (- (1/2))%R by lra.
  rewrite Rabs_Ropp, Rabs_pos_eq; lra.
Qed.

Lemma outlier_zScore_100 : zScore_of (map Fin outlier_quantities) (Fin 100) = Fin 2.
Proof.
  rewrite outlier_zScore; f_equal.
  replace ((100 + - 28) / 36)%R with 2%R by lra.
  apply Rabs_pos_eq; lra.
Qed.

(** A series with the quantities 10, 10, 10, 10, 100, whatever its other fields. *)
Lemma outlier_data_inv (data : list SalesData) :
  map quantity data = map Fin outlier_quantities ->
  exists s1 s2 s3 s4 s5,
    data = [s1; s2; s3; s4; s5] /\
    quantity s1 = Fin 10 /\ quantity s2 = Fin 10 /\ quantity s3 = Fin 10 /\
    quantity s4 = Fin 10 /\ quantity s5 = Fin 100.
Proof.
  intros H.
  destruct data as [|s1 [|s2 [|s3 [|s4 [|s5 [|s6 data]]]]]]; try discriminate H.
  injection H as H1 H2 H3 H4 H5.
  exists s1, s2, s3, s4, s5; auto 10.
Qed.

Lemma outlier_default_threshold (data : list SalesData) :
  map quantity data = map Fin outlier_quantities ->
  Advanced.detectAnomalies data (Fin (5/2)) = [].
Proof.
  intros H; rewrite detectAnomalies_filter, H.
  destruct (outlier_data_inv data H) as (s1 & s2 & s3 & s4 & s5 & -> & H1 & H2 & H3 & H4 & H5).
  cbn [filter]; rewrite H1, H2, H3, H4, H5, outlier_zScore_10, outlier_zScore_100.
  unfold gt; rewrite !lt_Fin_false by lra; reflexivity.
Qed.

Lemma outlier_low_threshold (data : list SalesData) (t : R) :
  map quantity data = map Fin outlier_quantities ->
  (1/2 <= t < 2)%R ->
  exists item,
    nth_error data 4 = Some item /\
    Advanced.detectAnomalies data (Fin t)
    = [Advanced.mkAnomaly (date item) (Fin 100) (Fin 2)].
Proof.
  intros H Ht; rewrite detectAnomalies_filter, H.
  destruct (outlier_data_inv data H) as (s1 & s2 & s3 & s4 & s5 & -> & H1 & H2 & H3 & H4 & H5).
  exists s5; split; [reflexivity|].
  cbn [filter]; rewrite H1, H2, H3, H4, H5, outlier_zScore_10, outlier_zScore_100.
  unfold gt; rewrite !lt_Fin_false by lra; rewrite lt_Fin_true by lra.
  cbn [map]; rewrite H5, outlier_zScore_100; reflexivity.
Qed.

Lemma outlier_series_quantities : map quantity outlier_series = map Fin outlier_quantities.
Proof. reflexivity. Qed.

(** ** Finite results come from finite arguments *)

Lemma signed_inf_not_Fin (a s : R) : signed_inf a <> Fin s.
Proof. unfold signed_inf; destruct (Reqb a 0), (Rltb 0 a); discriminate. Qed.

Lemma add_Fin_inv (x y : num) (s : R) :
  x + y = Fin s -> exists a b, x = Fin a /\ y = Fin b /\ s = (a + b)%R.
Proof.
  destruct x as [a| | |], y as [b| | |]; cbn; intros H; try discriminate H.
  injection H as <-; eauto.
Qed.

Lemma sub_Fin_inv (x y : num) (s : R) :
  x - y = Fin s -> exists a b, x = Fin a /\ y = Fin b /\ s = (a + - b)%R.
Proof.
  destruct x as [a| | |], y as [b| | |]; cbn; intros H; try discriminate H.
  injection H as <-; eauto.
Qed.

Lemma pow2_Fin_inv (z : num) (b : R) :
  Math_pow2 z = Fin b -> exists d, z = Fin d /\ b = (d * d)%R.
Proof.
  destruct z as [d| | |]; cbn; intros H; try discriminate H.
  injection H as <-; eauto.
Qed.

Lemma div_Fin_inv (x : num) (b v : R) :
  x / Fin b = Fin v -> exists a, x = Fin a /\ b <> 0%R /\ v = (a / b)%R.
Proof.
  destruct x as [a| | |]; cbn; intros H; try discriminate H.
  - destruct (Reqb b 0) eqn:E.
    + exfalso; exact (signed_inf_not_Fin _ _ H).
    + injection H as <-; exists a; repeat split.
      intros ->; rewrite Reqb_true in E by reflexivity; discriminate.
  - destruct (Rltb b 0); discriminate.
  - destruct (Rltb b 0); discriminate.
Qed.

Lemma sqrt_Fin_inv (x : num) (s : R) :
  Math_sqrt x = Fin s -> exists v, x = Fin v /\ (0 <= v)%R /\ s = sqrt v.
Proof.
  destruct x as [v| | |]; cbn; intros H; try discriminate H.
  unfold Rltb in H; destruct (Rlt_dec v 0); [discriminate|].
  injection H as <-; exists v; repeat split; lra.
Qed.

(** A finite sum of squared deviations bounds every deviation, all of
    them finite. *)
Lemma sumsq_Fin_inv (values : list num) (mean acc : num) (s : R) :
  reduce (fun sum val => sum + Math_pow2 (val - mean)) values acc = Fin s ->
  exists a, acc = Fin a /\ (a <= s)%R /\
    forall val, In val values ->
      exists d, val - mean = Fin d /\ (d * d <= s - a)%R.
Proof.
  unfold reduce; revert acc; induction values as [|v values IH]; intros acc H; cbn in H.
  - exists s; repeat split; [assumption | lra | intros val []].
  - destruct (IH _ H) as (a' & Ha' & Hle & Hall).
    destruct (add_Fin_inv _ _ _ Ha') as (a & b & -> & Hb & ->).
    destruct (pow2_Fin_inv _ _ Hb) as (d & Hd & ->).
    assert (Hsq : (0 <= d * d)%R) by apply Rle_0_sqr.
    exists a; repeat split; [lra|].
    intros val [<- | Hin].
    + exists d; split; [assumption | lra].
    + destruct (Hall val Hin) as (d' & Hd' & Hle'); exists d'; split; [assumption | lra].
Qed.

Lemma variance_Fin_inv (values : list num) (v : R) :
  series_variance values = Fin v ->
  forall val, In val values ->
    exists d, val - series_mean values = Fin d /\
              (d * d <= v * IZR (Z.of_nat (length values)))%R.
Proof.
  unfold series_variance, len, of_nat, of_Z; intros H val Hin.
  destruct (div_Fin_inv _ _ _ H) as (a & Ha & Hn & ->).
  destruct (sumsq_Fin_inv _ _ _ _ Ha) as (a0 & Ha0 & _ & Hall).
  injection Ha0 as <-.
  destruct (Hall val Hin) as (d & Hd & Hle); exists d; split; [assumption|].
  replace (a / IZR (Z.of_nat (length values)) * IZR (Z.of_nat (length values)))%R
    with a by (field; assumption).
  lra.
Qed.

(** Where the standard deviation of a series is zero, every deviation
    from the mean is zero. *)
Lemma zero_stdDev_deviation (values : list num) :
  series_stdDev values = Fin 0 ->
  forall val, In val values -> val - series_mean values = Fin 0.
Proof.
  intros H val Hin.
  destruct (sqrt_Fin_inv _ _ H) as (v & Hv & Hpos & Hs).
  assert (v = 0%R) as -> by (apply sqrt_eq_0; [assumption | symmetry; assumption]).
  destruct (variance_Fin_inv _ _ Hv val Hin) as (d & Hd & Hle).
  rewrite Hd; f_equal.
  assert (Hsq : (0 <= d * d)%R) by apply Rle_0_sqr.
  assert (Hz : (d * d = 0)%R) by lra.
  apply Rmult_integral in Hz; tauto.
Qed.

Lemma zero_stdDev_zScore (values : list num) (val : num) :
  series_stdDev values = Fin 0 -> In val values -> zScore_of values val = NaN.
Proof.
  intros H Hin; unfold zScore_of.
  rewrite (zero_stdDev_deviation values H val Hin), H, div_zero_zero; reflexivity.
Qed.

Lemma gt_NaN (threshold : num) : (NaN >? threshold) = false.
Proof. destruct threshold; reflexivity. Qed.

Lemma filter_none {A : Type} (c : A -> bool) (l : list A) :
  (forall x, In x l -> c x = false) -> filter c l = [].
Proof.
  induction l as [|x l IH]; intros H; cbn; [reflexivity|].
  rewrite (H x (or_introl eq_refl)); apply IH; intros y Hy; apply H; right; assumption.
Qed.

Lemma zero_stdDev_no_anomalies (data : list SalesData) (threshold : num) :
  series_stdDev (map quantity data) = Fin 0 ->
  Advanced.detectAnomalies data threshold = [].
Proof.
  intros H; rewrite detectAnomalies_filter, filter_none; [reflexivity|].
  intros item Hin.
  rewrite zero_stdDev_zScore; [apply gt_NaN | assumption | apply in_map; assumption].
Qed.

(** The score of an observation that exceeds a threshold is finite. *)
Lemma flagged_zScore_finite (values : list num) (val threshold : num) :
  In val values ->
  (zScore_of values val >? threshold) = true ->
  is_finite (zScore_of values val) = true.
Proof.
  intros Hin Hgt.
  destruct (series_stdDev values) as [s| | |] eqn:Hsd.
  - destruct (Req_dec_T s 0) as [-> | Hs].
    + rewrite (zero_stdDev_zScore values val Hsd Hin), gt_NaN in Hgt; discriminate.
    + destruct (sqrt_Fin_inv _ _ Hsd) as (v & Hv & _ & _).
      destruct (variance_Fin_inv _ _ Hv val Hin) as (d & Hd & _).
      unfold zScore_of; rewrite Hd, Hsd, div_Fin by assumption; reflexivity.
  - unfold zScore_of in *; rewrite Hsd in *.
    destruct (val - series_mean values); cbn in *; try reflexivity;
      rewrite gt_NaN in Hgt; discriminate.
  - unfold zScore_of in *; rewrite Hsd in *.
    destruct (val - series_mean values); cbn in *; try reflexivity;
      rewrite gt_NaN in Hgt; discriminate.
  - unfold zScore_of in *; rewrite Hsd in *.
    destruct (val - series_mean values); cbn in *; rewrite gt_NaN in Hgt; discriminate.
Qed.

Lemma anomaly_scores_finite (data : list SalesData) (threshold : num) (a : Advanced.Anomaly) :
  In a (Advanced.detectAnomalies data threshold) ->
  is_finite (Advanced.anomalyScore a) = true.
Proof.
  rewrite detectAnomalies_filter, sort_In, in_map_iff.
  intros (item & <- & Hin); apply filter_In in Hin as [Hin Hgt]; cbn.
  apply flagged_zScore_finite with threshold; [apply in_map; assumption | assumption].
Qed.

Lemma flat_series_quantities : map quantity flat_series = map Fin flat_quantities.
Proof. reflexivity. Qed.

Lemma flat_mean : Rmean flat_quantities = 50%R.
Proof. unfold Rmean, Rsum, Rlen; cbn; lra. Qed.

Lemma flat_variance : Rvariance flat_quantities = 0%R.
Proof. unfold Rvariance; rewrite flat_mean; unfold Rlen; cbn; lra. Qed.

Lemma flat_stdDev : series_stdDev (map quantity flat_series) = Fin 0.
Proof.
  rewrite flat_series_quantities, series_stdDev_Fin by discriminate.
  rewrite flat_variance, sqrt_0; reflexivity.
Qed.

(** Claim C4: for every series whose population standard deviation is
    zero the anomaly detector returns the empty list, and for every series
    and threshold the anomaly scores it returns are finite numbers, never
    [NaN] or an infinity. *)
Theorem C4_zero_deviation_no_anomalies :
  (forall data threshold,
      series_stdDev (map quantity data) = Fin 0 ->
      Advanced.detectAnomalies data threshold = []) /\
  (forall data threshold a,
      In a (Advanced.detectAnomalies data threshold) ->
      is_finite (Advanced.anomalyScore a) = true).
Proof.
  split.
  - exact zero_stdDev_no_anomalies.
  - exact anomaly_scores_finite.
Qed.

(** The flat series of 50s has zero deviation and no anomalies; the one
    anomaly of the outlier series under the threshold 1 has a finite score. *)
Lemma C4_zero_deviation_no_anomalies_witness :
  (series_stdDev (map quantity flat_series) = Fin 0 /\
   Advanced.detectAnomalies flat_series (Fin (5/2)) = []) /\
  (In (Advanced.mkAnomaly 4 (Fin 100) (Fin 2)) (Advanced.detectAnomalies outlier_series (Fin 1)) /\
   is_finite (Advanced.anomalyScore (Advanced.mkAnomaly 4 (Fin 100) (Fin 2))) = true).
Proof.
  assert (Hin : In (Advanced.mkAnomaly 4 (Fin 100) (Fin 2))
                   (Advanced.detectAnomalies outlier_series (Fin 1))).
  { destruct (outlier_low_threshold outlier_series 1 outlier_series_quantities)
      as (item & Hitem & ->); [lra|].
    injection Hitem as <-; left; reflexivity. }
  split; split.
  - exact flat_stdDev.
  - exact (proj1 C4_zero_deviation_no_anomalies flat_series (Fin (5/2)) flat_stdDev).
  - exact Hin.
  - exact (proj2 C4_zero_deviation_no_anomalies outlier_series (Fin 1) _ Hin).
Defined.

(** Claim C5, as the code has it: on the series 10, 10, 10, 10, 100 the
    value 100 has the highest anomaly score, which is exactly 2 (each 10
    scores 1/2); that does not exceed the default threshold 2.5, so the
    detector flags nothing; with a threshold [t], [1/2 <= t < 2], it flags
    exactly one observation, the value 100, with the score 2. *)
Theorem C5_outlier_scores (data : list SalesData) :
  map quantity data = map Fin outlier_quantities ->
  map (zScore_of (map quantity data)) (map quantity data)
  = [Fin (1/2); Fin (1/2); Fin (1/2); Fin (1/2); Fin 2] /\
  Advanced.detectAnomalies data (Fin (5/2)) = [] /\
  forall t : R, (1/2 <= t < 2)%R ->
    exists item,
      nth_error data 4 = Some item /\
      Advanced.detectAnomalies data (Fin t)
      = [Advanced.mkAnomaly (date item) (Fin 100) (Fin 2)].
Proof.
  intros H; repeat split.
  - rewrite H.
    remember (zScore_of (map Fin outlier_quantities)) as z eqn:Hz.
    cbn [map outlier_quantities]; subst z.
    rewrite outlier_zScore_10, outlier_zScore_100; reflexivity.
  - apply outlier_default_threshold; assumption.
  - intros t Ht; apply outlier_low_threshold; assumption.
Qed.

(** The outlier series under the default threshold. *)
Lemma C5_outlier_scores_witness :
  map quantity outlier_series = map Fin outlier_quantities /\
  Advanced.detectAnomalies outlier_series (Fin (5/2)) = [].
Proof.
  split; [reflexivity|].
  exact (proj1 (proj2 (C5_outlier_scores outlier_series eq_refl))).
Defined.

(** Claim C5, as stated, fails: with the default threshold the detector
    does not flag the value 100 of the series 10, 10, 10, 10, 100. *)
Lemma C5_default_threshold_flags_nothing :
  ~ exists a, Advanced.detectAnomalies outlier_series (Fin (5/2)) = [a] /\
              Advanced.value a = Fin 100.
Proof.
  rewrite (outlier_default_threshold outlier_series outlier_series_quantities).
  intros (a & H & _); discriminate H.
Qed.

(** ** Ensemble combination *)

(** Claim C1, evaluated where it fails: with the [weighted] policy a model
    of accuracy 0 (predicting 10 with confidence 0.7) combined with a model
    of accuracy 1 (predicting 20 with confidence 0.8) does not give the
    prediction 20 and the confidence 0.8 of the second model: the first
    model weighs 1/2, and the result is 50/3 with confidence 23/30. *)
Theorem C1_weighted_accuracy_zero :
  Advanced.createEnsemble [model_accuracy_0; model_accuracy_1] (Some Advanced.weighted)
  = Advanced.mkEnsemble [Fin (50/3)] [Fin (23/30)].
Proof.
  unfold Advanced.createEnsemble, for_loop.
  cbn -[add mul div or_else gt Math_max Math_min].
  rewrite or_else_zero, or_else_Fin by lra.
  cbn [add mul]. unfold gt. rewrite lt_Fin_true by lra.
  cbn [Advanced.ensemblePred Advanced.ensembleConf Advanced.totalWeight].
  rewrite !div_Fin by lra.
  rewrite max_Fin_r by lra. rewrite (max_Fin_r 0) by lra. rewrite min_Fin_r by lra.
  f_equal; (f_equal; f_equal; lra).
Qed.

(** ** Confidence *)

Lemma clamp_range (x : R) :
  exists c, Math_min (Fin (98/100)) (Math_max (Fin (3/10)) (Fin x)) = Fin c /\
            (3/10 <= c <= 98/100)%R.
Proof.
  destruct (Rle_lt_dec x (3/10)) as [H | H].
  - rewrite max_Fin_l by assumption. rewrite min_Fin_r by lra.
    exists (3/10)%R; split; [reflexivity | lra].
  - rewrite max_Fin_r by lra.
    destruct (Rle_lt_dec x (98/100)) as [H' | H'].
    + rewrite min_Fin_r by assumption. exists x; split; [reflexivity | lra].
    + rewrite min_Fin_l by lra. exists (98/100)%R; split; [reflexivity | lra].
Qed.

Lemma client_confidence_unfold (data : list num) (prediction : num) :
  Client.calculateConfidence data prediction
  = if (length data =? 0)%nat then Fin (1/2)
    else
      let mean := series_mean data in
      let stdDev := series_stdDev data in
      let coefficientOfVariation :=
        if strict_eq mean (Fin 0) then Fin 1 else stdDev / mean in
      let baseConfidence := Math_max (Fin (3/10)) (Fin 1 - coefficientOfVariation) in
      let predictionDeviation := Math_abs (prediction - mean) / (stdDev || Fin 1) in
      Math_min (Fin (98/100))
        (Math_max (Fin (3/10))
           (baseConfidence * Math_exp (neg predictionDeviation / Fin 2))).
Proof. reflexivity. Qed.

Lemma server_confidence_unfold (data : list num) (prediction : num) :
  Basic.calculateConfidence data prediction
  = if (length data =? 0)%nat then Fin (1/2)
    else
      let mean := series_mean data in
      let stdDev := series_stdDev data in
      let coefficientOfVariation := stdDev / mean in
      let baseConfidence := Math_max (Fin (3/10)) (Fin 1 - coefficientOfVariation) in
      let predictionDeviation := Math_abs (prediction - mean) / (stdDev || Fin 1) in
      Math_min (Fin (98/100))
        (Math_max (Fin (3/10))
           (baseConfidence * Math_exp (neg predictionDeviation / Fin 2))).
Proof. reflexivity. Qed.

(** The deviation penalty is a finite number. *)
Lemma penalty_Fin (p m sd : R) :
  (0 <= sd)%R ->
  exists e, Math_exp (neg (Math_abs (Fin p - Fin m) / (Fin sd || Fin 1)) / Fin 2) = Fin e.
Proof.
  intros Hsd. destruct (Req_dec_T sd 0) as [-> | Hne].
  - rewrite or_else_zero. cbn [sub neg add Math_abs]. rewrite div_Fin by lra.
    cbn [neg]. rewrite div_Fin by lra. cbn; eauto.
  - rewrite or_else_Fin by assumption. cbn [sub neg add Math_abs]. rewrite div_Fin by lra.
    cbn [neg]. rewrite div_Fin by lra. cbn; eauto.
Qed.

(** The base confidence is a finite number, once the coefficient of
    variation is finite or [+Infinity]. *)
Lemma base_Fin (cv : R) : exists b, Math_max (Fin (3/10)) (Fin 1 - Fin cv) = Fin b.
Proof.
  cbn [sub neg add].
  destruct (Rle_lt_dec (1 + - cv) (3/10)).
  - rewrite max_Fin_l by assumption; eauto.
  - rewrite max_Fin_r by lra; eauto.
Qed.

Lemma client_confidence_range (rs : list R) (p : R) :
  exists c, Client.calculateConfidence (map Fin rs) (Fin p) = Fin c /\
            (3/10 <= c <= 98/100)%R.
Proof.
  rewrite client_confidence_unfold.
  destruct rs as [|r rs].
  - cbn [map length Nat.eqb]. exists (1/2)%R; split; [reflexivity | lra].
  - set (xs := r :: rs). assert (Hne : xs <> []) by discriminate.
    replace (length (map Fin xs) =? 0)%nat with false by reflexivity.
    cbv zeta.
    rewrite series_mean_Fin, series_stdDev_Fin by assumption.
    destruct (penalty_Fin p (Rmean xs) (sqrt (Rvariance xs)) (sqrt_pos _)) as (e & ->).
    assert (Hb : exists b,
               Math_max (Fin (3/10))
                 (Fin 1 - (if strict_eq (Fin (Rmean xs)) (Fin 0) then Fin 1
                           else Fin (sqrt (Rvariance xs)) / Fin (Rmean xs))) = Fin b).
    { cbn [strict_eq]. destruct (Reqb (Rmean xs) 0) eqn:E.
      - apply base_Fin.
      - rewrite div_Fin; [apply base_Fin|].
        intros H; rewrite Reqb_true in E by assumption; discriminate. }
    destruct Hb as (b & ->). cbn [mul]. apply clamp_range.
Qed.

(** The server-side confidence of a series whose mean and variance are
    both zero: the coefficient of variation is [0 / 0]. *)
Lemma server_confidence_degenerate (rs : list R) (p : R) :
  rs <> [] -> Rmean rs = 0%R -> Rvariance rs = 0%R ->
  Basic.calculateConfidence (map Fin rs) (Fin p) = NaN.
Proof.
  intros Hne Hm Hv. rewrite server_confidence_unfold.
  destruct rs as [|r rs]; [contradiction|].
  set (xs := r :: rs) in *.
  replace (length (map Fin xs) =? 0)%nat with false by reflexivity.
  cbv zeta.
  rewrite series_mean_Fin, series_stdDev_Fin by assumption.
  rewrite Hm, Hv, sqrt_0, div_zero_zero. reflexivity.
Qed.

(** Away from that case the server-side confidence lies in the interval. *)
Lemma server_confidence_range (rs : list R) (p : R) :
  Rmean rs <> 0%R \/ Rvariance rs <> 0%R ->
  exists c, Basic.calculateConfidence (map Fin rs) (Fin p) = Fin c /\
            (3/10 <= c <= 98/100)%R.
Proof.
  intros Hnz. rewrite server_confidence_unfold.
  destruct rs as [|r rs].
  - cbn [map length Nat.eqb]. exists (1/2)%R; split; [reflexivity | lra].
  - set (xs := r :: rs) in *. assert (Hne : xs <> []) by discriminate.
    replace (length (map Fin xs) =? 0)%nat with false by reflexivity.
    cbv zeta.
    rewrite series_mean_Fin, series_stdDev_Fin by assumption.
    destruct (penalty_Fin p (Rmean xs) (sqrt (Rvariance xs)) (sqrt_pos _)) as (e & ->).
    assert (Hb : exists b,
               Math_max (Fin (3/10))
                 (Fin 1 - Fin (sqrt (Rvariance xs)) / Fin (Rmean xs)) = Fin b).
    { destruct (Req_dec_T (Rmean xs) 0) as [Hm | Hm].
      - assert (Hv : Rvariance xs <> 0%R) by tauto.
        assert (Hs : (0 < sqrt (Rvariance xs))%R).
        { apply sqrt_lt_R0. pose proof (Rvariance_nonneg xs Hne). lra. }
        rewrite Hm. cbn [div]. rewrite Reqb_true by reflexivity.
        unfold signed_inf. rewrite Reqb_false by lra. rewrite Rltb_true by assumption.
        exists (3/10)%R. reflexivity.
      - rewrite div_Fin by assumption. apply base_Fin. }
    destruct Hb as (b & ->). cbn [mul]. apply clamp_range.
Qed.

Lemma zero_mean : Rmean zero_quantities = 0%R.
Proof. unfold Rmean, Rsum, Rlen; cbn; lra. Qed.

Lemma zero_variance : Rvariance zero_quantities = 0%R.
Proof. unfold Rvariance; rewrite zero_mean; unfold Rlen; cbn; lra. Qed.

(** Claim C2, evaluated where it fails: on the finite series 0, 0, 0 and
    the finite prediction 0 the confidence of the forecasting service is
    [NaN], not a value of the interval from 0.3 to 0.98: the mean is zero
    and the coefficient of variation is computed as [0 / 0].  The
    client-side function, which treats a zero mean as a coefficient of
    variation of 1, returns 0.3 there. *)
Theorem C2_confidence_zero_series :
  Basic.calculateConfidence (map Fin zero_quantities) (Fin 0) = NaN /\
  Client.calculateConfidence (map Fin zero_quantities) (Fin 0) = Fin (3/10).
Proof.
  split.
  - apply server_confidence_degenerate;
      [discriminate | exact zero_mean | exact zero_variance].
  - rewrite client_confidence_unfold.
    replace (length (map Fin zero_quantities) =? 0)%nat with false by reflexivity.
    cbv zeta.
    rewrite series_mean_Fin, series_stdDev_Fin by discriminate.
    rewrite zero_mean, zero_variance, sqrt_0.
    cbn [strict_eq]. rewrite Reqb_true by reflexivity.
    rewrite or_else_zero. cbn [sub neg add Math_abs].
    rewrite max_Fin_l by lra.
    rewrite !div_Fin by lra. cbn [neg]. rewrite div_Fin by lra. cbn [Math_exp mul].
    replace (- (Rabs (0 + - 0) / 1) / 2)%R with 0%R.
    + rewrite exp_0. rewrite max_Fin_l by lra. rewrite min_Fin_r by lra. reflexivity.
    + replace (0 + - 0)%R with 0%R by lra. rewrite Rabs_R0. lra.
Qed.

(** ** Loops *)

Lemma for_loop_step {S : Type} (lo hi : nat) (body : nat -> S -> S) (s : S) :
  (lo <= hi)%nat ->
  for_loop lo (Datatypes.S hi) body s = body hi (for_loop lo hi body s).
Proof.
  intros H; unfold for_loop.
  replace (Datatypes.S hi - lo)%nat with ((hi - lo) + 1)%nat by lia.
  rewrite seq_app, fold_left_app; cbn.
  replace (lo + (hi - lo))%nat with hi by lia; reflexivity.
Qed.

Lemma for_loop_empty {S : Type} (lo hi : nat) (body : nat -> S -> S) (s : S) :
  (hi <= lo)%nat -> for_loop lo hi body s = s.
Proof.
  intros H; unfold for_loop; replace (hi - lo)%nat with 0%nat by lia; reflexivity.
Qed.

(** Invariant rule: [P i s] holds of the state before iteration [i]. *)
Lemma for_loop_inv {S : Type} (P : nat -> S -> Prop) (lo hi : nat)
  (body : nat -> S -> S) (s : S) :
  (lo <= hi)%nat ->
  P lo s ->
  (forall i s, (lo <= i < hi)%nat -> P i s -> P (Datatypes.S i) (body i s)) ->
  P hi (for_loop lo hi body s).
Proof.
  intros Hle H0 Hstep; induction hi as [|hi IH].
  - assert (lo = 0%nat) as -> by lia; rewrite for_loop_empty by lia; assumption.
  - destruct (Nat.eq_dec lo (Datatypes.S hi)) as [-> | Hne].
    + rewrite for_loop_empty by lia; assumption.
    + rewrite for_loop_step by lia. apply Hstep; [lia|].
      apply IH; [lia|]. intros i s' Hi; apply Hstep; lia.
Qed.

(** A loop that pushes one element per iteration. *)
Lemma for_loop_push {A : Type} (lo hi : nat) (f : nat -> A) (acc : list A) :
  for_loop lo hi (fun i result => result ++ [f i]) acc
  = acc ++ map f (seq lo (hi - lo)).
Proof.
  unfold for_loop; generalize (hi - lo)%nat as k; intros k.
  revert lo acc; induction k as [|k IH]; intros lo acc; cbn.
  - rewrite app_nil_r; reflexivity.
  - rewrite IH, <- app_assoc; reflexivity.
Qed.

(** ** Moving averages *)

Lemma server_moving_average_short (data : list num) (window : Z) :
  (Z.of_nat (length data) < window)%Z ->
  Basic.calculateMovingAverage data window = series_mean data.
Proof.
  intros H; unfold Basic.calculateMovingAverage.
  apply Z.ltb_lt in H; rewrite H; reflexivity.
Qed.

Lemma slice_last_pos {A : Type} (a : list A) (k : Z) :
  (0 < k)%Z -> slice_last a k = skipn (length a - Z.to_nat k) a.
Proof.
  intros H; unfold slice_last.
  destruct (Z.ltb_spec k 0); [lia|]. destruct (Z.eqb_spec k 0); [lia|]. reflexivity.
Qed.

Lemma len_last {A : Type} (a : list A) (window : Z) :
  (1 <= window <= Z.of_nat (length a))%Z ->
  len (skipn (length a - Z.to_nat window) a) = of_Z window.
Proof.
  intros H; unfold len, of_nat; rewrite length_skipn; do 2 f_equal; lia.
Qed.

Lemma server_moving_average_window (data : list num) (window : Z) :
  (1 <= window <= Z.of_nat (length data))%Z ->
  Basic.calculateMovingAverage data window
  = series_mean (skipn (length data - Z.to_nat window) data).
Proof.
  intros H; unfold Basic.calculateMovingAverage, series_mean.
  destruct (Z.ltb_spec (Z.of_nat (length data)) window); [lia|].
  rewrite slice_last_pos, len_last by lia; reflexivity.
Qed.

Lemma client_moving_average_throws (values : list num) (window : Z) :
  (exists message, Client.calculateMovingAverage values window = Client.Throw message)
  <-> (window <= 0)%Z \/ (Z.of_nat (length values) < window)%Z.
Proof.
  unfold Client.calculateMovingAverage.
  destruct (Z.leb_spec window 0), (Z.ltb_spec (Z.of_nat (length values)) window);
    cbn [orb]; split; intros Hx.
  all: try (left; assumption); try (right; assumption); try (eexists; reflexivity).
  - destruct Hx as (m & Hm); discriminate Hm.
  - lia.
Qed.

Lemma slice_window {A : Type} (a : list A) (w : nat) :
  (1 <= w <= length a)%nat ->
  slice a (length a - 1 + 1 - w) (length a - 1 + 1) = skipn (length a - w) a.
Proof.
  intros H; unfold slice.
  replace (length a - 1 + 1 - w)%nat with (length a - w)%nat by lia.
  apply firstn_all2; rewrite length_skipn; lia.
Qed.

Lemma map_seq_from {A : Type} (f : nat -> A) (lo k : nat) :
  map f (seq lo k) = map (fun j => f (j + lo)%nat) (seq 0 k).
Proof.
  revert lo; induction k as [|k IH]; intros lo; [reflexivity|].
  cbn [seq map]. f_equal.
  rewrite (IH (S lo)), <- seq_shift, map_map.
  apply map_ext. intros j. f_equal. lia.
Qed.

Lemma client_moving_average_ok (values : list num) (window : Z) :
  (1 <= window <= Z.of_nat (length values))%Z ->
  exists means,
    Client.calculateMovingAverage values window = Client.Ok means /\
    means = map (fun k => series_mean (slice values k (k + Z.to_nat window)))
                (seq 0 (length values - Z.to_nat window + 1)) /\
    length means = (length values - Z.to_nat window + 1)%nat /\
    last means NaN = series_mean (skipn (length values - Z.to_nat window) values).
Proof.
  intros H; unfold Client.calculateMovingAverage.
  destruct (Z.leb_spec window 0); [lia|].
  destruct (Z.ltb_spec (Z.of_nat (length values)) window); [lia|]. cbn [orb].
  eexists; split; [reflexivity|]. rewrite for_loop_push. cbn [app].
  set (w := Z.to_nat window).
  assert (Hw : (1 <= w <= length values)%nat) by (unfold w; lia).
  split; [|split; [rewrite length_map, length_seq; lia|]].
  - rewrite map_seq_from.
    replace (length values - (w - 1))%nat with (length values - w + 1)%nat by lia.
    apply map_ext_in. intros k Hk. apply in_seq in Hk.
    replace (k + (w - 1) + 1 - w)%nat with k by lia.
    replace (k + (w - 1) + 1)%nat with (k + w)%nat by lia.
    assert (Hl : length (slice values k (k + w)) = w)
      by (unfold slice; rewrite length_firstn, length_skipn; lia).
    unfold series_mean, len, of_nat. rewrite Hl.
    unfold w. rewrite Z2Nat.id by lia. reflexivity.
  - replace (length values - (w - 1))%nat with ((length values - w) + 1)%nat by lia.
    rewrite seq_app, map_app; cbn [seq map]. rewrite last_last.
    replace (w - 1 + (length values - w))%nat with (length values - 1)%nat by lia.
    rewrite slice_window by assumption. unfold series_mean.
    fold w; rewrite <- (len_last values window) by lia. reflexivity.
Qed.

(** Claim C3, as the code has it.  The [calculateMovingAverage] of the
    forecasting service returns the mean of the whole series whenever the
    series is shorter than the window, and the mean of the last [window]
    elements whenever [1 <= window <= length]; it returns a number for
    every window and never fails.  The [calculateMovingAverage] of the
    client fails with its invalid-window error if and only if
    [window <= 0] or the window exceeds the length of the series, and
    otherwise returns the means of all the windows, one per position
    [k] from [0] to [length - window], each the mean of the [window]
    elements from position [k] on; the last of them is the mean of the
    last [window] elements. *)
Theorem C3_moving_average (series : list num) (window : Z) :
  ((Z.of_nat (length series) < window)%Z ->
   Basic.calculateMovingAverage series window = series_mean series) /\
  ((1 <= window <= Z.of_nat (length series))%Z ->
   Basic.calculateMovingAverage series window
   = series_mean (skipn (length series - Z.to_nat window) series)) /\
  ((exists message, Client.calculateMovingAverage series window = Client.Throw message)
   <-> (window <= 0)%Z \/ (Z.of_nat (length series) < window)%Z) /\
  ((1 <= window <= Z.of_nat (length series))%Z ->
   exists means,
     Client.calculateMovingAverage series window = Client.Ok means /\
     means = map (fun k => series_mean (slice series k (k + Z.to_nat window)))
                 (seq 0 (length series - Z.to_nat window + 1)) /\
     length means = (length series - Z.to_nat window + 1)%nat /\
     last means NaN = series_mean (skipn (length series - Z.to_nat window) series)).
Proof.
  split; [apply server_moving_average_short|].
  split; [apply server_moving_average_window|].
  split; [apply client_moving_average_throws | apply client_moving_average_ok].
Qed.

(** A series of two values with the windows 3 and 1. *)
Lemma C3_moving_average_witness :
  Basic.calculateMovingAverage two_values 3 = series_mean two_values /\
  Basic.calculateMovingAverage two_values 1 = series_mean [Fin 2] /\
  (exists means,
      Client.calculateMovingAverage two_values 1 = Client.Ok means /\
      means = [series_mean [Fin 1]; series_mean [Fin 2]] /\
      length means = 2%nat /\ last means NaN = series_mean [Fin 2]).
Proof.
  split; [|split].
  - apply (proj1 (C3_moving_average two_values 3)); cbn; lia.
  - apply (proj1 (proj2 (C3_moving_average two_values 1))); cbn; lia.
  - apply (proj2 (proj2 (proj2 (C3_moving_average two_values 1)))); cbn; lia.
Defined.

(** Claim C3, as stated, fails: with the window 0 the service returns a
    number, [+Infinity], and with the window 3 the client fails on a series
    of two values although the window is positive. *)
Lemma C3_window_errors :
  Basic.calculateMovingAverage two_values 0 = PInf /\
  ~ ((exists message, Client.calculateMovingAverage two_values 3 = Client.Throw message)
     <-> (3 <= 0)%Z).
Proof.
  split.
  - unfold Basic.calculateMovingAverage, two_values, slice_last, reduce, of_Z.
    cbn [length Z.of_nat Z.ltb Z.eqb Z.compare fold_left add Pos.of_succ_nat Pos.succ].
    cbn [div]. rewrite Reqb_true by reflexivity.
    unfold signed_inf. rewrite Reqb_false by lra. rewrite Rltb_true by lra. reflexivity.
  - intros [H _]. assert (3 <= 0)%Z; [|lia].
    apply H. eexists. reflexivity.
Qed.

(** ** Model metrics *)

Lemma abs_not_negative (x : num) : not_negative (Math_abs x).
Proof. destruct x; cbn; auto using Rabs_pos. Qed.

Lemma add_not_negative (x y : num) :
  not_negative x -> not_negative y -> not_negative (x + y).
Proof. destruct x, y; cbn; intros; auto; lra. Qed.

Lemma div_not_negative (x : num) (n : nat) :
  not_negative x -> not_negative (x / of_nat n).
Proof.
  unfold of_nat, of_Z. assert (Hn : (0 <= IZR (Z.of_nat n))%R) by (apply IZR_le; lia).
  destruct x as [a| | |]; cbn; intros H; try contradiction; try exact I.
  - unfold Reqb; destruct (Req_dec_T (IZR (Z.of_nat n)) 0) as [E | E].
    + unfold signed_inf, Reqb, Rltb.
      destruct (Req_dec_T a 0); cbn; [exact I|].
      destruct (Rlt_dec 0 a); cbn; [exact I | lra].
    + cbn. apply Rmult_le_pos; [assumption|].
      left; apply Rinv_0_lt_compat; lra.
  - rewrite Rltb_false by assumption. exact I.
Qed.

(** The two maxima that turn the error rate into a score. *)
Lemma accuracy_cases (mape : num) :
  not_negative mape ->
  Math_max (Fin 0) (Fin 1 - mape) = NaN \/
  exists a, Math_max (Fin 0) (Fin 1 - mape) = Fin a /\ (0 <= a <= 1)%R.
Proof.
  destruct mape as [m| | |]; cbn [not_negative]; intros H; try contradiction.
  - right. cbn [sub neg add].
    destruct (Rle_lt_dec (1 + - m) 0).
    + rewrite max_Fin_l by assumption. exists 0%R; split; [reflexivity | lra].
    + rewrite max_Fin_r by lra. eexists; split; [reflexivity | lra].
  - right. exists 0%R; split; [reflexivity | lra].
  - left; reflexivity.
Qed.

Lemma f1_collapse (accuracy : num) :
  accuracy = NaN \/ (exists a, accuracy = Fin a /\ (0 <= a <= 1)%R) ->
  let precision := Math_max (Fin (3/10)) accuracy in
  let recall := Math_max (Fin (3/10)) accuracy in
  Fin 2 * (precision * recall) / (precision + recall) = precision.
Proof.
  intros [-> | (a & -> & Ha)]; cbv zeta; [reflexivity|].
  assert (Hp : exists p, Math_max (Fin (3/10)) (Fin a) = Fin p /\ (3/10 <= p)%R).
  { destruct (Rle_lt_dec a (3/10)).
    - rewrite max_Fin_l by assumption. exists (3/10)%R; split; [reflexivity | lra].
    - rewrite max_Fin_r by lra. exists a; split; [reflexivity | lra]. }
  destruct Hp as (p & -> & Hp).
  cbn [mul add]. rewrite div_Fin by lra. f_equal. field. lra.
Qed.

Lemma metrics_mape_not_negative (actual predicted : list num) (n : nat) :
  not_negative
    (Advanced.e_mape
       (for_loop 0 n
          (fun i acc =>
             let error := Math_abs (get actual i - get predicted i) in
             Advanced.mkErrors
               (Advanced.e_mae acc + error)
               (Advanced.e_mse acc + error * error)
               (if negb (strict_eq (get actual i) (Fin 0))
                then Advanced.e_mape acc + Math_abs (error / get actual i)
                else Advanced.e_mape acc))
          (Advanced.mkErrors (Fin 0) (Fin 0) (Fin 0)))).
Proof.
  apply (for_loop_inv (fun _ acc => not_negative (Advanced.e_mape acc))); [lia | |].
  - cbn; lra.
  - intros i acc _ H; cbn [Advanced.e_mape].
    destruct (negb (strict_eq (get actual i) (Fin 0))); [|assumption].
    apply add_not_negative; [assumption | apply abs_not_negative].
Qed.

(** Claim C10, as the code has it.  On binary64 numbers, for every pair
    of sequences, the empty ones too, and whatever [Math.pow] and
    [Math.log] return, precision and recall are the same number and the
    F1 score is the result of the operations [2 * (p * r) / (p + r)] on
    it.  In exact arithmetic that quotient is the precision itself, so the
    three scores are then identical. *)
Theorem C10_scores_identical :
  (forall (Math_pow : float -> float -> float) (Math_log : float -> float)
          (actual predicted : list float),
      let m := Float64.calculateMetrics Math_pow Math_log actual predicted in
      Float64.precision m = Float64.recall m /\
      Float64.f1Score m
      = (2 * (Float64.precision m * Float64.recall m)
         / (Float64.precision m + Float64.recall m))%float) /\
  (forall actual predicted : list num,
      let m := Advanced.calculateMetrics actual predicted in
      Advanced.precision m = Advanced.recall m /\
      Advanced.f1Score m = Advanced.precision m).
Proof.
  split.
  - intros Math_pow Math_log actual predicted; cbv zeta.
    unfold Float64.calculateMetrics.
    destruct (Nat.min (length actual) (length predicted) =? 0)%nat.
    + split; vm_compute; reflexivity.
    + split; reflexivity.
  - intros actual predicted; cbv zeta; unfold Advanced.calculateMetrics.
    destruct (Nat.min (length actual) (length predicted) =? 0)%nat.
    + split; reflexivity.
    + cbn [Advanced.precision Advanced.recall Advanced.f1Score].
      split; [reflexivity|].
      apply f1_collapse, accuracy_cases, div_not_negative, metrics_mape_not_negative.
Qed.

(** Claim C10, as stated, fails on binary64 numbers: for the actual
    sequence [10] and the predicted sequence [8] the precision is 0.8 and
    the F1 score 0.8000000000000002, whatever [Math.pow] and [Math.log]
    return. *)
Lemma C10_last_bit_differs :
  (forall (Math_pow : float -> float -> float) (Math_log : float -> float),
      Float64.precision (Float64.calculateMetrics Math_pow Math_log [10%float] [8%float])
      = 0.8%float) /\
  (forall (Math_pow : float -> float -> float) (Math_log : float -> float),
      Float64.f1Score (Float64.calculateMetrics Math_pow Math_log [10%float] [8%float])
      = 0.8000000000000002%float) /\
  (0.8000000000000002 =? 0.8)%float = false.
Proof. repeat split; intros; vm_compute; reflexivity. Qed.

(** ** The model constructors *)

Lemma mapM_length {A B : Type} (f : A -> Rand B) (a : list A) (s : Random) :
  length (fst (mapM f a s)) = length a.
Proof.
  revert s; induction a as [|x a IH]; intros s; cbn [mapM]; [reflexivity|].
  unfold bind. destruct (f x s) as [y s1].
  specialize (IH s1). destruct (mapM f a s1) as [ys s2].
  cbn in *. rewrite IH. reflexivity.
Qed.

Lemma arima_lengths (data : list num) (p d q : nat) (s : Random) :
  let m := fst (Advanced.calculateARIMA data p d q s) in
  length (Advanced.confidence m) = length (Advanced.predictions m).
Proof.
  cbv zeta; unfold Advanced.calculateARIMA, bind.
  match goal with |- context [mapM ?f ?l s] =>
    pose proof (mapM_length f l s) as H; destruct (mapM f l s) as [c s1] end.
  cbn in *. assumption.
Qed.

Lemma simple_smoothing_lengths (data : list num) (alpha : num) :
  let m := Advanced.simpleExponentialSmoothing data alpha in
  length (Advanced.confidence m) = length (Advanced.predictions m).
Proof. reflexivity. Qed.

Lemma holt_winters_lengths (data : list num) (alpha beta gamma : num) (seasonLength : nat) :
  let m := Advanced.calculateExponentialSmoothing data alpha beta gamma seasonLength in
  length (Advanced.confidence m) = length (Advanced.predictions m).
Proof.
  cbv zeta; unfold Advanced.calculateExponentialSmoothing.
  destruct (length data <? seasonLength * 2)%nat; [reflexivity|].
  cbn [Advanced.confidence Advanced.predictions].
  apply (for_loop_inv (fun _ out => length (snd out) = length (fst out))); [lia | reflexivity |].
  intros h out _ H; cbn [fst snd]. rewrite !length_app, H. reflexivity.
Qed.

Lemma neural_lengths (data : list num) (windowSize : nat) (s : Random) :
  let m := fst (Advanced.calculateNeuralNetworkForecast data windowSize s) in
  length (Advanced.confidence m) = length (Advanced.predictions m).
Proof.
  cbv zeta; unfold Advanced.calculateNeuralNetworkForecast.
  destruct (length data <? windowSize + 1)%nat; [reflexivity|].
  unfold bind.
  match goal with |- context [mapM ?f ?l s] => destruct (mapM f l s) as [w s1] end.
  destruct (Math_random s1) as [r s2]. reflexivity.
Qed.

(** Claim C9: every model the three constructors produce (ARIMA,
    Holt-Winters or its simple exponential smoothing fallback, neural
    network) has as many confidence values as predictions, for every input
    series, every choice of the parameters and every run of the random
    number generator. *)
Theorem C9_confidence_parallel_to_predictions :
  (forall data p d q s,
      let m := fst (Advanced.calculateARIMA data p d q s) in
      length (Advanced.confidence m) = length (Advanced.predictions m)) /\
  (forall data alpha beta gamma seasonLength,
      let m := Advanced.calculateExponentialSmoothing data alpha beta gamma seasonLength in
      length (Advanced.confidence m) = length (Advanced.predictions m)) /\
  (forall data alpha,
      let m := Advanced.simpleExponentialSmoothing data alpha in
      length (Advanced.confidence m) = length (Advanced.predictions m)) /\
  (forall data windowSize s,
      let m := fst (Advanced.calculateNeuralNetworkForecast data windowSize s) in
      length (Advanced.confidence m) = length (Advanced.predictions m)).
Proof.
  split; [exact arima_lengths|].
  split; [exact holt_winters_lengths|].
  split; [exact simple_smoothing_lengths | exact neural_lengths].
Qed.

(** ** Arrays *)

Lemma set_length (a : list num) (i : nat) (v : num) :
  (i < length a)%nat -> length (set a i v) = length a.
Proof.
  revert i; induction a as [|h a IH]; intros [|i] H; cbn in *; try lia.
  rewrite IH by lia; reflexivity.
Qed.

Lemma get_set_eq (a : list num) (i : nat) (v : num) : get (set a i v) i = v.
Proof.
  unfold get; revert a; induction i as [|i IH]; intros [|h a]; cbn; auto.
Qed.

Lemma get_set_neq (a : list num) (i j : nat) (v : num) :
  i <> j -> get (set a i v) j = get a j.
Proof.
  unfold get; revert a j; induction i as [|i IH]; intros [|h a] [|j] H; cbn; try congruence.
  - destruct j; reflexivity.
  - rewrite IH by congruence. destruct j; reflexivity.
  - apply IH; congruence.
Qed.

(** A loop that assigns [a[i] = f i] for every index of the array. *)
Lemma fill_spec (f : nat -> num) (n : nat) (a0 : list num) :
  length a0 = n ->
  let a := for_loop 0 n (fun i a => set a i (f i)) a0 in
  length a = n /\ forall i, (i < n)%nat -> get a i = f i.
Proof.
  intros H0; cbv zeta.
  apply (for_loop_inv
           (fun k a => length a = n /\ forall i, (i < k)%nat -> get a i = f i)); [lia | |].
  - split; [assumption | intros i Hi; lia].
  - intros k a Hk [Hlen Hget]; split.
    + rewrite set_length by lia; assumption.
    + intros i Hi. destruct (Nat.eq_dec k i) as [-> | Hne].
      * apply get_set_eq.
      * rewrite get_set_neq by assumption. apply Hget; lia.
Qed.

Lemma new_Array_length (n : nat) : length (new_Array n) = n.
Proof. apply repeat_length. Qed.

Lemma get_map_Fin (rs : list R) (i : nat) :
  (i < length rs)%nat -> get (map Fin rs) i = Fin (nth i rs 0%R).
Proof.
  intros H; unfold get. rewrite (nth_indep _ NaN (Fin 0)) by (rewrite length_map; assumption).
  apply map_nth.
Qed.

Lemma slice_map_Fin (rs : list R) (start stop : nat) :
  slice (map Fin rs) start stop = map Fin (slice rs start stop).
Proof. unfold slice; rewrite skipn_map, firstn_map; reflexivity. Qed.

Lemma slice_length {A : Type} (a : list A) (start stop : nat) :
  (stop <= length a)%nat -> length (slice a start stop) = (stop - start)%nat.
Proof. intros H; unfold slice; rewrite length_firstn, length_skipn; lia. Qed.

(** The mean of a non-empty list of finite numbers is finite. *)
Lemma mean_finite (l : list num) :
  l <> [] -> Forall (fun x => is_finite x = true) l ->
  exists r, reduce (fun sum val => sum + val) l (Fin 0) / len l = Fin r.
Proof.
  intros Hne Hfin.
  assert (Hrs : exists rs, l = map Fin rs).
  { clear Hne; induction Hfin as [|x l Hx _ (rs & ->)]; [exists []; reflexivity|].
    destruct x as [r| | |]; try discriminate Hx. exists (r :: rs); reflexivity. }
  destruct Hrs as (rs & ->).
  assert (Hrs : rs <> []) by (intros ->; apply Hne; reflexivity).
  exists (Rmean rs). apply (series_mean_Fin rs Hrs).
Qed.

(** ** Seasonal decomposition *)

Lemma decompose_lengths (data : list num) (seasonLength : nat) :
  let c := Advanced.decomposeTimeSeries data seasonLength in
  length (Advanced.trend c) = length data /\
  length (Advanced.seasonal c) = length data /\
  length (Advanced.residual c) = length data.
Proof.
  cbv zeta; unfold Advanced.decomposeTimeSeries.
  cbn [Advanced.trend Advanced.seasonal Advanced.residual].
  split.
  - apply fill_spec, new_Array_length.
  - apply (for_loop_inv
             (fun _ out => length (fst out) = length data /\ length (snd out) = length data));
      [lia | split; apply new_Array_length |].
    intros i out Hi [Hs Hr]; cbn [fst snd].
    rewrite !set_length by lia. split; assumption.
Qed.

Lemma trend_finite (rs : list R) (halfSeason i : nat) :
  (i < length rs)%nat ->
  finite
    (reduce (fun sum val => sum + val)
       (slice (map Fin rs) (i - halfSeason) (Nat.min (length (map Fin rs)) (i + halfSeason + 1)))
       (Fin 0)
     / len (slice (map Fin rs) (i - halfSeason)
              (Nat.min (length (map Fin rs)) (i + halfSeason + 1)))).
Proof.
  intros Hi. rewrite slice_map_Fin, length_map.
  set (w := slice rs _ _).
  assert (Hw : w <> []).
  { intros E. assert (Hl : length w = 0%nat) by (rewrite E; reflexivity).
    unfold w in Hl; rewrite slice_length in Hl by lia. lia. }
  exists (Rmean w). apply (series_mean_Fin w Hw).
Qed.

Lemma buckets_finite (data trend : list num) (seasonLength n : nat) :
  (forall i, (i < n)%nat -> finite (get data i - get trend i)) ->
  let seasonalAvg :=
    for_loop 0 n
      (fun i seasonalAvg =>
         Advanced.bucket_push seasonalAvg (rem i seasonLength) (get data i - get trend i))
      (fun _ => None) in
  forall key bucket, seasonalAvg key = Some bucket ->
    bucket <> [] /\ Forall (fun x => is_finite x = true) bucket.
Proof.
  intros Hfin; cbv zeta.
  apply (for_loop_inv
           (fun _ (b : Advanced.Buckets) =>
              forall key bucket, b key = Some bucket ->
                bucket <> [] /\ Forall (fun x => is_finite x = true) bucket)); [lia | |].
  - intros key bucket H; discriminate H.
  - intros i b Hi Hb key bucket. unfold Advanced.bucket_push.
    destruct (Advanced.key_eqb (rem i seasonLength) key); [|apply Hb].
    intros H; injection H as <-.
    destruct (Hfin i ltac:(lia)) as (r & ->).
    split; [intros E; apply app_eq_nil in E as [_ E]; discriminate E|].
    apply Forall_app; split; [|repeat constructor].
    destruct (b (rem i seasonLength)) as [l|] eqn:E; [apply (Hb _ _ E) | constructor].
Qed.

Lemma decompose_round_trip (rs : list R) (seasonLength i : nat) :
  (0 < seasonLength)%nat -> (i < length rs)%nat ->
  let c := Advanced.decomposeTimeSeries (map Fin rs) seasonLength in
  exists t s r : R,
    get (Advanced.trend c) i = Fin t /\
    get (Advanced.seasonal c) i = Fin s /\
    get (Advanced.residual c) i = Fin r /\
    (t + s + r = nth i rs 0)%R.
Proof.
  intros Hsl Hi; cbv zeta; unfold Advanced.decomposeTimeSeries.
  cbn [Advanced.trend Advanced.seasonal Advanced.residual].
  set (data := map Fin rs).
  assert (Hn : length data = length rs) by apply length_map.
  set (halfSeason := (seasonLength / 2)%nat).
  set (F := fun i : nat =>
              reduce (fun sum val => sum + val)
                (slice data (i - halfSeason) (Nat.min (length data) (i + halfSeason + 1)))
                (Fin 0)
              / len (slice data (i - halfSeason)
                       (Nat.min (length data) (i + halfSeason + 1)))).
  set (trend := for_loop 0 (length data) _ (new_Array (length data))).
  assert (Htg : forall j, (j < length data)%nat -> get trend j = F j)
    by apply (fill_spec F (length data) (new_Array (length data)) (new_Array_length _)).
  assert (Htf : forall j, (j < length data)%nat -> finite (get trend j)).
  { intros j Hj; rewrite Htg by assumption. apply trend_finite; lia. }
  assert (Hdf : forall j, (j < length data)%nat -> finite (get data j - get trend j)).
  { intros j Hj. destruct (Htf j Hj) as (t & ->).
    unfold data; rewrite get_map_Fin by lia. eexists; reflexivity. }
  set (seasonalAvg := @for_loop Advanced.Buckets 0 (length data) _ _).
  assert (Hb : forall key bucket, seasonalAvg key = Some bucket ->
                 bucket <> [] /\ Forall (fun x => is_finite x = true) bucket)
    by apply (buckets_finite data trend seasonLength (length data) Hdf).
  set (G := fun i : nat =>
              match seasonalAvg (Some i) with
              | Some bucket => reduce (fun sum val => sum + val) bucket (Fin 0) / len bucket
              | None => Fin 0
              end).
  set (pattern := for_loop 0 seasonLength _ (new_Array seasonLength)).
  assert (Hpg : forall j, (j < seasonLength)%nat -> get pattern j = G j)
    by apply (fill_spec G seasonLength (new_Array seasonLength) (new_Array_length _)).
  assert (Hpf : forall j, (j < length data)%nat ->
                          finite (get_rem pattern (rem j seasonLength))).
  { intros j Hj. unfold rem. destruct (Nat.eqb_spec seasonLength 0); [lia|].
    cbn [get_rem]. rewrite Hpg by (apply Nat.mod_upper_bound; assumption).
    unfold G. destruct (seasonalAvg (Some (j mod seasonLength)%nat)) as [bucket|] eqn:E.
    - destruct (Hb _ _ E) as [Hne Hfin]. apply mean_finite; assumption.
    - exists 0%R; reflexivity. }
  set (out := for_loop 0 (length data) _ _).
  assert (Hout :
    length (fst out) = length data /\ length (snd out) = length data /\
    forall j, (j < length data)%nat ->
      get (fst out) j = get_rem pattern (rem j seasonLength) /\
      get (snd out) j
      = get data j - get trend j - get_rem pattern (rem j seasonLength)).
  { unfold out.
    apply (for_loop_inv
             (fun k o =>
                length (fst o) = length data /\ length (snd o) = length data /\
                forall j, (j < k)%nat ->
                  get (fst o) j = get_rem pattern (rem j seasonLength) /\
                  get (snd o) j
                  = get data j - get trend j - get_rem pattern (rem j seasonLength)));
      [lia | |].
    - repeat split; try apply new_Array_length; lia.
    - intros k o Hk (Hs & Hr & Hget); cbn [fst snd].
      rewrite !set_length by lia. repeat split; try assumption.
      + destruct (Nat.eq_dec k j) as [-> | Hne];
          [apply get_set_eq | rewrite get_set_neq by assumption; apply Hget; lia].
      + destruct (Nat.eq_dec k j) as [-> | Hne].
        * rewrite !get_set_eq; reflexivity.
        * rewrite get_set_neq by assumption. apply Hget; lia. }
  destruct Hout as (_ & _ & Hget).
  destruct (Hget i ltac:(lia)) as [Hs Hr].
  destruct (Htf i ltac:(lia)) as (t & Ht).
  destruct (Hpf i ltac:(lia)) as (sv & Hsv).
  exists t, sv, (nth i rs 0 + - t + - sv)%R.
  rewrite Hr, Hs, Hsv, Ht. unfold data; rewrite get_map_Fin by assumption.
  repeat split; lra.
Qed.

(** *** The decomposition on binary64 numbers *)

Lemma float_set_length (a : list float) (i : nat) (v : float) :
  (i < length a)%nat -> length (Float64.set a i v) = length a.
Proof.
  revert i; induction a as [|h a IH]; intros [|i] H; cbn in *; try lia.
  rewrite IH by lia; reflexivity.
Qed.

Lemma float_get_set_eq (a : list float) (i : nat) (v : float) :
  Float64.get (Float64.set a i v) i = v.
Proof.
  unfold Float64.get; revert a; induction i as [|i IH]; intros [|h a]; cbn; auto.
Qed.

Lemma float_get_set_neq (a : list float) (i j : nat) (v : float) :
  i <> j -> Float64.get (Float64.set a i v) j = Float64.get a j.
Proof.
  unfold Float64.get; revert a j; induction i as [|i IH]; intros [|h a] [|j] H; cbn;
    try congruence.
  - destruct j; reflexivity.
  - rewrite IH by congruence. destruct j; reflexivity.
  - apply IH; congruence.
Qed.

Lemma float_new_Array_length (n : nat) : length (Float64.new_Array n) = n.
Proof. apply repeat_length. Qed.

Lemma float_fill_length (f : nat -> float) (n : nat) (a0 : list float) :
  length a0 = n ->
  length (for_loop 0 n (fun i a => Float64.set a i (f i)) a0) = n.
Proof.
  intros H0.
  apply (for_loop_inv (fun _ a => length a = n)); [lia | assumption |].
  intros i a Hi Ha. rewrite float_set_length by lia. assumption.
Qed.

(** On binary64 numbers too the three components have the length of the
    input, and each residual is what the two subtractions
    [data[i] - trend[i] - seasonal[i]] leave. *)
Lemma float_decompose (data : list float) (seasonLength : nat) :
  let c := Float64.decomposeTimeSeries data seasonLength in
  length (Float64.trend c) = length data /\
  length (Float64.seasonal c) = length data /\
  length (Float64.residual c) = length data /\
  forall i, (i < length data)%nat ->
    Float64.get (Float64.residual c) i
    = (Float64.get data i - Float64.get (Float64.trend c) i
       - Float64.get (Float64.seasonal c) i)%float.
Proof.
  cbv zeta; unfold Float64.decomposeTimeSeries.
  cbn [Float64.trend Float64.seasonal Float64.residual].
  set (trend := for_loop 0 (length data) _ (Float64.new_Array (length data))).
  set (pattern := for_loop 0 seasonLength _ (Float64.new_Array seasonLength)).
  split; [apply float_fill_length, float_new_Array_length|].
  set (out := for_loop 0 (length data) _ (_, _)).
  assert (Hout :
    length (fst out) = length data /\ length (snd out) = length data /\
    forall j, (j < length data)%nat ->
      Float64.get (snd out) j
      = (Float64.get data j - Float64.get trend j - Float64.get (fst out) j)%float).
  { unfold out.
    apply (for_loop_inv
             (fun k o =>
                length (fst o) = length data /\ length (snd o) = length data /\
                forall j, (j < k)%nat ->
                  Float64.get (snd o) j
                  = (Float64.get data j - Float64.get trend j
                     - Float64.get (fst o) j)%float));
      [lia | |].
    - repeat split; try apply float_new_Array_length. intros j Hj; lia.
    - intros k o Hk (Hs & Hr & Hget); cbn [fst snd].
      rewrite !float_set_length by lia. repeat split; try assumption.
      intros j Hjk. destruct (Nat.eq_dec k j) as [-> | Hne].
      + rewrite !float_get_set_eq. reflexivity.
      + rewrite !float_get_set_neq by assumption. apply Hget; lia. }
  exact Hout.
Qed.

(** Claim C6, as the code has it.  On binary64 numbers, for every input
    series and season length, the decomposition returns trend, seasonal
    and residual sequences of the length of the input, and each residual
    is the result of the two subtractions [data[i] - trend[i] -
    seasonal[i]].  In exact arithmetic, for a series of finite numbers and
    a season length of at least 1 (the service always passes 7), the three
    sequences have the length of the input and
    [trend[i] + seasonal[i] + residual[i]] is the original value at every
    index.  No tolerance is stated for the binary64 sum: it depends on the
    magnitude of the quantities. *)
Theorem C6_decomposition_round_trip :
  (forall (data : list float) (seasonLength : nat),
      let c := Float64.decomposeTimeSeries data seasonLength in
      length (Float64.trend c) = length data /\
      length (Float64.seasonal c) = length data /\
      length (Float64.residual c) = length data) /\
  (forall (data : list float) (seasonLength i : nat),
      (i < length data)%nat ->
      let c := Float64.decomposeTimeSeries data seasonLength in
      Float64.get (Float64.residual c) i
      = (Float64.get data i - Float64.get (Float64.trend c) i
         - Float64.get (Float64.seasonal c) i)%float) /\
  (forall (data : list num) (seasonLength : nat),
      let c := Advanced.decomposeTimeSeries data seasonLength in
      length (Advanced.trend c) = length data /\
      length (Advanced.seasonal c) = length data /\
      length (Advanced.residual c) = length data) /\
  (forall (rs : list R) (seasonLength i : nat),
      (0 < seasonLength)%nat -> (i < length rs)%nat ->
      let c := Advanced.decomposeTimeSeries (map Fin rs) seasonLength in
      get (Advanced.trend c) i + get (Advanced.seasonal c) i + get (Advanced.residual c) i
      = Fin (nth i rs 0%R)).
Proof.
  split; [|split; [|split; [exact decompose_lengths|]]].
  - intros data seasonLength.
    destruct (float_decompose data seasonLength) as (Ht & Hs & Hr & _). auto.
  - intros data seasonLength i Hi.
    destruct (float_decompose data seasonLength) as (_ & _ & _ & H). apply H; assumption.
  - intros rs seasonLength i Hsl Hi; cbv zeta.
    destruct (decompose_round_trip rs seasonLength i Hsl Hi)
      as (t & s & r & -> & -> & -> & E).
    cbn [add]. rewrite E. reflexivity.
Qed.

(** Index 1 of the eight-digit series on binary64 numbers, and the last
    index of the outlier series in exact arithmetic, with the season
    length 7. *)
Lemma C6_decomposition_round_trip_witness :
  (let c := Float64.decomposeTimeSeries Float64.eight_digit_series 7 in
   Float64.get (Float64.residual c) 1
   = (Float64.get Float64.eight_digit_series 1 - Float64.get (Float64.trend c) 1
      - Float64.get (Float64.seasonal c) 1)%float) /\
  (let c := Advanced.decomposeTimeSeries (map Fin outlier_quantities) 7 in
   get (Advanced.trend c) 4 + get (Advanced.seasonal c) 4 + get (Advanced.residual c) 4
   = Fin 100).
Proof.
  split.
  - apply (proj1 (proj2 C6_decomposition_round_trip) Float64.eight_digit_series 7%nat 1%nat).
    cbn; lia.
  - apply (proj2 (proj2 (proj2 C6_decomposition_round_trip)) outlier_quantities 7%nat 4%nat);
      cbn; lia.
Defined.

(** Claim C6, as stated, fails on binary64 numbers: for the series of
    nine eight-digit quantities [99999999, 10000000, ..., 10000000] and
    the season length 7, [trend[1] + seasonal[1] + residual[1]] is
    1.862645149230957e-9 away from [data[1]], more than the tolerance
    1e-9. *)
Lemma C6_tolerance_exceeded :
  Float64.round_trip_error Float64.eight_digit_series 7 1 = 1.862645149230957e-9%float /\
  (Float64.tolerance <? Float64.round_trip_error Float64.eight_digit_series 7 1)%float = true.
Proof. split; vm_compute; reflexivity. Qed.

(** ** Grouping by item *)

Lemma group_push_new (groups : ItemGroups) (key : string) (sale : SalesData) :
  ~ In key (map fst groups) -> group_push groups key sale = groups ++ [(key, [sale])].
Proof.
  induction groups as [|[k sales] rest IH]; cbn; intros H; [reflexivity|].
  destruct (String.eqb_spec k key) as [-> | Hne]; [tauto|].
  rewrite IH by tauto; reflexivity.
Qed.

Lemma group_push_old (groups : ItemGroups) (key : string) (sale : SalesData)
  (sales0 : list SalesData) :
  NoDup (map fst groups) -> In (key, sales0) groups ->
  map fst (group_push groups key sale) = map fst groups /\
  forall k sales, In (k, sales) (group_push groups key sale) ->
    (k = key /\ sales = sales0 ++ [sale]) \/ (k <> key /\ In (k, sales) groups).
Proof.
  induction groups as [|[k1 sales1] rest IH]; cbn [group_push map fst In]; intros Hnd Hin;
    [contradiction|].
  inversion Hnd as [|? ? Hnot Hnd']; subst.
  destruct (String.eqb_spec k1 key) as [-> | Hne].
  - assert (sales1 = sales0) as ->.
    { destruct Hin as [E | Hin]; [congruence|].
      exfalso; apply Hnot; apply (in_map fst) in Hin; exact Hin. }
    split; [reflexivity|].
    intros k sales [E | Hin']; [injection E as <- <-; left; auto|].
    right; split; [|right; assumption].
    intros ->; apply Hnot; apply (in_map fst) in Hin'; exact Hin'.
  - destruct Hin as [E | Hin]; [congruence|].
    destruct (IH Hnd' Hin) as [Hkeys Hall].
    split; [cbn [map fst]; rewrite Hkeys; reflexivity|].
    intros k sales [E | Hin'].
    + injection E as <- <-. right; split; [assumption | left; reflexivity].
    + destruct (Hall k sales Hin') as [? | [? ?]]; [left; assumption | right; auto].
Qed.

Lemma observations_of_snoc (key : string) (salesData : list SalesData) (sale : SalesData) :
  observations_of key (salesData ++ [sale])
  = observations_of key salesData ++ (if String.eqb key (itemName sale) then [sale] else []).
Proof. unfold observations_of; rewrite filter_app; reflexivity. Qed.

Lemma grouped_push (groups : ItemGroups) (salesData : list SalesData) (sale : SalesData) :
  grouped groups salesData ->
  grouped (group_push groups (itemName sale) sale) (salesData ++ [sale]).
Proof.
  intros (Hnd & Hobs & Hcover).
  destruct (in_dec string_dec (itemName sale) (map fst groups)) as [Hin | Hnot].
  - apply in_map_iff in Hin as ([k sales0] & Hk & Hin); cbn in Hk; subst k.
    destruct (group_push_old groups (itemName sale) sale sales0 Hnd Hin) as [Hkeys Hall].
    split; [rewrite Hkeys; assumption|]. split.
    + intros key sales H. rewrite observations_of_snoc.
      destruct (Hall key sales H) as [[-> ->] | [Hne H']].
      * rewrite String.eqb_refl, <- (Hobs _ _ Hin); reflexivity.
      * destruct (String.eqb_spec key (itemName sale)); [contradiction|].
        rewrite app_nil_r; apply Hobs; assumption.
    + intros s Hs; rewrite Hkeys. apply in_app_or in Hs as [Hs | [<- | []]].
      * apply Hcover; assumption.
      * apply (in_map fst) in Hin; exact Hin.
  - rewrite group_push_new by assumption. split; [|split].
    + rewrite map_app; cbn [map fst]. apply NoDup_app; [assumption | repeat constructor; auto |].
      intros k Hk [<- | []]; contradiction.
    + intros key sales H. rewrite observations_of_snoc.
      apply in_app_or in H as [H | [E | []]].
      * destruct (String.eqb_spec key (itemName sale)) as [-> | Hne].
        -- exfalso; apply Hnot; apply (in_map fst) in H; exact H.
        -- rewrite app_nil_r; apply Hobs; assumption.
      * injection E as <- <-. rewrite String.eqb_refl.
        assert (observations_of (itemName sale) salesData = []) as ->; [|reflexivity].
        apply filter_none. intros s Hs.
        destruct (String.eqb_spec (itemName sale) (itemName s)) as [E | ]; [|reflexivity].
        exfalso; apply Hnot; rewrite E; apply Hcover; assumption.
    + intros s Hs; rewrite map_app; apply in_or_app.
      apply in_app_or in Hs as [Hs | [<- | []]]; [left; apply Hcover; assumption|].
      right; left; reflexivity.
Qed.

Lemma group_by_item_grouped (salesData : list SalesData) :
  grouped (group_by_item salesData) salesData.
Proof.
  unfold group_by_item; induction salesData as [|sale salesData IH] using rev_ind.
  - split; [constructor | split; intros; contradiction].
  - rewrite fold_left_app; cbn [fold_left]. apply grouped_push; assumption.
Qed.

(** ** The advanced pipeline *)

Lemma sort_by_date_length (sales : list SalesData) :
  length (sort_by_date sales) = length sales.
Proof. apply sort_length. Qed.

(** One iteration of the loop over the groups: a group of fewer than 7
    observations leaves the results as they are, any other adds one
    bundle, named after the group. *)
Lemma forecast_item_results (options : Advanced.AdvancedForecastOptions)
  (results : list Advanced.AdvancedForecastResult) (key : string)
  (sales : list SalesData) (s : Random) :
  let results' := fst (Advanced.forecast_item options results (key, sales) s) in
  ((length sales < 7)%nat /\ results' = results) \/
  ((7 <= length sales)%nat /\
   exists r, results' = results ++ [r] /\ Advanced.r_itemName r = key).
Proof.
  cbv zeta; unfold Advanced.forecast_item.
  rewrite length_map, sort_by_date_length.
  destruct (Nat.ltb_spec (length sales) 7) as [Hlt | Hge]; [left; split; [lia | reflexivity]|].
  right; split; [assumption|].
  unfold bind.
  match goal with |- context [Advanced.calculateARIMA ?q 1 1 1 s] =>
    destruct (Advanced.calculateARIMA q 1 1 1 s) as [m_arima s1];
    destruct (Advanced.calculateNeuralNetworkForecast q 5 s1) as [m_neural s2]
  end.
  cbn [Math_random ret fst]. eexists; split; reflexivity.
Qed.

Lemma for_of_results (options : Advanced.AdvancedForecastOptions)
  (entries : ItemGroups) (results : list Advanced.AdvancedForecastResult) (s : Random)
  (r : Advanced.AdvancedForecastResult) :
  In r (fst (Advanced.for_of (Advanced.forecast_item options) entries results s)) ->
  In r results \/
  exists key sales,
    In (key, sales) entries /\ Advanced.r_itemName r = key /\ (7 <= length sales)%nat.
Proof.
  revert results s; induction entries as [|[key sales] rest IH]; intros results s;
    cbn [Advanced.for_of]; [cbn; tauto|].
  unfold bind.
  pose proof (forecast_item_results options results key sales s) as Hstep; cbv zeta in Hstep.
  destruct (Advanced.forecast_item options results (key, sales) s) as [results' s'].
  cbn [fst] in Hstep. intros Hin; apply IH in Hin as [Hin | (k & l & Hin & Hk & Hl)].
  - destruct Hstep as [[_ ->] | [Hge (r' & -> & Hname)]]; [left; assumption|].
    apply in_app_or in Hin as [Hin | [<- | []]]; [left; assumption|].
    right; exists key, sales; repeat split; [left; reflexivity | assumption..].
  - right; exists k, l; repeat split; [right; assumption | assumption..].
Qed.

(** Every bundle the pipeline returns is that of an item with at least 7
    observations in the batch. *)
Lemma bundles_have_history (salesData : list SalesData)
  (options : Advanced.AdvancedForecastOptions) (s : Random)
  (r : Advanced.AdvancedForecastResult) :
  In r (fst (Advanced.generateAdvancedForecasts salesData options s)) ->
  (7 <= length (observations_of (Advanced.r_itemName r) salesData))%nat.
Proof.
  unfold Advanced.generateAdvancedForecasts; intros Hin.
  apply for_of_results in Hin as [[] | (key & sales & Hin & -> & Hlen)].
  destruct (group_by_item_grouped salesData) as (_ & Hobs & _).
  rewrite <- (Hobs _ _ Hin); assumption.
Qed.

(** Claim C7: for every batch, every option and every run of the random
    number generator, the advanced pipeline returns a list of bundles (it
    has no failure case), and an item with fewer than 7 observations in
    the batch, whose date-sorted series has that same length, has no
    bundle in the list. *)
Theorem C7_short_items_skipped (salesData : list SalesData)
  (options : Advanced.AdvancedForecastOptions) (s : Random) (item : string) :
  (length (sort_by_date (observations_of item salesData)) < 7)%nat ->
  ~ exists r,
      In r (fst (Advanced.generateAdvancedForecasts salesData options s)) /\
      Advanced.r_itemName r = item.
Proof.
  rewrite sort_by_date_length. intros Hlt (r & Hin & <-).
  apply bundles_have_history in Hin. lia.
Qed.

(** The five observations of item "X" in [outlier_series] give no bundle. *)
Lemma C7_short_items_skipped_witness :
  ~ exists r,
      In r (fst (Advanced.generateAdvancedForecasts outlier_series default_options
                   zero_draws)) /\
      Advanced.r_itemName r = "X"%string.
Proof.
  apply (C7_short_items_skipped outlier_series default_options zero_draws "X").
  rewrite sort_by_date_length. cbn. lia.
Defined.

(** A batch of ten observations of one item gives one bundle, for that item. *)
Lemma flat_series_bundle :
  exists r,
    fst (Advanced.generateAdvancedForecasts flat_series default_options zero_draws) = [r] /\
    Advanced.r_itemName r = "X"%string.
Proof.
  unfold Advanced.generateAdvancedForecasts.
  change (group_by_item flat_series) with [("X"%string, flat_series)].
  cbn [Advanced.for_of]. unfold bind.
  pose proof (forecast_item_results default_options [] "X" flat_series zero_draws) as H.
  cbv zeta in H.
  destruct (Advanced.forecast_item default_options [] ("X"%string, flat_series) zero_draws)
    as [results s'].
  cbn [ret fst] in *.
  destruct H as [[Hlt _] | [_ (r & -> & Hname)]]; [cbn in Hlt; lia|].
  exists r; split; [reflexivity | assumption].
Qed.

(** ** The basic forecaster on a flat series *)

Lemma flat_moving_average :
  Basic.calculateMovingAverage (map Fin flat_quantities) 7 = Fin 50.
Proof.
  rewrite server_moving_average_window by (cbn; lia).
  change (skipn _ _) with (map Fin (repeat 50%R 7)).
  rewrite series_mean_Fin by discriminate. f_equal.
  unfold Rmean, Rsum, Rlen; cbn; lra.
Qed.

Lemma flat_linear_trend :
  Basic.calculateLinearTrend (map Fin flat_quantities) = Fin 50.
Proof.
  unfold Basic.calculateLinearTrend, reduce, reducei, of_nat, of_Z.
  cbn -[add sub mul div]. cbn [add sub mul neg].
  rewrite div_Fin by lra. cbn [add sub mul neg].
  rewrite div_Fin by lra. cbn [add mul].
  f_equal. field.
Qed.

(** The observations of one item form one group. *)
Lemma group_push_same (key : string) (sales rest : list SalesData) :
  (forall sale, In sale rest -> itemName sale = key) ->
  fold_left (fun groups sale => group_push groups (itemName sale) sale) rest [(key, sales)]
  = [(key, sales ++ rest)].
Proof.
  revert sales; induction rest as [|sale rest IH]; intros sales H; cbn [fold_left].
  - rewrite app_nil_r; reflexivity.
  - rewrite (H sale (or_introl eq_refl)). cbn [group_push]. rewrite String.eqb_refl.
    rewrite IH by (intros s Hs; apply H; right; assumption).
    rewrite <- app_assoc; reflexivity.
Qed.

Lemma group_by_item_single (key : string) (sales : list SalesData) :
  sales <> [] ->
  (forall sale, In sale sales -> itemName sale = key) ->
  group_by_item sales = [(key, sales)].
Proof.
  destruct sales as [|sale rest]; [contradiction|]; intros _ H.
  unfold group_by_item; cbn [fold_left group_push].
  rewrite (H sale (or_introl eq_refl)).
  apply (group_push_same key [sale] rest). intros s Hs; apply H; right; assumption.
Qed.

Lemma map_constant {A B : Type} (f : A -> B) (c : B) (l : list A) :
  (forall x, In x l -> f x = c) -> map f l = repeat c (length l).
Proof.
  induction l as [|x l IH]; intros H; cbn; [reflexivity|].
  rewrite (H x (or_introl eq_refl)), IH; [reflexivity|].
  intros y Hy; apply H; right; assumption.
Qed.

Lemma sorted_flat_quantities (sales : list SalesData) :
  length sales = 10%nat ->
  (forall sale, In sale sales -> quantity sale = Fin 50) ->
  map quantity (sort_by_date sales) = map Fin flat_quantities.
Proof.
  intros Hlen H. rewrite (map_constant quantity (Fin 50)).
  - rewrite sort_by_date_length, Hlen; reflexivity.
  - intros sale Hin; apply H. unfold sort_by_date in Hin; apply sort_In in Hin; exact Hin.
Qed.

Lemma round_Fin (x : R) (z : Z) :
  (IZR z <= x + / 2 < IZR z + 1)%R -> Math_round (Fin x) = Fin (IZR z).
Proof.
  intros H; cbn [Math_round]; do 2 f_equal; symmetry.
  apply Int_part_spec; lra.
Qed.

Lemma flat_confidence_unfold (p : R) :
  Basic.calculateConfidence (map Fin flat_quantities) (Fin p)
  = Math_min (Fin (98/100)) (Math_max (Fin (3/10)) (Fin (exp (- Rabs (p - 50) / 2)))).
Proof.
  rewrite server_confidence_unfold.
  replace (length (map Fin flat_quantities) =? 0)%nat with false by reflexivity.
  cbv zeta.
  rewrite series_mean_Fin, series_stdDev_Fin by discriminate.
  rewrite flat_mean, flat_variance, sqrt_0, or_else_zero.
  rewrite div_Fin by lra. cbn [sub neg add Math_abs].
  rewrite max_Fin_r by lra. rewrite div_Fin by lra. cbn [neg]. rewrite div_Fin by lra.
  cbn [Math_exp mul]. do 3 f_equal.
  match goal with
  | |- (_ * exp ?a = exp ?b)%R => replace a with b by (unfold Rminus; field)
  end.
  lra.
Qed.

Lemma flat_confidence_on_mean :
  Basic.calculateConfidence (map Fin flat_quantities) (Fin 50) = Fin (98/100).
Proof.
  rewrite flat_confidence_unfold.
  replace (- Rabs (50 - 50) / 2)%R with 0%R
    by (replace (50 - 50)%R with 0%R by lra; rewrite Rabs_R0; lra).
  rewrite exp_0. rewrite max_Fin_r by lra. rewrite min_Fin_l by lra. reflexivity.
Qed.

Lemma exp_neg_bound (y : R) : (5/2 <= y)%R -> (exp (- y) < 3/10)%R.
Proof.
  intros H. rewrite exp_Ropp.
  assert (He : (1 + y <= exp y)%R) by apply exp_ineq1_le.
  assert (Hinv : (/ exp y <= / (1 + y))%R) by (apply Rinv_le_contravar; lra).
  assert (Hb : (/ (1 + y) <= / (7/2))%R) by (apply Rinv_le_contravar; lra).
  lra.
Qed.

Lemma flat_confidence_off_mean (p : R) :
  (5 <= Rabs (p - 50))%R ->
  Basic.calculateConfidence (map Fin flat_quantities) (Fin p) = Fin (3/10).
Proof.
  intros H. rewrite flat_confidence_unfold.
  assert (He : (exp (- Rabs (p - 50) / 2) < 3/10)%R).
  { replace (- Rabs (p - 50) / 2)%R with (- (Rabs (p - 50) / 2))%R by lra.
    apply exp_neg_bound; lra. }
  rewrite max_Fin_l by lra. rewrite min_Fin_r by lra. reflexivity.
Qed.

Lemma flat_forecast_item (options : Basic.ForecastingOptions) (tomorrow : JSDate)
  (st : Basic.Loop) (name : string) (sales : list SalesData) :
  length sales = 10%nat ->
  (forall sale, In sale sales -> quantity sale = Fin 50) ->
  Basic.l_predictions (Basic.forecast_item options tomorrow st (name, sales))
  = Basic.l_predictions st ++
    [Basic.mkPrediction name (first_category (sort_by_date sales))
       (Math_max (Fin 0) (Math_round (Fin 50 * Basic.getSeasonalMultiplier tomorrow)))
       (Basic.calculateConfidence (map Fin flat_quantities)
          (Math_round (Fin 50 * Basic.getSeasonalMultiplier tomorrow)))
       tomorrow (Basic.period options)].
Proof.
  intros Hlen Hq. unfold Basic.forecast_item.
  rewrite (sorted_flat_quantities sales Hlen Hq).
  replace (length (map Fin flat_quantities)) with 10%nat by reflexivity.
  cbn [Nat.eqb Nat.ltb Nat.leb Z.of_nat Pos.of_succ_nat Pos.succ].
  change (Z.min 7 10) with 7%Z.
  rewrite flat_moving_average, flat_linear_trend.
  replace (Fin 50 * Fin (6/10) + Fin 50 * Fin (4/10)) with (Fin 50)
    by (cbn [mul add]; f_equal; lra).
  reflexivity.
Qed.

Ltac flat_day z :=
  cbn [mul]; rewrite (round_Fin _ z) by lra;
  split; [reflexivity|];
  split; [apply max_Fin_r; lra|];
  first [ apply flat_confidence_on_mean
        | apply flat_confidence_off_mean; unfold Rabs; destruct (Rcase_abs _); lra ].

Lemma flat_prediction_by_day (tomorrow : JSDate) :
  (getDay tomorrow < 7)%nat ->
  let seasonalPrediction := Math_round (Fin 50 * Basic.getSeasonalMultiplier tomorrow) in
  seasonalPrediction = get flat_predictions (getDay tomorrow) /\
  Math_max (Fin 0) seasonalPrediction = seasonalPrediction /\
  Basic.calculateConfidence (map Fin flat_quantities) seasonalPrediction
  = if (getDay tomorrow =? 2)%nat then Fin (98/100) else Fin (3/10).
Proof.
  destruct tomorrow as [time day]; cbn [getDay]; intros Hday; cbv zeta.
  unfold Basic.getSeasonalMultiplier, flat_predictions, get; cbn [getDay].
  destruct day as [|[|[|[|[|[|[|day]]]]]]]; try lia; cbn [nth Nat.eqb].
  - flat_day 40%Z.
  - flat_day 45%Z.
  - flat_day 50%Z.
  - flat_day 55%Z.
  - flat_day 60%Z.
  - flat_day 70%Z.
  - flat_day 65%Z.
Qed.

Lemma flat_forecast (sales : list SalesData) (options : Basic.ForecastingOptions)
  (clock : nat -> JSDate) (name : string) :
  length sales = 10%nat ->
  (forall sale, In sale sales -> itemName sale = name /\ quantity sale = Fin 50) ->
  (getDay (clock 0%nat) < 7)%nat ->
  let tomorrow := clock 0%nat in
  exists p,
    Basic.predictions (Basic.generateForecasts sales options clock) = [p] /\
    Basic.p_itemName p = name /\
    Basic.predictedQuantity p = Math_round (Fin 50 * Basic.getSeasonalMultiplier tomorrow) /\
    Basic.predictedQuantity p = get flat_predictions (getDay tomorrow) /\
    Basic.confidence p
    = if (getDay tomorrow =? 2)%nat then Fin (98/100) else Fin (3/10).
Proof.
  intros Hlen Hall Hday; cbv zeta.
  unfold Basic.generateForecasts; cbn [Basic.predictions].
  rewrite (group_by_item_single name sales);
    [| intros ->; discriminate Hlen | intros sale Hin; apply (Hall sale Hin)].
  cbn [Basic.for_of].
  rewrite flat_forecast_item;
    [| assumption | intros sale Hin; apply (Hall sale Hin)].
  cbn [Basic.l_predictions app].
  destruct (flat_prediction_by_day (clock 0%nat) Hday) as (Hsp & Hmax & Hconf).
  eexists; split; [reflexivity|].
  cbn [Basic.p_itemName Basic.predictedQuantity Basic.confidence].
  rewrite Hmax, Hconf, <- Hsp. repeat split; reflexivity.
Qed.

Lemma flat_series_items (sale : SalesData) :
  In sale flat_series -> itemName sale = "X"%string /\ quantity sale = Fin 50.
Proof.
  unfold flat_series, flat_quantities, mapi; cbn [repeat mapi_from In].
  intros H; repeat (destruct H as [<- | H]; [split; reflexivity|]); contradiction.
Qed.

(** Claim C8, as the code has it: given a series of 10 observations of one
    item, each of quantity 50, the basic forecaster produces one prediction,
    whose predicted quantity is [round(50 * seasonalFactor)] for the factor
    of tomorrow's weekday in the table 0.8, 0.9, 1.0, 1.1, 1.2, 1.4, 1.3
    (Sunday to Saturday), that is 40, 45, 50, 55, 60, 70 or 65; its
    confidence is 0.98 when tomorrow is a Tuesday (factor 1.0, the
    prediction equals the mean) and 0.3 on every other weekday. *)
Theorem C8_flat_series_forecast (sales : list SalesData)
  (options : Basic.ForecastingOptions) (clock : nat -> JSDate) (name : string) :
  length sales = 10%nat ->
  (forall sale, In sale sales -> itemName sale = name /\ quantity sale = Fin 50) ->
  (getDay (clock 0%nat) < 7)%nat ->
  let tomorrow := clock 0%nat in
  exists p,
    Basic.predictions (Basic.generateForecasts sales options clock) = [p] /\
    Basic.p_itemName p = name /\
    Basic.predictedQuantity p = Math_round (Fin 50 * Basic.getSeasonalMultiplier tomorrow) /\
    Basic.predictedQuantity p = get flat_predictions (getDay tomorrow) /\
    Basic.confidence p
    = if (getDay tomorrow =? 2)%nat then Fin (98/100) else Fin (3/10).
Proof. exact (flat_forecast sales options clock name). Qed.

(** The flat series when tomorrow is a Tuesday. *)
Lemma C8_flat_series_forecast_witness :
  exists p,
    Basic.predictions
      (Basic.generateForecasts flat_series (Basic.mkOptions daily) (fun _ => tuesday)) = [p] /\
    Basic.predictedQuantity p = Fin 50 /\
    Basic.confidence p = Fin (98/100).
Proof.
  destruct (C8_flat_series_forecast flat_series (Basic.mkOptions daily) (fun _ => tuesday)
              "X" eq_refl flat_series_items (Nat.lt_le_trans 2 3 7 (le_n 3) ltac:(lia)))
    as (p & Hp & _ & _ & Hq & Hc).
  exists p; split; [exact Hp | split; [exact Hq | exact Hc]].
Defined.

(** Claim C8, as stated, fails: when tomorrow is a Sunday the prediction
    for the flat series of 50s is 40 and its confidence is 0.3, below 0.9. *)
Lemma C8_confidence_on_sunday :
  exists p,
    Basic.predictions
      (Basic.generateForecasts flat_series (Basic.mkOptions daily) (fun _ => sunday)) = [p] /\
    Basic.predictedQuantity p = Fin 40 /\
    (Basic.confidence p <? Fin (9/10)) = true.
Proof.
  destruct (flat_forecast flat_series (Basic.mkOptions daily) (fun _ => sunday)
              "X" eq_refl flat_series_items) as (p & Hp & _ & _ & Hq & Hc);
    [cbn; lia|].
  exists p; split; [exact Hp | split; [exact Hq|]].
  rewrite Hc; cbn [getDay sunday Nat.eqb]. apply lt_Fin_true; lra.
Qed.

(** * Further properties of the services *)

(** ** Differencing and the autoregressive forecast *)

Lemma difference_once_length (result : list num) :
  length (for_loop 1 (length result)
            (fun i diffed => diffed ++ [get result i - get result (i - 1)]) [])
  = (length result - 1)%nat.
Proof. rewrite for_loop_push; cbn [app]. rewrite length_map, length_seq; reflexivity. Qed.

(** Differencing [order] times shortens the series by [order] values, down
    to the empty series. *)
Theorem differenceData_length (data : list num) (order : nat) :
  length (Advanced.differenceData data order) = (length data - order)%nat.
Proof.
  unfold Advanced.differenceData.
  apply (for_loop_inv (fun k result => length result = (length data - k)%nat)); [lia | lia |].
  intros k result _ H. rewrite difference_once_length, H. lia.
Qed.

Lemma max_zero_not_negative (x : num) : not_negative (Math_max (Fin 0) x).
Proof.
  destruct x as [a| | |]; cbn; try exact I; try lra.
  unfold Rltb; destruct (Rlt_dec 0 a); cbn; lra.
Qed.

Lemma autoregressive_length (data : list num) (order : nat) :
  length (Advanced.autoregressive data order) = 1%nat.
Proof.
  unfold Advanced.autoregressive. destruct (length data <? order + 1)%nat; reflexivity.
Qed.



Lemma get_map_Fin_app (front : list R) (a b : R) :
  get (map Fin (front ++ [a; b])) (length front + 1) = Fin b /\
  get (map Fin (front ++ [a; b])) (length front) = Fin a.
Proof.
  split; rewrite get_map_Fin by (rewrite length_app; cbn; lia); f_equal.
  - rewrite app_nth2 by lia. replace (length front + 1 - length front)%nat with 1%nat by lia.
    reflexivity.
  - rewrite app_nth2 by lia. rewrite Nat.sub_diag. reflexivity.
Qed.

(** The once-differenced series ends with the last difference. *)
Lemma difference_once_last (front : list R) (a b : R) :
  exists init,
    Advanced.differenceData (map Fin (front ++ [a; b])) 1 = init ++ [Fin (b + - a)] /\
    length init = length front.
Proof.
  unfold Advanced.differenceData.
  rewrite (for_loop_step 0 0) by lia. rewrite (for_loop_empty 0 0) by lia.
  rewrite for_loop_push; cbn [app].
  rewrite length_map, length_app; cbn [length].
  replace (length front + 2 - 1)%nat with (length front + 1)%nat by lia.
  rewrite seq_app, map_app; cbn [seq map].
  eexists; split; [|rewrite length_map, length_seq; reflexivity].
  f_equal.
  replace (1 + length front - 1)%nat with (length front) by lia.
  replace (1 + length front)%nat with (length front + 1)%nat by lia.
  destruct (get_map_Fin_app front a b) as [-> ->]. reflexivity.
Qed.

(** With the default orders (1, 1, 1) the ARIMA forecast of a finite series
    of at least two values is the last difference of the series, floored
    at zero: the model forecasts the change, not the level. *)
Theorem arima_default_forecast (front : list R) (a b : R) (s : Random) :
  Advanced.predictions
    (fst (Advanced.calculateARIMA (map Fin (front ++ [a; b])) 1 1 1 s))
  = [Math_max (Fin 0) (Fin (b - a))].
Proof.
  unfold Advanced.calculateARIMA, bind.
  destruct (difference_once_last front a b) as (init & -> & Hinit).
  match goal with |- context [mapM ?f ?l s] => destruct (mapM f l s) as [c s1] end.
  cbn [ret fst Advanced.predictions].
  unfold Advanced.autoregressive. rewrite length_app; cbn [length].
  destruct (Nat.ltb_spec (length init + 1) (1 + 1)) as [Hshort | Hlong].
  - assert (init = []) as -> by (destruct init; [reflexivity | cbn in Hshort; lia]).
    cbn [app length].
    change (getZ [Fin (b + - a)] (Z.of_nat (0 + 1) - 1)) with (Fin (b + - a)).
    destruct (Req_dec_T (b + - a) 0) as [E | E].
    + rewrite E, or_else_zero. replace (b - a)%R with 0%R by lra. reflexivity.
    + rewrite or_else_Fin by assumption. reflexivity.
  - rewrite slice_last_pos by lia. rewrite length_app; cbn [length].
    replace (length init + 1 - Z.to_nat (Z.of_nat 1))%nat with (length init) by lia.
    rewrite skipn_app, Nat.sub_diag, skipn_all; cbn [skipn app].
    unfold mapi, reducei, len, of_nat, of_Z; cbn [mapi_from reducei_from get nth length map].
    cbn [Z.of_nat Pos.of_succ_nat add]. rewrite div_Fin by lra.
    cbn [mul add]. rewrite div_Fin by lra.
    do 3 f_equal. field.
Qed.

(** ** Model metrics: ranges *)

Lemma metrics_accuracy_cases (actual predicted : list num) :
  Advanced.accuracy (Advanced.calculateMetrics actual predicted) = NaN \/
  exists a, Advanced.accuracy (Advanced.calculateMetrics actual predicted) = Fin a /\
            (0 <= a <= 1)%R.
Proof.
  unfold Advanced.calculateMetrics.
  destruct (Nat.min (length actual) (length predicted) =? 0)%nat.
  - right; exists (1/2)%R; split; [reflexivity | lra].
  - cbn [Advanced.accuracy].
    apply accuracy_cases, div_not_negative, metrics_mape_not_negative.
Qed.

(** Whatever the sequences, the accuracy the metrics report is [NaN] or
    lies between 0 and 1, and the weight the weighted ensemble derives from
    it, [accuracy || 0.5], is a positive real of at most 1: the sum of the
    weights of a step is never zero. *)
Theorem metrics_weight_positive (actual predicted : list num) :
  exists w,
    (Advanced.accuracy (Advanced.calculateMetrics actual predicted) || Fin (1/2)) = Fin w /\
    (0 < w <= 1)%R.
Proof.
  destruct (metrics_accuracy_cases actual predicted) as [-> | (a & -> & Ha)].
  - exists (1/2)%R; split; [reflexivity | lra].
  - destruct (Req_dec_T a 0) as [-> | Hne].
    + rewrite or_else_zero. exists (1/2)%R; split; [reflexivity | lra].
    + rewrite or_else_Fin by assumption. exists a; split; [reflexivity | lra].
Qed.

(** ** Model metrics of a perfect prediction *)

Lemma abs_sub_self (x : R) : Math_abs (Fin x - Fin x) = Fin 0.
Proof.
  cbn [sub neg add Math_abs]. replace (x + - x)%R with 0%R by lra.
  rewrite Rabs_R0; reflexivity.
Qed.

Lemma metrics_loop_perfect (rs : list R) (n : nat) :
  (n <= length rs)%nat ->
  for_loop 0 n
    (fun i acc =>
       Advanced.mkErrors
         (Advanced.e_mae acc + Math_abs (get (map Fin rs) i - get (map Fin rs) i))
         (Advanced.e_mse acc
          + Math_abs (get (map Fin rs) i - get (map Fin rs) i)
            * Math_abs (get (map Fin rs) i - get (map Fin rs) i))
         (if negb (strict_eq (get (map Fin rs) i) (Fin 0))
          then Advanced.e_mape acc
               + Math_abs (Math_abs (get (map Fin rs) i - get (map Fin rs) i)
                           / get (map Fin rs) i)
          else Advanced.e_mape acc))
    (Advanced.mkErrors (Fin 0) (Fin 0) (Fin 0))
  = Advanced.mkErrors (Fin 0) (Fin 0) (Fin 0).
Proof.
  intros Hn.
  apply (for_loop_inv
           (fun _ acc => acc = Advanced.mkErrors (Fin 0) (Fin 0) (Fin 0)));
    [lia | reflexivity |].
  intros i acc Hi ->. cbv zeta.
  rewrite get_map_Fin by lia. rewrite abs_sub_self.
  cbn [Advanced.e_mae Advanced.e_mse Advanced.e_mape add mul strict_eq].
  replace (0 + 0)%R with 0%R by lra. replace (0 + 0 * 0)%R with 0%R by lra.
  f_equal.
  destruct (Req_dec_T (nth i rs 0%R) 0) as [E | E].
  - rewrite Reqb_true by assumption. reflexivity.
  - rewrite Reqb_false by assumption. cbn [negb]. rewrite div_Fin by assumption.
    cbn [Math_abs add]. f_equal.
    replace (0 / nth i rs 0)%R with 0%R by (field; assumption).
    rewrite Rabs_R0. lra.
Qed.

Lemma residual_zero (pre suf : list R) :
  reducei_from
    (fun sum val i => sum + Math_pow2 (val - get (map Fin (pre ++ suf)) i))
    (map Fin suf) (length pre) (Fin 0)
  = Fin 0.
Proof.
  revert pre; induction suf as [|x suf IH]; intros pre; cbn [map reducei_from];
    [reflexivity|].
  rewrite get_map_Fin by (rewrite length_app; cbn; lia).
  rewrite app_nth2, Nat.sub_diag by lia. cbn [nth sub neg add Math_pow2 mul].
  replace (0 + (x + - x) * (x + - x))%R with 0%R by ring.
  specialize (IH (pre ++ [x])).
  rewrite <- app_assoc, length_app in IH. cbn [app length] in IH.
  replace (length pre + 1)%nat with (S (length pre)) in IH by lia.
  exact IH.
Qed.

(** When the predictions equal the observed values (finite, at least one)
    the metrics report no error and full scores, and an Akaike criterion of
    [-Infinity], the logarithm of a zero mean squared error. *)
Theorem metrics_perfect_prediction (rs : list R) :
  rs <> [] ->
  Advanced.calculateMetrics (map Fin rs) (map Fin rs)
  = Advanced.mkMetrics (Fin 0) (Fin 0) (Fin 0) (Fin 1) NInf
      (Fin 1) (Fin 1) (Fin 1) (Fin 1).
Proof.
  intros Hne. unfold Advanced.calculateMetrics.
  rewrite Nat.min_id, length_map.
  destruct (Nat.eqb_spec (length rs) 0) as [E | _];
    [destruct rs; [contradiction | discriminate E]|].
  cbv zeta. rewrite (metrics_loop_perfect rs (length rs) (le_n _)).
  cbn [Advanced.e_mae Advanced.e_mse Advanced.e_mape].
  assert (Hn : (0 < IZR (Z.of_nat (length rs)))%R) by (apply (Rlen_pos rs Hne)).
  unfold of_nat, of_Z. rewrite div_Fin by lra.
  replace (0 / IZR (Z.of_nat (length rs)))%R with 0%R by (field; lra).
  rewrite sum_Fin, div_Fin by lra. rewrite sumsq_Fin.
  unfold reducei. pose proof (residual_zero [] rs) as Hres.
  cbn [app length] in Hres. rewrite Hres.
  f_equal.
  - cbn [Math_sqrt]. rewrite Rltb_false by lra. rewrite sqrt_0. reflexivity.
  - cbn [strict_eq].
    match goal with |- context [Reqb ?t 0] => destruct (Req_dec_T t 0) as [E | E] end.
    + rewrite Reqb_true by assumption. reflexivity.
    + rewrite Reqb_false by assumption. rewrite div_Fin by assumption.
      cbn [sub neg add]. f_equal. field. assumption.
  - cbn [Math_log]. rewrite Rltb_false by lra. rewrite Reqb_true by reflexivity.
    cbn [mul]. unfold signed_inf. rewrite Reqb_false by lra. rewrite Rltb_false by lra.
    reflexivity.
  - cbn [sub neg add]. rewrite max_Fin_r by lra. f_equal; lra.
  - cbn [sub neg add]. rewrite max_Fin_r by lra. rewrite max_Fin_r by lra. f_equal; lra.
  - cbn [sub neg add]. rewrite max_Fin_r by lra. rewrite max_Fin_r by lra. f_equal; lra.
  - cbn [sub neg add]. rewrite max_Fin_r by lra. rewrite max_Fin_r by lra.
    cbn [mul add]. rewrite div_Fin by lra. f_equal. field.
Qed.

Lemma metrics_perfect_prediction_witness :
  Advanced.aic (Advanced.calculateMetrics (map Fin flat_quantities) (map Fin flat_quantities))
  = NInf.
Proof.
  rewrite (metrics_perfect_prediction flat_quantities); [reflexivity | discriminate].
Defined.

(** ** Model metrics of finite sequences *)






(** ** Holt-Winters *)

Lemma get_new_Array (n i : nat) : get (new_Array n) i = NaN.
Proof.
  unfold get, new_Array. revert i; induction n as [|n IH]; intros [|i]; cbn; auto.
Qed.

Lemma mul_NaN_r (x : num) : x * NaN = NaN.
Proof. destruct x; reflexivity. Qed.

Lemma add_NaN_r (x : num) : x + NaN = NaN.
Proof. destruct x; reflexivity. Qed.

(** The forecast loop of Holt-Winters, whatever the state it starts from. *)
Lemma holt_winters_forecasts (forecast : nat -> num) :
  let out :=
    for_loop 1 (7 + 1)
      (fun h out =>
         (fst out ++ [Math_max (Fin 0) (forecast h)],
          snd out ++ [Math_max (Fin (1/2)) (Fin (9/10) - of_nat h * Fin (5/100))]))
      ([], []) in
  fst out = map (fun h => Math_max (Fin 0) (forecast h)) (seq 1 7) /\
  snd out = map Fin [85/100; 80/100; 75/100; 70/100; 65/100; 60/100; 55/100]%R.
Proof.
  cbv zeta; unfold for_loop; cbn [Nat.add Nat.sub seq fold_left fst snd app map].
  split; [reflexivity|].
  unfold of_nat, of_Z; cbn [Z.of_nat Pos.of_succ_nat Pos.succ mul sub neg add].
  rewrite !max_Fin_r by lra.
  repeat (f_equal; try lra).
Qed.

(** On a series of at least twice the season length Holt-Winters makes 7
    forecasts, none negative, with the confidences 0.85, 0.80, 0.75, 0.70,
    0.65, 0.60 and 0.55, whatever the data. *)
Theorem holt_winters_horizon (data : list num) (alpha beta gamma : num) (seasonLength : nat) :
  (seasonLength * 2 <= length data)%nat ->
  let m := Advanced.calculateExponentialSmoothing data alpha beta gamma seasonLength in
  Advanced.name m = "Holt-Winters"%string /\
  length (Advanced.predictions m) = 7%nat /\
  Forall not_negative (Advanced.predictions m) /\
  Advanced.confidence m
  = map Fin [85/100; 80/100; 75/100; 70/100; 65/100; 60/100; 55/100]%R.
Proof.
  intros Hlen; cbv zeta; unfold Advanced.calculateExponentialSmoothing.
  destruct (Nat.ltb_spec (length data) (seasonLength * 2)) as [Hlt | _]; [lia|].
  cbv zeta. cbn [Advanced.name Advanced.predictions Advanced.confidence].
  match goal with
  | |- context [for_loop 1 (7 + 1) (fun h out => (fst out ++ [Math_max (Fin 0) (@?f h)], _)) _] =>
      destruct (holt_winters_forecasts f) as [Hp Hc]
  end.
  cbv zeta in Hp, Hc. rewrite Hp, Hc.
  split; [reflexivity|]. split; [reflexivity|]. split; [|reflexivity].
  apply Forall_map, Forall_forall. intros h _. apply max_zero_not_negative.
Qed.

Lemma holt_winters_horizon_witness :
  length (Advanced.predictions
            (Advanced.calculateExponentialSmoothing
               (map Fin (repeat 50%R 14)) (Fin (3/10)) (Fin (3/10)) (Fin (3/10)) 7))
  = 7%nat.
Proof.
  apply (holt_winters_horizon (map Fin (repeat 50%R 14)) (Fin (3/10)) (Fin (3/10))
           (Fin (3/10)) 7).
  cbn; lia.
Defined.

(** On a series of exactly twice the season length (14 observations with
    the season length 7 of the pipeline) the first Holt-Winters forecast
    is [NaN]: it multiplies by [seasonal[seasonLength]], the one element of
    the seasonal array that neither loop assigns. *)
Lemma hw_unassigned_seasonal
  (data : list num) (alpha beta gamma : num) (seasonLength : nat) :
  (0 < seasonLength)%nat -> length data = (seasonLength * 2)%nat ->
  get (Advanced.predictions
         (Advanced.calculateExponentialSmoothing data alpha beta gamma seasonLength)) 0
  = NaN.
Proof.
  intros Hsl Hlen; unfold Advanced.calculateExponentialSmoothing.
  destruct (Nat.ltb_spec (length data) (seasonLength * 2)) as [Hlt | _]; [lia|].
  cbv zeta. cbn [Advanced.predictions].
  match goal with
  | |- context [@for_loop Advanced.HW 1 (length data) ?body ?init] =>
      assert (Hhole : get (Advanced.hw_seasonal (for_loop 1 (length data) body init))
                        seasonLength = NaN);
      [| set (st := for_loop 1 (length data) body init) in * ]
  end.
  { apply (for_loop_inv
             (fun _ st => get (Advanced.hw_seasonal st) seasonLength = NaN)); [lia | |].
    - cbn [Advanced.hw_seasonal].
      apply (for_loop_inv (fun _ seasonal => get seasonal seasonLength = NaN)); [lia | |].
      + apply get_new_Array.
      + intros i seasonal Hi H. rewrite get_set_neq by lia. exact H.
    - intros i st Hi H. cbn [Advanced.hw_seasonal]. rewrite get_set_neq by lia. exact H. }
  match goal with
  | |- context [for_loop 1 (7 + 1) (fun h out => (fst out ++ [Math_max (Fin 0) (@?f h)], _)) _] =>
      destruct (holt_winters_forecasts f) as [Hp _]
  end.
  cbv zeta in Hp. rewrite Hp. cbn [seq map get nth].
  unfold rem. destruct (Nat.eqb_spec seasonLength 0) as [E | _]; [lia|].
  replace (length data - 1 + 1)%nat with (2 * seasonLength)%nat by lia.
  rewrite Nat.Div0.mod_mul.
  replace (length data - seasonLength + 0)%nat with seasonLength by lia.
  rewrite Hhole, mul_NaN_r. reflexivity.
Qed.

(** ** The ensemble *)

Lemma ensemble_loop (P C : nat -> num) (n : nat) :
  for_loop 0 n
    (fun i out =>
       Advanced.mkEnsemble (Advanced.e_predictions out ++ [P i])
                           (Advanced.e_confidence out ++ [C i]))
    (Advanced.mkEnsemble [] [])
  = Advanced.mkEnsemble (map P (seq 0 n)) (map C (seq 0 n)).
Proof.
  induction n as [|n IH]; [reflexivity|].
  rewrite for_loop_step by lia. rewrite IH. cbn [Advanced.e_predictions Advanced.e_confidence].
  rewrite seq_S, !map_app. reflexivity.
Qed.

Lemma clamp_unit (x : num) : unit_or_NaN (Math_min (Fin 1) (Math_max (Fin 0) x)).
Proof.
  destruct x as [a| | |]; cbn; try exact I; try lra.
  - unfold Rltb. destruct (Rlt_dec 0 a); cbn; unfold Rltb.
    + destruct (Rlt_dec a 1); cbn; lra.
    + destruct (Rlt_dec 0 1); cbn; lra.
  - unfold Rltb. destruct (Rlt_dec 0 1); cbn; lra.
Qed.

(** The ensemble has one prediction and one confidence per forecast step,
    as many as the longest prediction sequence among the models (none for
    no models); the predictions are never negative and the confidences lie
    in the unit interval, unless they are [NaN]. *)
Lemma ensemble_shape_aux (models : list Advanced.ForecastModel)
  (method : option Advanced.EnsembleMethod) :
  let e := Advanced.createEnsemble models method in
  length (Advanced.e_predictions e) = longest_prediction models /\
  length (Advanced.e_confidence e) = longest_prediction models /\
  Forall not_negative (Advanced.e_predictions e) /\
  Forall unit_or_NaN (Advanced.e_confidence e).
Proof.
  cbv zeta; unfold Advanced.createEnsemble.
  destruct models as [|first rest]; [cbn; repeat split; constructor|].
  fold (longest_prediction (first :: rest)).
  match goal with
  | |- context [for_loop 0 ?n
                  (fun i out =>
                     Advanced.mkEnsemble (_ ++ [Math_max (Fin 0) (@?p i)])
                       (_ ++ [Math_min (Fin 1) (Math_max (Fin 0) (@?c i))])) _] =>
      rewrite (ensemble_loop (fun i => Math_max (Fin 0) (p i))
                 (fun i => Math_min (Fin 1) (Math_max (Fin 0) (c i))) n)
  end.
  cbn [Advanced.e_predictions Advanced.e_confidence].
  rewrite !length_map, !length_seq. repeat split.
  - apply Forall_map, Forall_forall; intros i _; apply max_zero_not_negative.
  - apply Forall_map, Forall_forall; intros i _; apply clamp_unit.
Qed.

(** ** The best model *)

Lemma accuracy_or_zero_not_NaN (m : Advanced.ForecastModel) : accuracy_or_zero m <> NaN.
Proof.
  unfold accuracy_or_zero, or_else.
  destruct (Advanced.accuracy (Advanced.metrics m)) as [a| | |]; cbn; try discriminate.
  destruct (Reqb a 0); cbn; discriminate.
Qed.

Lemma lt_false_trans (b c x : num) :
  x <> NaN -> b <> NaN -> c <> NaN ->
  (b <? x) = false -> (b <? c) = true -> (c <? x) = false.
Proof.
  intros Hx Hb Hc.
  destruct b as [b| | |], c as [c| | |], x as [x| | |]; cbn; try congruence.
  unfold Rltb. destruct (Rlt_dec b x), (Rlt_dec b c), (Rlt_dec c x); try congruence; lra.
Qed.

Lemma lt_irrefl (x : num) : (x <? x) = false.
Proof. destruct x as [a| | |]; cbn; try reflexivity. apply Rltb_false; lra. Qed.

Lemma pick_best_fold (rest seen : list Advanced.ForecastModel) (best : Advanced.ForecastModel) :
  In best seen ->
  (forall m, In m seen -> (accuracy_or_zero m >? accuracy_or_zero best) = false) ->
  let b := fold_left
             (fun best current =>
                if accuracy_or_zero current >? accuracy_or_zero best then current else best)
             rest best in
  In b (seen ++ rest) /\
  forall m, In m (seen ++ rest) -> (accuracy_or_zero m >? accuracy_or_zero b) = false.
Proof.
  revert seen best; induction rest as [|cur rest IH]; intros seen best Hin Hmax; cbv zeta.
  - rewrite app_nil_r; cbn; auto.
  - cbn [fold_left]. replace (seen ++ cur :: rest) with ((seen ++ [cur]) ++ rest)
      by (rewrite <- app_assoc; reflexivity).
    destruct (accuracy_or_zero cur >? accuracy_or_zero best) eqn:E.
    + apply IH; [apply in_or_app; right; left; reflexivity|].
      intros m Hm; apply in_app_or in Hm as [Hm | [<- | []]].
      * unfold gt in *. apply (lt_false_trans (accuracy_or_zero best));
          auto using accuracy_or_zero_not_NaN.
      * apply lt_irrefl.
    + apply IH; [apply in_or_app; left; assumption|].
      intros m Hm; apply in_app_or in Hm as [Hm | [<- | []]]; auto.
Qed.

(** The best model of a non-empty list is one of the list, and no model
    of the list has a higher accuracy, an accuracy of [NaN] counting as 0. *)
Lemma pick_best_aux (first : Advanced.ForecastModel)
  (rest : list Advanced.ForecastModel) :
  let best := Advanced.pick_best (first :: rest) first in
  In best (first :: rest) /\
  forall m, In m (first :: rest) ->
    (accuracy_or_zero m >? accuracy_or_zero best) = false.
Proof.
  cbv zeta; unfold Advanced.pick_best, reduce1.
  apply (pick_best_fold rest [first] first); [left; reflexivity|].
  intros m [<- | []]; apply lt_irrefl.
Qed.

(** ** A [NaN] prediction in the ensemble *)

Lemma get_map_seq (P : nat -> num) (n i : nat) :
  (i < n)%nat -> get (map P (seq 0 n)) i = P i.
Proof.
  intros H; unfold get.
  rewrite (nth_indep _ NaN (P 0%nat)) by (rewrite length_map, length_seq; assumption).
  rewrite (map_nth P), seq_nth by assumption. reflexivity.
Qed.

Lemma longest_prediction_bound (models : list Advanced.ForecastModel)
  (m : Advanced.ForecastModel) :
  In m models -> (length (Advanced.predictions m) <= longest_prediction models)%nat.
Proof.
  unfold longest_prediction; induction models as [|m' models IH]; intros Hin;
    [destruct Hin|].
  cbn [map fold_right]. destruct Hin as [<- | Hin]; [lia|]. specialize (IH Hin). lia.
Qed.

Lemma weighted_fold_NaN (i : nat) (models : list Advanced.ForecastModel)
  (acc : Advanced.Step) (m : Advanced.ForecastModel) :
  Advanced.ensemblePred acc = NaN \/
  (In m models /\ (i < length (Advanced.predictions m))%nat /\
   get (Advanced.predictions m) i = NaN) ->
  Advanced.ensemblePred
    (fold_left
       (fun acc model =>
          if (i <? length (Advanced.predictions model))%nat
          then
            Advanced.mkStep
              (Advanced.ensemblePred acc
               + get (Advanced.predictions model) i
                 * (Advanced.accuracy (Advanced.metrics model) || Fin (1/2)))
              (Advanced.ensembleConf acc
               + get (Advanced.confidence model) i
                 * (Advanced.accuracy (Advanced.metrics model) || Fin (1/2)))
              (Advanced.totalWeight acc
               + (Advanced.accuracy (Advanced.metrics model) || Fin (1/2)))
          else acc)
       models acc)
  = NaN.
Proof.
  revert acc; induction models as [|model models IH]; intros acc H; cbn [fold_left].
  - destruct H as [H | (Hin & _)]; [exact H | destruct Hin].
  - apply IH. destruct H as [H | ([<- | Hin] & Hi & Hnan)].
    + left. destruct (i <? length (Advanced.predictions model))%nat; [|exact H].
      cbn [Advanced.ensemblePred]. rewrite H. reflexivity.
    + left. apply Nat.ltb_lt in Hi; rewrite Hi. cbn [Advanced.ensemblePred].
      rewrite Hnan. cbn [mul]. apply add_NaN_r.
    + right; auto.
Qed.

Lemma average_fold_NaN (i : nat) (models : list Advanced.ForecastModel) (acc : num)
  (m : Advanced.ForecastModel) :
  acc = NaN \/ (In m models /\ get (Advanced.predictions m) i = NaN) ->
  reduce (fun sum m => sum + get (Advanced.predictions m) i) models acc = NaN.
Proof.
  unfold reduce; revert acc; induction models as [|model models IH]; intros acc H;
    cbn [fold_left].
  - destruct H as [H | (Hin & _)]; [exact H | destruct Hin].
  - apply IH. destruct H as [-> | ([<- | Hin] & Hnan)].
    + left; reflexivity.
    + left. rewrite Hnan. apply add_NaN_r.
    + right; auto.
Qed.

(** Under the [average] and [weighted] policies one model's [NaN]
    prediction at a step makes the ensemble prediction of that step [NaN]:
    the flooring at zero does not remove it. *)
Lemma ensemble_NaN_aux (models : list Advanced.ForecastModel)
  (method : option Advanced.EnsembleMethod) (m : Advanced.ForecastModel) (i : nat) :
  In m models -> (i < length (Advanced.predictions m))%nat ->
  get (Advanced.predictions m) i = NaN ->
  method <> Some Advanced.best_performer ->
  get (Advanced.e_predictions (Advanced.createEnsemble models method)) i = NaN.
Proof.
  intros Hin Hi Hnan Hmethod. unfold Advanced.createEnsemble.
  destruct models as [|first rest]; [contradiction|].
  fold (longest_prediction (first :: rest)).
  pose proof (longest_prediction_bound _ _ Hin) as Hmax.
  match goal with
  | |- context [for_loop 0 ?n
                  (fun i out =>
                     Advanced.mkEnsemble (_ ++ [Math_max (Fin 0) (@?p i)])
                       (_ ++ [Math_min (Fin 1) (Math_max (Fin 0) (@?c i))])) _] =>
      rewrite (ensemble_loop (fun i => Math_max (Fin 0) (p i))
                 (fun i => Math_min (Fin 1) (Math_max (Fin 0) (c i))) n)
  end.
  cbn [Advanced.e_predictions]. rewrite get_map_seq by lia.
  assert (Hcases : method = None \/ method = Some Advanced.weighted \/
                   method = Some Advanced.average).
  { destruct method as [[| |]|]; auto. contradiction. }
  destruct Hcases as [-> | [-> | ->]]; cbv beta zeta.
  - match goal with |- context [if (?b >? Fin 0) then _ else _] => destruct (b >? Fin 0) end;
      cbn [Advanced.ensemblePred];
      rewrite (weighted_fold_NaN i (first :: rest) _ m) by (right; auto); reflexivity.
  - match goal with |- context [if (?b >? Fin 0) then _ else _] => destruct (b >? Fin 0) end;
      cbn [Advanced.ensemblePred];
      rewrite (weighted_fold_NaN i (first :: rest) _ m) by (right; auto); reflexivity.
  - cbn [Advanced.ensemblePred].
    rewrite (average_fold_NaN i _ _ m); [reflexivity|].
    right; split; [|assumption].
    apply filter_In; split; [assumption | apply Nat.ltb_lt; assumption].
Qed.

(** ** The bundles of the advanced pipeline *)

Lemma forecast_item_bundle (options : Advanced.AdvancedForecastOptions)
  (results : list Advanced.AdvancedForecastResult) (key : string)
  (sales : list SalesData) (s : Random) :
  (7 <= length sales)%nat ->
  exists s1 external,
    fst (Advanced.forecast_item options results (key, sales) s)
    = results ++
      [bundle options key sales
         (fst (Advanced.calculateARIMA (sorted_quantities sales) 1 1 1 s))
         (fst (Advanced.calculateNeuralNetworkForecast (sorted_quantities sales) 5 s1))
         external].
Proof.
  intros Hge. unfold Advanced.forecast_item.
  rewrite length_map, sort_by_date_length.
  destruct (Nat.ltb_spec (length sales) 7) as [Hlt | _]; [lia|].
  unfold bind, sorted_quantities.
  destruct (Advanced.calculateARIMA (map quantity (sort_by_date sales)) 1 1 1 s)
    as [m_arima s1].
  exists s1.
  destruct (Advanced.calculateNeuralNetworkForecast (map quantity (sort_by_date sales)) 5 s1)
    as [m_neural s2].
  cbn [Math_random ret fst]. eexists. reflexivity.
Qed.

Lemma for_of_bundles (options : Advanced.AdvancedForecastOptions)
  (entries : ItemGroups) (results : list Advanced.AdvancedForecastResult) (s : Random) :
  exists bundles,
    fst (Advanced.for_of (Advanced.forecast_item options) entries results s)
    = results ++ bundles /\
    map Advanced.r_itemName bundles
    = map fst (filter (fun entry => 7 <=? length (snd entry))%nat entries) /\
    forall r, In r bundles ->
      exists key sales s0 s1 external,
        In (key, sales) entries /\ (7 <= length sales)%nat /\
        r = bundle options key sales
              (fst (Advanced.calculateARIMA (sorted_quantities sales) 1 1 1 s0))
              (fst (Advanced.calculateNeuralNetworkForecast (sorted_quantities sales) 5 s1))
              external.
Proof.
  revert results s; induction entries as [|[key sales] rest IH]; intros results s;
    cbn [Advanced.for_of].
  - exists []. rewrite app_nil_r. split; [reflexivity|]. split; [reflexivity|].
    intros r Hr; destruct Hr.
  - unfold bind.
    pose proof (forecast_item_results options results key sales s) as Hskip.
    pose proof (forecast_item_bundle options results key sales s) as Hpush.
    cbv zeta in Hskip.
    destruct (Advanced.forecast_item options results (key, sales) s) as [results' s'].
    cbn [fst] in Hskip, Hpush.
    destruct (IH results' s') as (bundles & Heq & Hnames & Hall). rewrite Heq.
    cbn [filter snd].
    destruct (Nat.leb_spec 7 (length sales)) as [Hge | Hlt].
    + destruct (Hpush Hge) as (s1 & external & ->).
      eexists (_ :: bundles). rewrite <- app_assoc. split; [reflexivity|].
      split; [cbn [map fst bundle Advanced.r_itemName]; rewrite Hnames; reflexivity|].
      intros r [<- | Hr].
      * exists key, sales, s, s1, external. repeat split; [left; reflexivity | assumption].
      * destruct (Hall r Hr) as (k & l & s0 & s2 & ext & Hin & Hl & Hb).
        exists k, l, s0, s2, ext. repeat split; [right; assumption | assumption..].
    + destruct Hskip as [[_ ->] | [Hge _]]; [|lia].
      exists bundles. split; [reflexivity|]. split; [assumption|].
      intros r Hr. destruct (Hall r Hr) as (k & l & s0 & s2 & ext & Hin & Hl & Hb).
      exists k, l, s0, s2, ext. repeat split; [right; assumption | assumption..].
Qed.

Lemma pipeline_bundles (salesData : list SalesData)
  (options : Advanced.AdvancedForecastOptions) (s : Random) :
  let results := fst (Advanced.generateAdvancedForecasts salesData options s) in
  map Advanced.r_itemName results
  = map fst (filter (fun entry => 7 <=? length (snd entry))%nat (group_by_item salesData)) /\
  forall r, In r results ->
    exists s0 s1 external,
      let sales := observations_of (Advanced.r_itemName r) salesData in
      (7 <= length sales)%nat /\
      r = bundle options (Advanced.r_itemName r) sales
            (fst (Advanced.calculateARIMA (sorted_quantities sales) 1 1 1 s0))
            (fst (Advanced.calculateNeuralNetworkForecast (sorted_quantities sales) 5 s1))
            external.
Proof.
  cbv zeta; unfold Advanced.generateAdvancedForecasts.
  destruct (for_of_bundles options (group_by_item salesData) [] s)
    as (bundles & -> & Hnames & Hall).
  cbn [app]. split; [assumption|].
  intros r Hr. destruct (Hall r Hr) as (key & sales & s0 & s1 & external & Hin & Hlen & ->).
  destruct (group_by_item_grouped salesData) as (_ & Hobs & _).
  cbn [bundle Advanced.r_itemName]. rewrite <- (Hobs _ _ Hin).
  exists s0, s1, external. split; [assumption | reflexivity].
Qed.

Lemma NoDup_map_filter {A B : Type} (f : A -> B) (P : A -> bool) (l : list A) :
  NoDup (map f l) -> NoDup (map f (filter P l)).
Proof.
  induction l as [|x l IH]; cbn [map filter]; intros H; [constructor|].
  inversion H as [|? ? Hnot Hnd]; subst.
  destruct (P x); cbn [map]; [|apply IH; assumption].
  constructor; [|apply IH; assumption].
  intros Hin; apply Hnot. apply in_map_iff in Hin as (y & Hy & Hin).
  apply filter_In in Hin as [Hin _]. apply in_map_iff; exists y; auto.
Qed.

(** The advanced pipeline returns exactly one bundle for every item with
    at least 7 observations in the batch, and none for any other item. *)
Theorem pipeline_one_bundle_per_item (salesData : list SalesData)
  (options : Advanced.AdvancedForecastOptions) (s : Random) :
  let names :=
    map Advanced.r_itemName (fst (Advanced.generateAdvancedForecasts salesData options s)) in
  NoDup names /\
  forall item, In item names <-> (7 <= length (observations_of item salesData))%nat.
Proof.
  cbv zeta. destruct (pipeline_bundles salesData options s) as [-> _].
  destruct (group_by_item_grouped salesData) as (Hnd & Hobs & Hcover).
  split; [apply NoDup_map_filter; assumption|].
  intros item; split.
  - intros Hin. apply in_map_iff in Hin as ([key sales] & <- & Hin).
    apply filter_In in Hin as [Hin Hlen]. cbn [fst snd] in *.
    apply Nat.leb_le in Hlen. rewrite <- (Hobs _ _ Hin). assumption.
  - intros Hlen.
    destruct (observations_of item salesData) as [|sale rest] eqn:E; [cbn in Hlen; lia|].
    assert (Hsale : In sale (observations_of item salesData)) by (rewrite E; left; reflexivity).
    unfold observations_of in Hsale. apply filter_In in Hsale as [Hsale Hname].
    apply String.eqb_eq in Hname.
    pose proof (Hcover sale Hsale) as Hkey. rewrite <- Hname in Hkey.
    apply in_map_iff in Hkey as ([key sales] & Hk & Hin). cbn [fst] in Hk; subst key.
    apply in_map_iff. exists (item, sales). split; [reflexivity|].
    apply filter_In. split; [assumption|]. cbn [snd]. apply Nat.leb_le.
    rewrite (Hobs _ _ Hin), E. assumption.
Qed.

Lemma arima_default_shape (data : list num) (s : Random) :
  let m := fst (Advanced.calculateARIMA data 1 1 1 s) in
  Advanced.name m = "ARIMA(1,1,1)"%string /\ length (Advanced.predictions m) = 1%nat.
Proof.
  cbv zeta; unfold Advanced.calculateARIMA, bind.
  match goal with |- context [mapM ?f ?l s] => destruct (mapM f l s) as [c s1] end.
  cbn [ret fst Advanced.name Advanced.predictions].
  rewrite length_map, autoregressive_length. split; reflexivity.
Qed.

Lemma neural_shape (data : list num) (s : Random) :
  (6 <= length data)%nat ->
  let m := fst (Advanced.calculateNeuralNetworkForecast data 5 s) in
  Advanced.name m = "Neural Network"%string /\ length (Advanced.predictions m) = 1%nat.
Proof.
  intros Hlen; cbv zeta; unfold Advanced.calculateNeuralNetworkForecast.
  destruct (Nat.ltb_spec (length data) (5 + 1)) as [Hlt | _]; [lia|].
  unfold bind.
  match goal with |- context [mapM ?f ?l s] => destruct (mapM f l s) as [w s1] end.
  destruct (Math_random s1) as [r s2]. split; reflexivity.
Qed.

Lemma smoothing_shape (data : list num) :
  let m :=
    Advanced.calculateExponentialSmoothing data (Fin (3/10)) (Fin (3/10)) (Fin (3/10)) 7 in
  Advanced.name m
  = (if (14 <=? length data)%nat then "Holt-Winters" else "Simple Exponential Smoothing")%string
  /\ length (Advanced.predictions m) = (if (14 <=? length data)%nat then 7 else 1)%nat.
Proof.
  cbv zeta; unfold Advanced.calculateExponentialSmoothing.
  destruct (Nat.ltb_spec (length data) (7 * 2)) as [Hlt | Hge];
    destruct (Nat.leb_spec 14 (length data)) as [Hge' | Hlt']; try lia.
  - split; reflexivity.
  - cbv zeta. cbn [Advanced.name Advanced.predictions].
    match goal with
    | |- context [for_loop 1 (7 + 1)
                    (fun h out => (fst out ++ [Math_max (Fin 0) (@?f h)], _)) _] =>
        destruct (holt_winters_forecasts f) as [Hp _]
    end.
    cbv zeta in Hp. rewrite Hp. split; reflexivity.
Qed.

(** Every bundle of the advanced pipeline has three models, the ARIMA
    model, then Holt-Winters for an item with at least 14 observations and
    simple exponential smoothing below that, then the neural network; its
    best model is one of the three and none of them has a higher accuracy;
    the ensemble has 7 steps with Holt-Winters and 1 without; the
    decomposition has one value per observation; at most 5 anomalies are
    kept; the horizon is the one of the options. *)
Theorem pipeline_bundle_shape (salesData : list SalesData)
  (options : Advanced.AdvancedForecastOptions) (s : Random)
  (r : Advanced.AdvancedForecastResult) :
  In r (fst (Advanced.generateAdvancedForecasts salesData options s)) ->
  let n := length (observations_of (Advanced.r_itemName r) salesData) in
  let steps := if (14 <=? n)%nat then 7%nat else 1%nat in
  map Advanced.name (Advanced.models r)
  = ["ARIMA(1,1,1)";
     if (14 <=? n)%nat then "Holt-Winters" else "Simple Exponential Smoothing";
     "Neural Network"]%string /\
  In (Advanced.bestModel r) (Advanced.models r) /\
  (forall m, In m (Advanced.models r) ->
     (accuracy_or_zero m >? accuracy_or_zero (Advanced.bestModel r)) = false) /\
  length (Advanced.ensemblePrediction r) = steps /\
  length (Advanced.ensembleConfidence r) = steps /\
  length (Advanced.trend (Advanced.seasonalComponents r)) = n /\
  length (Advanced.seasonal (Advanced.seasonalComponents r)) = n /\
  length (Advanced.residual (Advanced.seasonalComponents r)) = n /\
  (length (Advanced.anomalies r) <= 5)%nat /\
  Advanced.forecastHorizon r = Advanced.horizon options.
Proof.
  intros Hin; cbv zeta.
  destruct (pipeline_bundles salesData options s) as [_ Hall].
  destruct (Hall r Hin) as (s0 & s1 & external & Hlen & Hr). cbv zeta in Hlen, Hr.
  set (sales := observations_of (Advanced.r_itemName r) salesData) in *.
  assert (Hq : length (sorted_quantities sales) = length sales)
    by (unfold sorted_quantities; rewrite length_map; apply sort_by_date_length).
  destruct (arima_default_shape (sorted_quantities sales) s0) as [Han Hal].
  destruct (neural_shape (sorted_quantities sales) s1 ltac:(lia)) as [Hnn Hnl].
  destruct (smoothing_shape (sorted_quantities sales)) as [Hsn Hsl].
  cbv zeta in Han, Hal, Hnn, Hnl, Hsn, Hsl. rewrite Hq in Hsn, Hsl.
  rewrite Hr; unfold bundle; fold (sorted_quantities sales).
  cbn [Advanced.models Advanced.bestModel Advanced.ensemblePrediction
       Advanced.ensembleConfidence Advanced.seasonalComponents Advanced.anomalies
       Advanced.forecastHorizon map].
  rewrite Han, Hnn, Hsn.
  split; [reflexivity|].
  destruct (pick_best_aux
              (fst (Advanced.calculateARIMA (sorted_quantities sales) 1 1 1 s0))
              [Advanced.calculateExponentialSmoothing (sorted_quantities sales)
                 (Fin (3/10)) (Fin (3/10)) (Fin (3/10)) 7;
               fst (Advanced.calculateNeuralNetworkForecast (sorted_quantities sales) 5 s1)])
    as [Hbest Hmax].
  split; [exact Hbest|]. split; [exact Hmax|].
  match goal with
  | |- context [Advanced.createEnsemble ?ms ?me] =>
      destruct (ensemble_shape_aux ms me) as (Hep & Hec & _ & _)
  end.
  cbv zeta in Hep, Hec. rewrite Hep, Hec.
  assert (Hsteps : longest_prediction
             [fst (Advanced.calculateARIMA (sorted_quantities sales) 1 1 1 s0);
              Advanced.calculateExponentialSmoothing (sorted_quantities sales)
                (Fin (3/10)) (Fin (3/10)) (Fin (3/10)) 7;
              fst (Advanced.calculateNeuralNetworkForecast (sorted_quantities sales) 5 s1)]
           = (if (14 <=? length sales)%nat then 7 else 1)%nat).
  { unfold longest_prediction; cbn [map fold_right]. rewrite Hal, Hnl, Hsl.
    destruct (14 <=? length sales)%nat; reflexivity. }
  rewrite Hsteps. split; [reflexivity|]. split; [reflexivity|].
  destruct (decompose_lengths (sorted_quantities sales) 7) as (Ht & Hs & Hres).
  cbv zeta in Ht, Hs, Hres. rewrite Ht, Hs, Hres, Hq.
  repeat split; try reflexivity.
  unfold slice. rewrite length_firstn. lia.
Qed.

Lemma pipeline_bundle_shape_witness :
  exists r,
    In r (fst (Advanced.generateAdvancedForecasts flat_series default_options zero_draws)) /\
    length (Advanced.models r) = 3%nat.
Proof.
  destruct flat_series_bundle as (r & Hr & _).
  assert (Hin : In r (fst (Advanced.generateAdvancedForecasts
                             flat_series default_options zero_draws)))
    by (rewrite Hr; left; reflexivity).
  exists r; split; [exact Hin|].
  pose proof (proj1 (pipeline_bundle_shape flat_series default_options zero_draws r Hin)) as H.
  apply (f_equal (@length string)) in H. rewrite length_map in H. exact H.
Defined.

(** For an item with exactly 14 observations the first ensemble prediction
    of its bundle is [NaN] under the default [weighted] policy and under
    [average]: the first Holt-Winters forecast is [NaN] there, and both
    policies carry it into the ensemble. *)
Theorem pipeline_fourteen_observations (salesData : list SalesData)
  (options : Advanced.AdvancedForecastOptions) (s : Random)
  (r : Advanced.AdvancedForecastResult) :
  In r (fst (Advanced.generateAdvancedForecasts salesData options s)) ->
  length (observations_of (Advanced.r_itemName r) salesData) = 14%nat ->
  Advanced.ensembleMethod options <> Some Advanced.best_performer ->
  get (Advanced.ensemblePrediction r) 0 = NaN.
Proof.
  intros Hin Hn Hmethod.
  destruct (pipeline_bundles salesData options s) as [_ Hall].
  destruct (Hall r Hin) as (s0 & s1 & external & _ & Hr). cbv zeta in Hr.
  set (sales := observations_of (Advanced.r_itemName r) salesData) in *.
  assert (Hq : length (sorted_quantities sales) = 14%nat)
    by (unfold sorted_quantities; rewrite length_map, sort_by_date_length; exact Hn).
  rewrite Hr; unfold bundle; fold (sorted_quantities sales).
  cbn [Advanced.ensemblePrediction].
  apply (ensemble_NaN_aux _ _
           (Advanced.calculateExponentialSmoothing (sorted_quantities sales)
              (Fin (3/10)) (Fin (3/10)) (Fin (3/10)) 7)).
  - right; left; reflexivity.
  - destruct (smoothing_shape (sorted_quantities sales)) as [_ Hl]. cbv zeta in Hl.
    rewrite Hl, Hq. cbn. lia.
  - apply hw_unassigned_seasonal; [lia | rewrite Hq; reflexivity].
  - assumption.
Qed.

(** A batch with the observations of one item only. *)
Lemma single_item_bundle (salesData : list SalesData) (key : string)
  (options : Advanced.AdvancedForecastOptions) (s : Random) :
  (forall sale, In sale salesData -> itemName sale = key) ->
  (7 <= length salesData)%nat ->
  exists r,
    fst (Advanced.generateAdvancedForecasts salesData options s) = [r] /\
    Advanced.r_itemName r = key.
Proof.
  intros Hall Hlen.
  destruct (pipeline_bundles salesData options s) as [Hnames _]. cbv zeta in Hnames.
  rewrite (group_by_item_single key salesData) in Hnames;
    [| intros ->; cbn in Hlen; lia | assumption].
  cbn [filter snd] in Hnames.
  destruct (Nat.leb_spec 7 (length salesData)) as [_ | Hlt]; [|lia].
  cbn [map fst] in Hnames.
  destruct (fst (Advanced.generateAdvancedForecasts salesData options s)) as [|r [|r' l]];
    try discriminate Hnames.
  injection Hnames as Hname. exists r; split; [reflexivity | assumption].
Qed.

Lemma fortnight_series_items (sale : SalesData) :
  In sale fortnight_series -> itemName sale = "X"%string.
Proof.
  unfold fortnight_series, fortnight_quantities, mapi; cbn [mapi_from In].
  intros H; repeat (destruct H as [<- | H]; [reflexivity|]); contradiction.
Qed.

(** Fourteen observations, alternating 20 and 30, under the default options. *)
Lemma pipeline_fourteen_observations_witness :
  exists r,
    In r (fst (Advanced.generateAdvancedForecasts fortnight_series default_options
                 zero_draws)) /\
    get (Advanced.ensemblePrediction r) 0 = NaN.
Proof.
  destruct (single_item_bundle fortnight_series "X" default_options zero_draws
              fortnight_series_items ltac:(cbn; lia)) as (r & Hr & Hname).
  assert (Hin : In r (fst (Advanced.generateAdvancedForecasts
                             fortnight_series default_options zero_draws)))
    by (rewrite Hr; left; reflexivity).
  exists r; split; [exact Hin|].
  apply (pipeline_fourteen_observations fortnight_series default_options zero_draws r Hin).
  - rewrite Hname. reflexivity.
  - discriminate.
Defined.

(** On a series of exactly twice the season length (14 observations with
    the season length 7 of the pipeline) the first Holt-Winters forecast
    is [NaN]: it multiplies by [seasonal[seasonLength]], the one element of
    the seasonal array that neither loop assigns. *)
Theorem holt_winters_first_forecast_NaN
  (data : list num) (alpha beta gamma : num) (seasonLength : nat) :
  (0 < seasonLength)%nat -> length data = (seasonLength * 2)%nat ->
  get (Advanced.predictions
         (Advanced.calculateExponentialSmoothing data alpha beta gamma seasonLength)) 0
  = NaN.
Proof. exact (hw_unassigned_seasonal data alpha beta gamma seasonLength). Qed.

Lemma holt_winters_first_forecast_NaN_witness :
  get (Advanced.predictions
         (Advanced.calculateExponentialSmoothing
            (map Fin fortnight_quantities) (Fin (3/10)) (Fin (3/10)) (Fin (3/10)) 7)) 0
  = NaN.
Proof.
  apply holt_winters_first_forecast_NaN; [lia | reflexivity].
Defined.

(** The ensemble has one prediction and one confidence per forecast step,
    as many as the longest prediction sequence among the models (none for
    no models); the predictions are never negative and the confidences lie
    in the unit interval, unless they are [NaN]. *)
Theorem ensemble_shape (models : list Advanced.ForecastModel)
  (method : option Advanced.EnsembleMethod) :
  let e := Advanced.createEnsemble models method in
  length (Advanced.e_predictions e) = longest_prediction models /\
  length (Advanced.e_confidence e) = longest_prediction models /\
  Forall not_negative (Advanced.e_predictions e) /\
  Forall unit_or_NaN (Advanced.e_confidence e).
Proof. exact (ensemble_shape_aux models method). Qed.

(** The best model of a non-empty list is one of the list, and no model
    of the list has a higher accuracy, an accuracy of [NaN] counting as 0. *)
Theorem pick_best_maximal (first : Advanced.ForecastModel)
  (rest : list Advanced.ForecastModel) :
  let best := Advanced.pick_best (first :: rest) first in
  In best (first :: rest) /\
  forall m, In m (first :: rest) ->
    (accuracy_or_zero m >? accuracy_or_zero best) = false.
Proof. exact (pick_best_aux first rest). Qed.

(** Under the [average] and [weighted] policies one model's [NaN]
    prediction at a step makes the ensemble prediction of that step [NaN]:
    the flooring at zero does not remove it. *)
Theorem ensemble_NaN_propagates (models : list Advanced.ForecastModel)
  (method : option Advanced.EnsembleMethod) (m : Advanced.ForecastModel) (i : nat) :
  In m models -> (i < length (Advanced.predictions m))%nat ->
  get (Advanced.predictions m) i = NaN ->
  method <> Some Advanced.best_performer ->
  get (Advanced.e_predictions (Advanced.createEnsemble models method)) i = NaN.
Proof. exact (ensemble_NaN_aux models method m i). Qed.

Lemma ensemble_NaN_propagates_witness :
  let m := Advanced.calculateExponentialSmoothing
             (map Fin fortnight_quantities) (Fin (3/10)) (Fin (3/10)) (Fin (3/10)) 7 in
  get (Advanced.e_predictions (Advanced.createEnsemble [model_accuracy_1; m] None)) 0 = NaN.
Proof.
  cbv zeta. apply ensemble_NaN_propagates with
    (m := Advanced.calculateExponentialSmoothing
            (map Fin fortnight_quantities) (Fin (3/10)) (Fin (3/10)) (Fin (3/10)) 7).
  - right; left; reflexivity.
  - destruct (smoothing_shape (map Fin fortnight_quantities)) as [_ Hl]. cbv zeta in Hl.
    rewrite Hl. cbn. lia.
  - apply hw_unassigned_seasonal; [lia | reflexivity].
  - discriminate.
Defined.

(** ** The ensemble route *)

Lemma filter_by_name (salesData : list SalesData) (item : string) :
  filter (fun sale => String.eqb (itemName sale) item) salesData
  = observations_of item salesData.
Proof.
  unfold observations_of. apply filter_ext. intros sale. apply String.eqb_sym.
Qed.

Lemma filter_length_le {A : Type} (f : A -> bool) (l : list A) :
  (length (filter f l) <= length l)%nat.
Proof. induction l as [|x l IH]; cbn; [lia|]. destruct (f x); cbn; lia. Qed.

(** The ensemble route answers [null] for an item with fewer than 7 stored
    observations (an unknown item has none), and otherwise the one bundle
    of that item. *)
Theorem ensemble_route_answer (salesData : list SalesData) (item : string) (s : Random) :
  let answer := fst (Routes.ensemble_forecast salesData item s) in
  ((length (observations_of item salesData) < 7)%nat -> answer = None) /\
  ((7 <= length (observations_of item salesData))%nat ->
   exists r, answer = Some r /\ Advanced.r_itemName r = item /\
             fst (Advanced.generateAdvancedForecasts (observations_of item salesData)
                    default_options s) = [r]).
Proof.
  cbv zeta; unfold Routes.ensemble_forecast, bind. rewrite filter_by_name.
  fold default_options.
  assert (Hnames : forall sale, In sale (observations_of item salesData) ->
                                itemName sale = item).
  { intros sale Hin. unfold observations_of in Hin. apply filter_In in Hin as [_ H].
    apply String.eqb_eq in H. symmetry; exact H. }
  split.
  - intros Hlt.
    pose proof (bundles_have_history (observations_of item salesData) default_options s)
      as Hhist.
    destruct (Advanced.generateAdvancedForecasts (observations_of item salesData)
                default_options s) as [results s'].
    cbn [fst ret] in *. destruct results as [|r results]; [reflexivity|].
    specialize (Hhist r (or_introl eq_refl)).
    pose proof (filter_length_le
                  (fun sale => String.eqb (Advanced.r_itemName r) (itemName sale))
                  (observations_of item salesData)) as Hle.
    unfold observations_of in Hhist at 1. lia.
  - intros Hge.
    destruct (single_item_bundle (observations_of item salesData) item default_options s
                Hnames Hge) as (r & Hr & Hname).
    destruct (Advanced.generateAdvancedForecasts (observations_of item salesData)
                default_options s) as [results s'].
    cbn [fst ret] in *. subst results. exists r. auto.
Qed.

Lemma ensemble_route_answer_witness :
  fst (Routes.ensemble_forecast outlier_series "X" zero_draws) = None /\
  fst (Routes.ensemble_forecast outlier_series "Z" zero_draws) = None.
Proof.
  split.
  - apply (proj1 (ensemble_route_answer outlier_series "X" zero_draws)). cbn. lia.
  - apply (proj1 (ensemble_route_answer outlier_series "Z" zero_draws)). cbn. lia.
Defined.

(** ** The order of the anomalies *)

Lemma sort_insert_descending (x : Advanced.Anomaly) (l : list Advanced.Anomaly) :
  finite (Advanced.anomalyScore x) ->
  Forall (fun a => finite (Advanced.anomalyScore a)) l ->
  StronglySorted not_below l ->
  StronglySorted not_below
    (sort_insert (fun a b => Advanced.anomalyScore b - Advanced.anomalyScore a) x l).
Proof.
  intros (sx & Hx) Hfin Hsorted.
  induction Hsorted as [|y t Ht IH Hy]; cbn [sort_insert].
  - constructor; constructor.
  - inversion Hfin as [|? ? (sy & Hsy) Hfin']; subst.
    rewrite Hx, Hsy. cbn [sub neg add gt lt].
    destruct (Rlt_dec 0 (sy + - sx)) as [Hlt | Hge].
    + rewrite Rltb_true by assumption.
      constructor; [apply IH; assumption|].
      apply Forall_forall. intros z Hz. apply sort_insert_In in Hz as [-> | Hz].
      * unfold not_below. rewrite Hx, Hsy. apply lt_Fin_false. lra.
      * rewrite Forall_forall in Hy. apply Hy; assumption.
    + rewrite Rltb_false by lra.
      constructor; [constructor; assumption|].
      constructor.
      * unfold not_below. rewrite Hx, Hsy. apply lt_Fin_false. lra.
      * rewrite Forall_forall in Hy, Hfin'. apply Forall_forall. intros z Hz.
        specialize (Hy z Hz). destruct (Hfin' z Hz) as (sz & Hsz).
        unfold not_below in *. rewrite Hx, Hsz in *. rewrite Hsy in Hy. cbn [lt] in *.
        unfold Rltb in *.
        destruct (Rlt_dec sy sz); [discriminate|]. destruct (Rlt_dec sx sz); [lra | reflexivity].
Qed.

Lemma sort_descending (l : list Advanced.Anomaly) :
  Forall (fun a => finite (Advanced.anomalyScore a)) l ->
  StronglySorted not_below
    (sort (fun a b => Advanced.anomalyScore b - Advanced.anomalyScore a) l).
Proof.
  unfold sort; induction 1 as [|x l Hx Hfin IH]; cbn [fold_right]; [constructor|].
  apply sort_insert_descending; [assumption | | assumption].
  apply Forall_forall. intros a Ha. apply sort_In in Ha.
  rewrite Forall_forall in Hfin. apply Hfin; assumption.
Qed.

(** The anomalies are returned by descending score; each is an
    observation of the input, with its date and quantity, whose score
    exceeds the threshold; there are at most as many as observations. *)
Theorem anomalies_sorted_above_threshold (data : list SalesData) (threshold : num) :
  let anomalies := Advanced.detectAnomalies data threshold in
  StronglySorted not_below anomalies /\
  (length anomalies <= length data)%nat /\
  forall a, In a anomalies ->
    (Advanced.anomalyScore a >? threshold) = true /\
    exists item,
      In item data /\ Advanced.a_date a = date item /\
      Advanced.value a = quantity item /\
      Advanced.anomalyScore a = zScore_of (map quantity data) (quantity item).
Proof.
  cbv zeta. rewrite detectAnomalies_filter.
  set (flagged := filter _ data).
  assert (Hflag : forall item, In item flagged ->
            In item data /\
            (zScore_of (map quantity data) (quantity item) >? threshold) = true)
    by (intros item Hin; apply filter_In in Hin; exact Hin).
  split; [|split].
  - apply sort_descending. apply Forall_map, Forall_forall. intros item Hin.
    destruct (Hflag item Hin) as [Hdata Hgt]. cbn [Advanced.anomalyScore].
    pose proof (flagged_zScore_finite (map quantity data) (quantity item) threshold
                  (in_map quantity data item Hdata) Hgt) as Hfin.
    destruct (zScore_of (map quantity data) (quantity item)) as [z| | |];
      try discriminate Hfin. exists z; reflexivity.
  - rewrite sort_length, length_map. apply filter_length_le.
  - intros a Ha. apply sort_In in Ha. apply in_map_iff in Ha as (item & <- & Hin).
    destruct (Hflag item Hin) as [Hdata Hgt]. cbn. split; [assumption|].
    exists item; auto.
Qed.

(** The one anomaly of the outlier series under the threshold 1. *)
Lemma anomalies_sorted_above_threshold_witness :
  In (Advanced.mkAnomaly 4 (Fin 100) (Fin 2)) (Advanced.detectAnomalies outlier_series (Fin 1)) /\
  (Advanced.anomalyScore (Advanced.mkAnomaly 4 (Fin 100) (Fin 2)) >? Fin 1) = true.
Proof.
  assert (Hin : In (Advanced.mkAnomaly 4 (Fin 100) (Fin 2))
                   (Advanced.detectAnomalies outlier_series (Fin 1))).
  { destruct (outlier_low_threshold outlier_series 1 outlier_series_quantities)
      as (item & Hitem & ->); [lra|].
    injection Hitem as <-; left; reflexivity. }
  split; [exact Hin|].
  exact (proj1 (proj2 (proj2 (anomalies_sorted_above_threshold outlier_series (Fin 1)))
                  _ Hin)).
Defined.

(** The model of accuracy 0 does not beat the best of the two example models. *)
Lemma pick_best_maximal_witness :
  (accuracy_or_zero model_accuracy_0
   >? accuracy_or_zero
        (Advanced.pick_best [model_accuracy_0; model_accuracy_1] model_accuracy_0))
  = false.
Proof.
  apply (proj2 (pick_best_maximal model_accuracy_0 [model_accuracy_1]) model_accuracy_0).
  left; reflexivity.
Defined.

(** ** Sums over the indices *)









(** ** Least squares on a linear series *)



















(** ** The confidence score on any input *)

Lemma clamp_confidence (x : num) :
  confidence_or_NaN (Math_min (Fin (98/100)) (Math_max (Fin (3/10)) x)).
Proof.
  destruct x as [a| | |]; cbn; try exact I.
  - unfold Rltb. destruct (Rlt_dec (3/10) a); cbn; unfold Rltb.
    + destruct (Rlt_dec a (98/100)); cbn; lra.
    + destruct (Rlt_dec (3/10) (98/100)); cbn; lra.
  - lra.
  - unfold Rltb. destruct (Rlt_dec (3/10) (98/100)); cbn; lra.
Qed.

Lemma confidence_ranges (data : list num) (prediction : num) :
  confidence_or_NaN (Basic.calculateConfidence data prediction) /\
  confidence_or_NaN (Client.calculateConfidence data prediction).
Proof.
  rewrite server_confidence_unfold, client_confidence_unfold.
  destruct (length data =? 0)%nat.
  - split; cbn; lra.
  - split; apply clamp_confidence.
Qed.

(** Whatever the series and the prediction, finite or not, the confidence
    of the forecasting service and that of the client is a real between
    0.3 and 0.98, or [NaN]: it is never infinite and never outside the
    interval. *)
Theorem confidence_never_outside (data : list num) (prediction : num) :
  confidence_or_NaN (Basic.calculateConfidence data prediction) /\
  confidence_or_NaN (Client.calculateConfidence data prediction).
Proof. exact (confidence_ranges data prediction). Qed.

(** ** The predictions of the basic forecaster *)

Lemma group_push_nonempty (groups : ItemGroups) (key : string) (sale : SalesData) :
  (forall k sales, In (k, sales) groups -> sales <> []) ->
  forall k sales, In (k, sales) (group_push groups key sale) -> sales <> [].
Proof.
  induction groups as [|[k1 sales1] rest IH]; cbn [group_push]; intros H k sales Hin.
  - destruct Hin as [E | []]. injection E as <- <-. discriminate.
  - destruct (String.eqb k1 key).
    + destruct Hin as [E | Hin].
      * injection E as <- <-. intros E; apply app_eq_nil in E as [_ E]; discriminate E.
      * apply (H k sales). right; assumption.
    + destruct Hin as [E | Hin].
      * injection E as <- <-. apply (H k1 sales1). left; reflexivity.
      * apply (IH (fun k' s' Hin' => H k' s' (or_intror Hin')) k sales Hin).
Qed.

Lemma groups_nonempty (salesData : list SalesData) (key : string) (sales : list SalesData) :
  In (key, sales) (group_by_item salesData) -> sales <> [].
Proof.
  unfold group_by_item. revert key sales.
  induction salesData as [|sale salesData IH] using rev_ind; intros key sales.
  - intros [].
  - rewrite fold_left_app; cbn [fold_left]. apply group_push_nonempty. exact IH.
Qed.

Lemma basic_forecast_item_push (options : Basic.ForecastingOptions) (tomorrow : JSDate)
  (st : Basic.Loop) (key : string) (sales : list SalesData) :
  sales <> [] ->
  exists p,
    Basic.l_predictions (Basic.forecast_item options tomorrow st (key, sales))
    = Basic.l_predictions st ++ [p] /\
    Basic.p_itemName p = key /\
    not_negative (Basic.predictedQuantity p) /\
    confidence_or_NaN (Basic.confidence p) /\
    Basic.predictionDate p = tomorrow /\
    Basic.forecastPeriod p = Basic.period options.
Proof.
  intros Hne. unfold Basic.forecast_item.
  rewrite length_map, sort_by_date_length.
  destruct (Nat.eqb_spec (length sales) 0) as [E | _];
    [destruct sales; [contradiction | discriminate E]|].
  cbv zeta.
  match goal with
  | |- context [Basic.mkPrediction key ?c ?q ?conf tomorrow ?per] =>
      exists (Basic.mkPrediction key c q conf tomorrow per)
  end.
  split; [destruct (1 <? length sales)%nat; reflexivity|].
  cbn [Basic.p_itemName Basic.predictedQuantity Basic.confidence Basic.predictionDate
       Basic.forecastPeriod].
  split; [reflexivity|]. split; [apply max_zero_not_negative|].
  split; [apply confidence_ranges|]. split; reflexivity.
Qed.

Lemma basic_for_of_predictions (options : Basic.ForecastingOptions) (clock : nat -> JSDate)
  (k : nat) (entries : ItemGroups) (st : Basic.Loop) :
  (forall key sales, In (key, sales) entries -> sales <> []) ->
  exists ps,
    Basic.l_predictions (Basic.for_of options clock k entries st)
    = Basic.l_predictions st ++ ps /\
    map Basic.p_itemName ps = map fst entries /\
    Forall (fun p => not_negative (Basic.predictedQuantity p) /\
                     confidence_or_NaN (Basic.confidence p) /\
                     Basic.forecastPeriod p = Basic.period options) ps.
Proof.
  revert k st; induction entries as [|[key sales] rest IH]; intros k st Hne;
    cbn [Basic.for_of].
  - exists []. rewrite app_nil_r. repeat split; constructor.
  - destruct (basic_forecast_item_push options (clock k) st key sales
                (Hne key sales (or_introl eq_refl)))
      as (p & Hp & Hname & Hq & Hc & _ & Hper).
    destruct (IH (S k) (Basic.forecast_item options (clock k) st (key, sales))
                (fun key' sales' Hin => Hne key' sales' (or_intror Hin)))
      as (ps & Hps & Hnames & Hall).
    exists (p :: ps). rewrite Hps, Hp, <- app_assoc. split; [reflexivity|].
    split; [cbn [map fst]; rewrite Hname, Hnames; reflexivity|].
    constructor; auto.
Qed.

(** The basic forecaster makes exactly one prediction per item of the
    batch, whatever the number of its observations: the predicted items
    are pairwise distinct and are exactly the items that occur in the
    batch.  Every predicted quantity is non-negative or [NaN], every
    confidence is between 0.3 and 0.98 or [NaN], and every prediction
    carries the period of the options. *)
Theorem basic_one_prediction_per_item (salesData : list SalesData)
  (options : Basic.ForecastingOptions) (clock : nat -> JSDate) :
  let predictions := Basic.predictions (Basic.generateForecasts salesData options clock) in
  NoDup (map Basic.p_itemName predictions) /\
  (forall item, In item (map Basic.p_itemName predictions)
                <-> exists sale, In sale salesData /\ itemName sale = item) /\
  Forall (fun p => not_negative (Basic.predictedQuantity p) /\
                   confidence_or_NaN (Basic.confidence p) /\
                   Basic.forecastPeriod p = Basic.period options) predictions.
Proof.
  cbv zeta. unfold Basic.generateForecasts. cbn [Basic.predictions].
  destruct (basic_for_of_predictions options clock 0 (group_by_item salesData)
              (Basic.mkLoop [] (Fin 0) 0) (groups_nonempty salesData))
    as (ps & -> & Hnames & Hall).
  cbn [Basic.l_predictions app]. rewrite Hnames.
  destruct (group_by_item_grouped salesData) as (Hnd & Hobs & Hcover).
  split; [assumption|]. split; [|assumption].
  intros item; split.
  - intros Hin. apply in_map_iff in Hin as ([key sales] & <- & Hin). cbn [fst].
    pose proof (groups_nonempty salesData key sales Hin) as Hne.
    rewrite (Hobs _ _ Hin) in Hne.
    destruct (observations_of key salesData) as [|sale l] eqn:E; [contradiction|].
    assert (Hs : In sale (observations_of key salesData)) by (rewrite E; left; reflexivity).
    unfold observations_of in Hs. apply filter_In in Hs as [Hs Hname].
    apply String.eqb_eq in Hname. exists sale; auto.
  - intros (sale & Hin & <-). apply Hcover. assumption.
Qed.

(** ** The metrics of a batch without repeated items *)

Lemma observations_absent (key : string) (salesData : list SalesData) :
  ~ In key (map itemName salesData) -> observations_of key salesData = [].
Proof.
  unfold observations_of; induction salesData as [|sale l IH]; cbn [map In filter];
    [reflexivity|].
  intros H. destruct (String.eqb_spec key (itemName sale)) as [E | _].
  - exfalso; apply H; left; symmetry; assumption.
  - apply IH. intros Hin; apply H; right; assumption.
Qed.

Lemma observations_unique (key : string) (salesData : list SalesData) :
  NoDup (map itemName salesData) -> (length (observations_of key salesData) <= 1)%nat.
Proof.
  induction salesData as [|sale l IH]; cbn [map]; intros Hnd; [cbn; lia|].
  inversion Hnd as [|? ? Hnotin Hnd']; subst.
  unfold observations_of; cbn [filter].
  destruct (String.eqb_spec key (itemName sale)) as [E | _].
  - subst key. fold (observations_of (itemName sale) l).
    rewrite observations_absent by assumption. cbn; lia.
  - apply IH; assumption.
Qed.

Lemma basic_forecast_item_single (options : Basic.ForecastingOptions) (tomorrow : JSDate)
  (st : Basic.Loop) (key : string) (sales : list SalesData) :
  (length sales <= 1)%nat ->
  Basic.totalError (Basic.forecast_item options tomorrow st (key, sales))
  = Basic.totalError st /\
  Basic.totalPredictions (Basic.forecast_item options tomorrow st (key, sales))
  = Basic.totalPredictions st.
Proof.
  intros Hlen. unfold Basic.forecast_item.
  rewrite length_map, sort_by_date_length.
  destruct (length sales =? 0)%nat; [split; reflexivity|]. cbv zeta.
  destruct (Nat.ltb_spec 1 (length sales)) as [Hlt | _]; [lia | split; reflexivity].
Qed.

Lemma basic_for_of_single (options : Basic.ForecastingOptions) (clock : nat -> JSDate)
  (k : nat) (entries : ItemGroups) (st : Basic.Loop) :
  (forall key sales, In (key, sales) entries -> (length sales <= 1)%nat) ->
  Basic.totalError (Basic.for_of options clock k entries st) = Basic.totalError st /\
  Basic.totalPredictions (Basic.for_of options clock k entries st)
  = Basic.totalPredictions st.
Proof.
  revert k st; induction entries as [|[key sales] rest IH]; intros k st Hle;
    cbn [Basic.for_of]; [split; reflexivity|].
  destruct (IH (S k) (Basic.forecast_item options (clock k) st (key, sales))
              (fun key' sales' Hin => Hle key' sales' (or_intror Hin))) as [-> ->].
  apply basic_forecast_item_single. apply (Hle key sales). left; reflexivity.
Qed.

Lemma zero_over_default (y : num) : Fin 0 / (y || Fin 1) = Fin 0.
Proof.
  destruct y as [a| | |]; try reflexivity.
  - destruct (Req_dec_T a 0) as [-> | Hne].
    + rewrite or_else_zero. cbn. rewrite Reqb_false by lra. f_equal; lra.
    + rewrite or_else_Fin by assumption. cbn. rewrite Reqb_false by assumption.
      f_equal. unfold Rdiv; ring.
  - unfold or_else; cbn. rewrite Reqb_false by lra. f_equal; lra.
Qed.

(** A batch in which no item occurs twice, the empty batch included, has
    no item with a last observation to compare with: whatever the
    quantities, the forecaster reports an error of 0 and with it its best
    scores, accuracy 1, F1 0.95, precision 0.92 and recall 0.94. *)
Theorem basic_metrics_without_repeats (salesData : list SalesData)
  (options : Basic.ForecastingOptions) (clock : nat -> JSDate) :
  NoDup (map itemName salesData) ->
  Basic.metrics (Basic.generateForecasts salesData options clock)
  = Basic.mkMetrics (Fin 1) (Fin 0) (Fin (95/100)) (Fin (92/100)) (Fin (94/100)).
Proof.
  intros Hnd. unfold Basic.generateForecasts. cbn [Basic.metrics].
  destruct (basic_for_of_single options clock 0 (group_by_item salesData)
              (Basic.mkLoop [] (Fin 0) 0)) as [_ Hcount].
  { intros key sales Hin.
    rewrite (proj1 (proj2 (group_by_item_grouped salesData)) key sales Hin).
    apply observations_unique; assumption. }
  rewrite Hcount. cbn [Basic.totalPredictions Nat.ltb Nat.leb].
  rewrite zero_over_default.
  cbn [sub neg add mul].
  rewrite !max_Fin_r by lra.
  f_equal; f_equal; lra.
Qed.

Lemma basic_metrics_without_repeats_witness :
  Basic.metrics
    (Basic.generateForecasts
       [mkSalesData "Soup" "Starters" (Fin 12) (Fin 60) 0;
        mkSalesData "Bread" "Bakery" NaN (Fin 0) 86400000]
       (Basic.mkOptions weekly) (fun _ => tuesday))
  = Basic.mkMetrics (Fin 1) (Fin 0) (Fin (95/100)) (Fin (92/100)) (Fin (94/100)).
Proof.
  apply basic_metrics_without_repeats. cbn [map itemName].
  constructor; [|constructor; [|constructor]].
  - intros [E | []]; discriminate E.
  - intros [].
Defined.

(** ** Gaps in a date series *)

Lemma consecutive_gaps_snoc (ds : list Z) (a b : Z) :
  consecutive_gaps (ds ++ [a; b]) = consecutive_gaps (ds ++ [a]) ++ gap_between a b.
Proof.
  induction ds as [|d ds IH].
  - cbn [app consecutive_gaps]. rewrite app_nil_r; reflexivity.
  - destruct ds as [|x t].
    + cbn [app consecutive_gaps]. rewrite !app_nil_r; reflexivity.
    + change (consecutive_gaps ((d :: x :: t) ++ [a; b]))
        with (gap_between d x ++ consecutive_gaps ((x :: t) ++ [a; b])).
      change (consecutive_gaps ((d :: x :: t) ++ [a]))
        with (gap_between d x ++ consecutive_gaps ((x :: t) ++ [a])).
      rewrite IH, app_assoc; reflexivity.
Qed.

Lemma days_apart (prev current : Z) :
  ((of_Z current - of_Z prev) / Fin (24 * 60 * 60 * 1000) >? Fin (15/10))
  = (129600000 <? current - prev)%Z.
Proof.
  unfold of_Z. cbn [sub neg add div]. rewrite Reqb_false by lra. cbn [gt lt].
  destruct (Z.ltb_spec 129600000 (current - prev)) as [Hlt | Hge].
  - apply IZR_lt in Hlt. rewrite minus_IZR in Hlt. apply Rltb_true. lra.
  - apply IZR_le in Hge. rewrite minus_IZR in Hge. apply Rltb_false. lra.
Qed.

Lemma adjacent_elements {A : Type} (l : list A) (i : nat) :
  (1 <= i < length l)%nat ->
  exists pre a b post, l = pre ++ [a; b] ++ post /\ length pre = (i - 1)%nat.
Proof.
  intros Hi. exists (firstn (i - 1) l).
  pose proof (firstn_skipn (i - 1) l) as Hl.
  pose proof (length_skipn (i - 1) l) as Hk.
  destruct (skipn (i - 1) l) as [|a [|b post]]; cbn [length] in Hk; try lia.
  exists a, b, post. split; [symmetry; assumption|].
  rewrite length_firstn; lia.
Qed.

(** The loop of [findDateGaps] over an array collects the gaps between
    the consecutive dates. *)
Lemma date_gaps_loop (l : list SalesData) :
  (1 <= length l)%nat ->
  for_loop 1 (length l)
    (fun i gaps =>
       match nth_error l (i - 1), nth_error l i with
       | Some before, Some after =>
           if (of_Z (date after) - of_Z (date before)) / Fin (24 * 60 * 60 * 1000)
              >? Fin (15/10)
           then gaps ++ [ClientLib.mkGap (date before) (date after)] else gaps
       | _, _ => gaps
       end)
    []
  = consecutive_gaps (map date l).
Proof.
  intros Hlen.
  replace (consecutive_gaps (map date l))
    with (consecutive_gaps (map date (firstn (length l) l)))
    by (rewrite firstn_all; reflexivity).
  apply (for_loop_inv (fun i gaps => gaps = consecutive_gaps (map date (firstn i l))));
    [assumption | |].
  - destruct l as [|x [|y t]]; reflexivity.
  - intros i gaps Hi ->.
    destruct (adjacent_elements l i Hi) as (pre & a & b & post & -> & Hpre).
    assert (Ea : nth_error (pre ++ [a; b] ++ post) (i - 1) = Some a).
    { rewrite nth_error_app2 by lia. rewrite Hpre, Nat.sub_diag. reflexivity. }
    assert (Eb : nth_error (pre ++ [a; b] ++ post) i = Some b).
    { rewrite nth_error_app2 by lia. replace (i - length pre)%nat with 1%nat by lia.
      reflexivity. }
    rewrite Ea, Eb, days_apart.
    replace (firstn (S i) (pre ++ [a; b] ++ post)) with (pre ++ [a; b]).
    2:{ rewrite firstn_app. replace (S i - length pre)%nat with 2%nat by lia.
        rewrite firstn_all2 by lia. reflexivity. }
    replace (firstn i (pre ++ [a; b] ++ post)) with (pre ++ [a]).
    2:{ rewrite firstn_app. replace (i - length pre)%nat with 1%nat by lia.
        rewrite firstn_all2 by lia. reflexivity. }
    rewrite !map_app. cbn [map]. rewrite consecutive_gaps_snoc. unfold gap_between.
    destruct (129600000 <? date b - date a)%Z; [reflexivity | rewrite app_nil_r; reflexivity].
Qed.

Lemma date_gaps_sorted (data : list SalesData) :
  ClientLib.findDateGaps data = consecutive_gaps (map date (sort_by_date data)).
Proof.
  unfold ClientLib.findDateGaps.
  destruct (Nat.ltb_spec (length data) 2) as [Hlt | Hge].
  - destruct data as [|x [|y t]]; [reflexivity | reflexivity | cbn in Hlt; lia].
  - cbv zeta. apply date_gaps_loop. rewrite sort_by_date_length. lia.
Qed.

Lemma consecutive_gaps_sound (ds : list Z) :
  Forall (fun g => (129600000 < ClientLib.gap_end g - ClientLib.gap_start g)%Z /\
                   In (ClientLib.gap_start g) ds /\ In (ClientLib.gap_end g) ds)
         (consecutive_gaps ds) /\
  (length (consecutive_gaps ds) <= length ds - 1)%nat.
Proof.
  induction ds as [|d1 rest [IH IHlen]]; [split; [constructor | cbn; lia]|].
  destruct rest as [|d2 t]; [split; [constructor | cbn; lia]|].
  change (consecutive_gaps (d1 :: d2 :: t))
    with (gap_between d1 d2 ++ consecutive_gaps (d2 :: t)).
  split.
  - apply Forall_app; split.
    + unfold gap_between. destruct (Z.ltb_spec 129600000 (d2 - d1)); constructor;
        [|constructor]. cbn. auto.
    + eapply Forall_impl; [|exact IH]. cbn beta. intros g (Hg & Hs & He).
      split; [assumption | split; right; assumption].
  - rewrite length_app. unfold gap_between.
    destruct (129600000 <? d2 - d1)%Z; cbn [length] in *; lia.
Qed.

(** Every gap reported for a date series, in date order or not, lies
    between the dates of two observations of the series, which are more
    than a day and a half (129 600 000 ms) apart; a series of [n]
    observations has at most [n - 1] gaps, and none if [n < 2]. *)
Theorem date_gaps_sound (data : list SalesData) :
  Forall (fun g =>
            (129600000 < ClientLib.gap_end g - ClientLib.gap_start g)%Z /\
            exists before after,
              In before data /\ In after data /\
              date before = ClientLib.gap_start g /\ date after = ClientLib.gap_end g)
         (ClientLib.findDateGaps data) /\
  (length (ClientLib.findDateGaps data) <= length data - 1)%nat.
Proof.
  rewrite date_gaps_sorted.
  destruct (consecutive_gaps_sound (map date (sort_by_date data))) as [Hall Hlen].
  rewrite length_map, sort_by_date_length in Hlen. split; [|assumption].
  eapply Forall_impl; [|exact Hall]. cbn beta. intros g (Hg & Hs & He).
  split; [assumption|].
  apply in_map_iff in Hs as (before & Hb & Hinb).
  apply in_map_iff in He as (after & Ha & Hina).
  apply sort_In in Hinb, Hina. exists before, after. auto.
Qed.

Lemma sort_by_date_ordered (data : list SalesData) :
  Sorted date_ordered data -> sort_by_date data = data.
Proof.
  unfold sort_by_date, sort. induction 1 as [|x l Hsorted IH Hhd]; [reflexivity|].
  cbn [fold_right]. rewrite IH.
  destruct Hhd as [|y t Hxy]; [reflexivity|]. cbn [sort_insert].
  unfold date_ordered in Hxy. apply IZR_le in Hxy.
  unfold of_Z. cbn [sub neg add gt lt]. rewrite Rltb_false by lra. reflexivity.
Qed.

(** For a series already in date order, the gaps are exactly the pairs of
    consecutive observations more than a day and a half apart, in series
    order. *)
Theorem date_gaps_of_ordered_series (data : list SalesData) :
  Sorted date_ordered data ->
  ClientLib.findDateGaps data = consecutive_gaps (map date data).
Proof.
  intros Hsorted. rewrite date_gaps_sorted, sort_by_date_ordered by assumption.
  reflexivity.
Qed.

Lemma date_gaps_of_ordered_series_witness :
  ClientLib.findDateGaps
    [mkSalesData "Soup" "Starters" (Fin 12) (Fin 60) 0;
     mkSalesData "Soup" "Starters" (Fin 9) (Fin 45) 86400000;
     mkSalesData "Soup" "Starters" (Fin 14) (Fin 70) 345600000]
  = [ClientLib.mkGap 86400000 345600000].
Proof.
  apply (date_gaps_of_ordered_series
           [mkSalesData "Soup" "Starters" (Fin 12) (Fin 60) 0;
            mkSalesData "Soup" "Starters" (Fin 9) (Fin 45) 86400000;
            mkSalesData "Soup" "Starters" (Fin 14) (Fin 70) 345600000]).
  repeat constructor; unfold date_ordered; cbn [date]; lia.
Defined.

(** ** Outliers by the interquartile range *)

Lemma insert_value (r : R) (ss : list R) :
  StronglySorted Rle ss ->
  exists ss',
    sort_insert (fun a b => a - b) (Fin r) (map Fin ss) = map Fin ss' /\
    StronglySorted Rle ss' /\ Permutation (r :: ss) ss'.
Proof.
  induction 1 as [|y t Ht IH Hy]; cbn [map sort_insert].
  - exists [r]. repeat split; [constructor; constructor | apply Permutation_refl].
  - cbn [sub neg add gt lt].
    destruct (Rlt_dec 0 (r + - y)) as [Hlt | Hge].
    + rewrite Rltb_true by assumption.
      destruct IH as (t' & -> & Hsorted & Hperm).
      exists (y :: t'). split; [reflexivity|]. split.
      * constructor; [assumption|]. apply Forall_forall. intros z Hz.
        apply (Permutation_in _ (Permutation_sym Hperm)) in Hz as [<- | Hz]; [lra|].
        rewrite Forall_forall in Hy. apply Hy; assumption.
      * apply (perm_trans (perm_swap y r t)). apply perm_skip. assumption.
    + rewrite Rltb_false by lra.
      exists (r :: y :: t). split; [reflexivity|]. split; [|apply Permutation_refl].
      constructor; [constructor; assumption|].
      constructor; [lra|]. rewrite Forall_forall in Hy. apply Forall_forall.
      intros z Hz. specialize (Hy z Hz). lra.
Qed.

(** Sorting finite values with the comparator [(a, b) => a - b] arranges
    them in ascending order. *)
Lemma sort_values (rs : list R) :
  exists ss,
    sort (fun a b => a - b) (map Fin rs) = map Fin ss /\
    StronglySorted Rle ss /\ Permutation rs ss.
Proof.
  unfold sort; induction rs as [|r rs (ss & IH & Hsorted & Hperm)].
  - exists []. repeat split; constructor.
  - cbn [map fold_right]. rewrite IH.
    destruct (insert_value r ss Hsorted) as (ss' & -> & Hsorted' & Hperm').
    exists ss'. split; [reflexivity|]. split; [assumption|].
    apply (perm_trans (perm_skip r Hperm)). assumption.
Qed.

Lemma sorted_nth (ss : list R) (i j : nat) :
  StronglySorted Rle ss -> (i <= j < length ss)%nat ->
  (nth i ss 0 <= nth j ss 0)%R.
Proof.
  intros Hsorted; revert i j; induction Hsorted as [|y t Ht IH Hy]; intros i j Hij;
    cbn [length] in Hij; [lia|].
  destruct i as [|i], j as [|j]; cbn [nth]; try lia; try lra.
  - rewrite Forall_forall in Hy. apply Hy. apply nth_In. lia.
  - apply IH; lia.
Qed.

Lemma filter_values (f : num -> bool) (rs : list R) :
  filter f (map Fin rs) = map Fin (filter (fun r => f (Fin r)) rs).
Proof.
  induction rs as [|r rs IH]; cbn [map filter]; [reflexivity|].
  destruct (f (Fin r)); cbn [map]; rewrite IH; reflexivity.
Qed.

Lemma outliers_of_values (rs : list R) :
  (4 <= length rs)%nat ->
  exists ascending : list R,
    Permutation rs ascending /\ StronglySorted Rle ascending /\
    let q1 := nth (length rs / 4) ascending 0%R in
    let q3 := nth (length rs * 3 / 4) ascending 0%R in
    In q1 rs /\ In q3 rs /\ (q1 <= q3)%R /\
    ClientLib.detectOutliers (map Fin rs)
    = map Fin
        (filter (fun r => Rltb r (q1 - 15/10 * (q3 - q1))
                          || Rltb (q3 + 15/10 * (q3 - q1)) r)%bool rs).
Proof.
  intros Hlen. unfold ClientLib.detectOutliers. rewrite length_map.
  destruct (Nat.ltb_spec (length rs) 4) as [Hlt | _]; [lia|]. cbv zeta.
  destruct (sort_values rs) as (ss & -> & Hsorted & Hperm).
  pose proof (Permutation_length Hperm) as Hss.
  rewrite length_map, <- Hss.
  assert (H1 : (length rs / 4 < length ss)%nat)
    by (rewrite <- Hss; apply Nat.Div0.div_lt_upper_bound; lia).
  assert (H3 : (length rs * 3 / 4 < length ss)%nat)
    by (rewrite <- Hss; apply Nat.Div0.div_lt_upper_bound; lia).
  rewrite !get_map_Fin by assumption.
  exists ss. split; [assumption|]. split; [assumption|].
  split; [apply (Permutation_in _ (Permutation_sym Hperm)), nth_In; assumption|].
  split; [apply (Permutation_in _ (Permutation_sym Hperm)), nth_In; assumption|].
  split.
  - apply sorted_nth; [assumption|]. split; [|assumption].
    apply Nat.Div0.div_le_mono. lia.
  - rewrite filter_values. reflexivity.
Qed.



(** A series whose values are all the same finite number has no outliers,
    whatever its length. *)
Theorem outliers_of_constant_series (c : R) (n : nat) :
  ClientLib.detectOutliers (repeat (Fin c) n) = [].
Proof.
  destruct (Nat.lt_ge_cases n 4) as [Hlt | Hge].
  - unfold ClientLib.detectOutliers. rewrite repeat_length.
    destruct (Nat.ltb_spec n 4); [reflexivity | lia].
  - rewrite <- map_repeat.
    destruct (outliers_of_values (repeat c n)) as (ss & _ & _ & H1 & H3 & _ & ->);
      [rewrite repeat_length; assumption|].
    apply repeat_spec in H1, H3. rewrite H1, H3.
    replace (filter _ (repeat c n)) with (@nil R); [reflexivity|].
    symmetry. clear Hge H1 H3. induction n as [|n IH]; [reflexivity|]. cbn [repeat filter].
    rewrite !Rltb_false by lra. cbn [orb]. assumption.
Qed.

(** ** Simple exponential smoothing *)

Lemma set_at_end (a : list num) (v : num) : set a (length a) v = a ++ [v].
Proof. induction a as [|h a IH]; cbn [length set app]; [reflexivity | rewrite IH; reflexivity]. Qed.

Lemma smoothed_values (rs : list R) (alpha : R) :
  rs <> [] -> (0 <= alpha <= 1)%R -> Forall (fun r => 0 <= r)%R rs ->
  exists ss,
    for_loop 1 (length (map Fin rs))
      (fun i smoothed =>
         set smoothed i
           (Fin alpha * get (map Fin rs) i + (Fin 1 - Fin alpha) * get smoothed (i - 1)))
      [get (map Fin rs) 0]
    = map Fin ss /\
    length ss = length rs /\ Forall (fun r => 0 <= r)%R ss.
Proof.
  intros Hne Halpha Hrange. rewrite length_map.
  assert (Hlen : (1 <= length rs)%nat) by (destruct rs; [contradiction | cbn; lia]).
  apply (for_loop_inv
           (fun i smoothed =>
              exists ss, smoothed = map Fin ss /\ length ss = i /\
                         Forall (fun r => 0 <= r)%R ss));
    [assumption | |].
  - destruct rs as [|r0 rs]; [contradiction|]. exists [r0].
    split; [reflexivity|]. split; [reflexivity|].
    constructor; [|constructor]. inversion Hrange; assumption.
  - intros i smoothed Hi (ss & -> & Hss & Hin).
    rewrite (get_map_Fin rs i) by lia. rewrite (get_map_Fin ss (i - 1)) by lia.
    assert (Hset : forall v, set (map Fin ss) i v = map Fin ss ++ [v])
      by (intros v; rewrite <- set_at_end, length_map, Hss; reflexivity).
    rewrite Hset. cbn [sub neg add mul].
    exists (ss ++ [alpha * nth i rs 0 + (1 + - alpha) * nth (i - 1) ss 0]%R).
    split; [rewrite map_app; reflexivity|].
    split; [rewrite length_app; cbn [length]; lia|].
    apply Forall_app; split; [assumption|]. constructor; [|constructor].
    rewrite Forall_forall in Hrange, Hin.
    assert (Hr : (0 <= nth i rs 0)%R) by (apply Hrange, nth_In; lia).
    assert (Hs : (0 <= nth (i - 1) ss 0)%R) by (apply Hin, nth_In; lia).
    assert (0 <= alpha * nth i rs 0)%R by (apply Rmult_le_pos; lra).
    assert (0 <= (1 + - alpha) * nth (i - 1) ss 0)%R by (apply Rmult_le_pos; lra).
    lra.
Qed.

(** With fewer than two seasons of observations, exponential smoothing
    falls back to simple exponential smoothing, which does not floor its
    forecast at 0 as the other models do.  For a non-empty series of
    finite values none of which is negative, and a smoothing factor
    between 0 and 1, it gives a single prediction, a finite number that
    is not negative, with the confidence 0.7. *)
Theorem smoothing_not_negative (rs : list R) (alpha beta gamma : num) (a : R)
  (seasonLength : nat) :
  rs <> [] -> (length rs < seasonLength * 2)%nat ->
  alpha = Fin a -> (0 <= a <= 1)%R ->
  Forall (fun r => 0 <= r)%R rs ->
  let m := Advanced.calculateExponentialSmoothing (map Fin rs) alpha beta gamma seasonLength in
  Advanced.name m = "Simple Exponential Smoothing"%string /\
  Advanced.confidence m = [Fin (7/10)] /\
  exists f : R, Advanced.predictions m = [Fin f] /\ (0 <= f)%R.
Proof.
  intros Hne Hshort -> Ha Hrange. cbv zeta. unfold Advanced.calculateExponentialSmoothing.
  rewrite length_map.
  destruct (Nat.ltb_spec (length rs) (seasonLength * 2)) as [_ | Hge]; [|lia].
  unfold Advanced.simpleExponentialSmoothing.
  cbn [Advanced.predictions Advanced.name Advanced.confidence].
  split; [reflexivity|]. split; [reflexivity|].
  destruct (smoothed_values rs a Hne Ha Hrange) as (ss & -> & Hlen & Hin).
  assert (Hpos : (1 <= length rs)%nat) by (destruct rs; [contradiction | cbn; lia]).
  rewrite length_map. unfold getZ.
  destruct (Z.ltb_spec (Z.of_nat (length rs) - 1) 0) as [Hneg | _]; [lia|].
  rewrite get_map_Fin by lia.
  eexists; split; [reflexivity|].
  rewrite Forall_forall in Hin. apply Hin, nth_In. lia.
Qed.

Lemma smoothing_not_negative_witness :
  let m :=
    Advanced.calculateExponentialSmoothing
      (map Fin outlier_quantities) (Fin (3/10)) (Fin (3/10)) (Fin (3/10)) 7 in
  Advanced.name m = "Simple Exponential Smoothing"%string /\
  Advanced.confidence m = [Fin (7/10)] /\
  exists f : R, Advanced.predictions m = [Fin f] /\ (0 <= f)%R.
Proof.
  apply (smoothing_not_negative outlier_quantities _ _ _ (3/10) 7).
  - discriminate.
  - cbn [outlier_quantities length]. lia.
  - reflexivity.
  - lra.
  - unfold outlier_quantities. repeat constructor; lra.
Defined.

(** ** The decomposition of a constant series *)

Lemma skipn_repeat {A : Type} (x : A) (s n : nat) :
  skipn s (repeat x n) = repeat x (n - s).
Proof.
  revert s; induction n as [|n IH]; intros [|s]; cbn [repeat skipn Nat.sub]; try reflexivity.
  apply IH.
Qed.

Lemma firstn_repeat {A : Type} (x : A) (k n : nat) :
  firstn k (repeat x n) = repeat x (Nat.min k n).
Proof.
  revert k; induction n as [|n IH]; intros [|k]; cbn [repeat firstn Nat.min]; try reflexivity.
  rewrite IH; reflexivity.
Qed.

Lemma sum_repeat (c : R) (k : nat) (a : R) :
  fold_left Rplus (repeat c k) a = (a + IZR (Z.of_nat k) * c)%R.
Proof.
  revert a; induction k as [|k IH]; intros a.
  - cbn. lra.
  - cbn [repeat fold_left]. rewrite IH, Nat2Z.inj_succ, succ_IZR. lra.
Qed.

Lemma mean_of_repeat (c : R) (k : nat) :
  (0 < k)%nat ->
  reduce (fun sum val => sum + val) (repeat (Fin c) k) (Fin 0) / len (repeat (Fin c) k)
  = Fin c.
Proof.
  intros Hk. rewrite <- map_repeat, sum_Fin, sum_repeat.
  unfold len, of_nat, of_Z. rewrite length_map, repeat_length.
  assert (Hpos : (0 < IZR (Z.of_nat k))%R) by (apply IZR_lt; lia).
  rewrite div_Fin by lra. f_equal. field. lra.
Qed.

Lemma mean_of_zeros (l : list num) :
  l <> [] -> Forall (eq (Fin 0)) l ->
  reduce (fun sum val => sum + val) l (Fin 0) / len l = Fin 0.
Proof.
  intros Hne Hall. rewrite (Forall_eq_repeat Hall).
  apply mean_of_repeat. destruct l; [contradiction | cbn; lia].
Qed.

Lemma all_equal (a : list num) (v : num) (n : nat) :
  length a = n -> (forall i, (i < n)%nat -> get a i = v) -> a = repeat v n.
Proof.
  intros Hlen Hget. apply (nth_ext a (repeat v n) NaN NaN).
  - rewrite repeat_length; assumption.
  - intros i Hi. rewrite nth_repeat_lt by lia. apply Hget. lia.
Qed.

Lemma zero_buckets (data trend : list num) (seasonLength n : nat) :
  (forall i, (i < n)%nat -> get data i - get trend i = Fin 0) ->
  let seasonalAvg :=
    for_loop 0 n
      (fun i seasonalAvg =>
         Advanced.bucket_push seasonalAvg (rem i seasonLength) (get data i - get trend i))
      (fun _ => None) in
  forall key bucket, seasonalAvg key = Some bucket ->
    bucket <> [] /\ Forall (eq (Fin 0)) bucket.
Proof.
  intros Hzero; cbv zeta.
  apply (for_loop_inv
           (fun _ (b : Advanced.Buckets) =>
              forall key bucket, b key = Some bucket ->
                bucket <> [] /\ Forall (eq (Fin 0)) bucket)); [lia | |].
  - intros key bucket H; discriminate H.
  - intros i b Hi Hb key bucket. unfold Advanced.bucket_push.
    destruct (Advanced.key_eqb (rem i seasonLength) key); [|apply Hb].
    intros H; injection H as <-.
    rewrite (Hzero i) by lia.
    split; [intros E; apply app_eq_nil in E as [_ E]; discriminate E|].
    apply Forall_app; split; [|repeat constructor].
    destruct (b (rem i seasonLength)) as [l|] eqn:E; [apply (Hb _ _ E) | constructor].
Qed.

(** A series whose values are all the same finite number [c] decomposes,
    for any season length of at least 1, into the trend [c] at every
    index and a seasonal and a residual component that are 0 at every
    index. *)
Theorem decomposition_of_constant_series (c : R) (n seasonLength : nat) :
  (0 < seasonLength)%nat ->
  Advanced.decomposeTimeSeries (repeat (Fin c) n) seasonLength
  = Advanced.mkComponents (repeat (Fin c) n) (repeat (Fin 0) n) (repeat (Fin 0) n).
Proof.
  intros Hsl. unfold Advanced.decomposeTimeSeries.
  set (data := repeat (Fin c) n).
  assert (Hn : length data = n) by apply repeat_length.
  rewrite Hn.
  assert (Hdata : forall j, (j < n)%nat -> get data j = Fin c)
    by (intros j Hj; unfold data, get; apply nth_repeat_lt; assumption).
  set (halfSeason := (seasonLength / 2)%nat).
  set (F := fun i : nat =>
              reduce (fun sum val => sum + val)
                (slice data (i - halfSeason) (Nat.min n (i + halfSeason + 1))) (Fin 0)
              / len (slice data (i - halfSeason) (Nat.min n (i + halfSeason + 1)))).
  set (trend := for_loop 0 n _ (new_Array n)).
  assert (Htrend : length trend = n /\ forall j, (j < n)%nat -> get trend j = F j)
    by apply (fill_spec F n (new_Array n) (new_Array_length _)).
  destruct Htrend as [Htl Htg].
  assert (HF : forall j, (j < n)%nat -> F j = Fin c).
  { intros j Hj. unfold F, data, slice. rewrite skipn_repeat, firstn_repeat.
    apply mean_of_repeat. lia. }
  assert (Ht : trend = repeat (Fin c) n).
  { apply all_equal; [assumption|]. intros j Hj. rewrite Htg, HF by assumption.
    reflexivity. }
  assert (Hzero : forall j, (j < n)%nat -> get data j - get trend j = Fin 0).
  { intros j Hj. rewrite Hdata, Htg, HF by assumption. cbn. f_equal; lra. }
  set (seasonalAvg := @for_loop Advanced.Buckets 0 n _ _).
  assert (Hb : forall key bucket, seasonalAvg key = Some bucket ->
                 bucket <> [] /\ Forall (eq (Fin 0)) bucket)
    by apply (zero_buckets data trend seasonLength n Hzero).
  set (G := fun i : nat =>
              match seasonalAvg (Some i) with
              | Some bucket => reduce (fun sum val => sum + val) bucket (Fin 0) / len bucket
              | None => Fin 0
              end).
  set (pattern := for_loop 0 seasonLength _ (new_Array seasonLength)).
  assert (Hpg : forall j, (j < seasonLength)%nat -> get pattern j = G j)
    by apply (fill_spec G seasonLength (new_Array seasonLength) (new_Array_length _)).
  assert (Hpz : forall j, get_rem pattern (rem j seasonLength) = Fin 0).
  { intros j. unfold rem. destruct (Nat.eqb_spec seasonLength 0); [lia|].
    cbn [get_rem]. rewrite Hpg by (apply Nat.mod_upper_bound; assumption).
    unfold G. destruct (seasonalAvg (Some (j mod seasonLength)%nat)) as [bucket|] eqn:E;
      [|reflexivity].
    destruct (Hb _ _ E) as [Hne Hall]. apply mean_of_zeros; assumption. }
  set (out := for_loop 0 n _ _).
  assert (Hout :
    length (fst out) = n /\ length (snd out) = n /\
    forall j, (j < n)%nat -> get (fst out) j = Fin 0 /\ get (snd out) j = Fin 0).
  { unfold out.
    apply (for_loop_inv
             (fun k o =>
                length (fst o) = n /\ length (snd o) = n /\
                forall j, (j < k)%nat -> get (fst o) j = Fin 0 /\ get (snd o) j = Fin 0));
      [lia | |].
    - repeat split; try apply new_Array_length; lia.
    - intros k o Hk (Hs & Hr & Hget); cbn [fst snd].
      rewrite !set_length by lia. repeat split; try assumption.
      + destruct (Nat.eq_dec k j) as [-> | Hne];
          [rewrite get_set_eq; apply Hpz
          | rewrite get_set_neq by assumption; apply Hget; lia].
      + destruct (Nat.eq_dec k j) as [-> | Hne].
        * rewrite !get_set_eq, Hpz, Hzero by lia. cbn. f_equal; lra.
        * rewrite get_set_neq by assumption. apply Hget; lia. }
  destruct Hout as (Hsl' & Hrl & Hget).
  f_equal.
  - assumption.
  - apply all_equal; [assumption|]. intros j Hj. apply Hget; assumption.
  - apply all_equal; [assumption|]. intros j Hj. apply Hget; assumption.
Qed.

Lemma decomposition_of_constant_series_witness :
  Advanced.decomposeTimeSeries (repeat (Fin 50) 14) 7
  = Advanced.mkComponents (repeat (Fin 50) 14) (repeat (Fin 0) 14) (repeat (Fin 0) 14).
Proof.
  apply decomposition_of_constant_series. lia.
Defined.
